(** * run_vqa.py: the VQA fine-tuning runner, embedded and verified

    A shallow embedding of [src/run_vqa.py]: the tensor helpers
    ([instance_bce_with_logits], [compute_score_with_logits]), the learning
    rate schedule ([lr_lambda_update]), the evaluator ([evaluate]) and the
    control flow of [main] (start-up checks, dataset loading, optimizer
    construction, the epoch / micro-batch loop).

    Conventions.
    - Python [int] is [Z]; Python and torch floating point scalars are read as
      exact rationals [Q] (an idealisation: rounding is not modelled), compared
      with [==].  The one place where a float is turned back into an [int]
      (line 281) is the exception: there the binary64 quotient is asked of
      the machine ([float_div]).
    - A 2-dimensional tensor is a [list (list Q)], one inner list per row.
    - A Python exception is a constructor of [exn]; code that can raise
      returns a [result].
    - Calls that leave the file and change something (the model, the
      optimizer, the dashboard, the file system) are recorded as [event]s, in
      program order; what the program reads from outside (does a path exist,
      the size of the process group) is a function of the state of the
      world. *)

From Stdlib Require Import ZArith QArith Qround Qabs List Lia Lqa Bool Ascii.
From stdpp Require Import base option list gmap strings pretty.

Local Open Scope Z_scope.

(** ** Exceptions and results *)

Inductive exn : Type :=
| ValueError
| NameError
| AssertionError
| ZeroDivisionError
| TypeError
| RuntimeError
| OverflowError.

Inductive result (A : Type) : Type :=
| Ok (a : A)
| Raise (e : exn).
Arguments Ok {A} a.
Arguments Raise {A} e.

Definition rbind {A B} (r : result A) (f : A -> result B) : result B :=
  match r with
  | Ok a => f a
  | Raise e => Raise e
  end.

Declare Scope result_scope.
Delimit Scope result_scope with res.
Notation "'try' x <- r ; k" := (rbind r (fun x => k))
  (at level 10, x name, r at level 100, k at level 200) : result_scope.
Local Open Scope result_scope.

Fixpoint rmap {A B} (f : A -> result B) (l : list A) : result (list B) :=
  match l with
  | [] => Ok []
  | a :: l' => try b <- f a; try bs <- rmap f l'; Ok (b :: bs)
  end.

(** ** Tensors *)

Definition matrix : Type := list (list Q).

(** [Tensor.sum()] of a flat tensor. *)
Definition Qsum (l : list Q) : Q := fold_right Qplus 0%Q l.

(** [Tensor.sum()] of a matrix. *)
Definition msum (m : matrix) : Q := Qsum (concat m).

(** [Tensor.size(0)] and [Tensor.size(1)]. *)
Definition size0 (m : matrix) : nat := length m.
Definition size1 (m : matrix) : nat := length (hd [] m).

Definition Qnat (n : nat) : Q := inject_Z (Z.of_nat n).

(** [a.size() == b.size()], row by row. *)
Fixpoint same_shape (a b : matrix) : bool :=
  match a, b with
  | [], [] => true
  | ra :: a', rb :: b' => Nat.eqb (length ra) (length rb) && same_shape a' b'
  | _, _ => false
  end.

(** [Tensor.mean()]: the sum over the number of elements. *)
Definition tensor_mean (l : list Q) : Q := (Qsum l / Qnat (length l))%Q.

Definition Qlt_bool (a b : Q) : bool := negb (Qle_bool b a).

(** [torch.max(row)]: the largest entry, and the index of its first
    occurrence. *)
Fixpoint max_from (best_i : nat) (best : Q) (i : nat) (l : list Q) : Q * nat :=
  match l with
  | [] => (best, best_i)
  | x :: l' =>
      if Qlt_bool best x then max_from i x (S i) l'
      else max_from best_i best (S i) l'
  end.

(** [torch.max] along a dimension of size 0 is an error. *)
Definition row_max (row : list Q) : result (Q * nat) :=
  match row with
  | [] => Raise RuntimeError
  | x :: l' => Ok (max_from 0%nat x 1%nat l')
  end.

(** [torch.max(t, 1)]: the per-row maxima [[0]] and their indices [[1]]. *)
Definition torch_max1 (m : matrix) : result (list (Q * nat)) := rmap row_max m.

(** [torch.zeros] of the shape of [labels]. *)
Definition zeros_like (m : matrix) : matrix := map (map (fun _ => 0%Q)) m.

(** [one_hots.scatter_(1, idx.view(-1, 1), 1)]: row [i] gets a 1 at column
    [idx[i]]; an index outside the row, or more indices than rows, is an
    error. *)
Fixpoint scatter_1 (one_hots : matrix) (idx : list nat) : result matrix :=
  match idx, one_hots with
  | [], _ => Ok one_hots
  | i :: idx', row :: rest =>
      if (i <? length row)%nat
      then try rest' <- scatter_1 rest idx'; Ok (<[i := 1%Q]> row :: rest')
      else Raise RuntimeError
  | _ :: _, [] => Raise RuntimeError
  end.

(** The row that [scatter_1] leaves in a tensor of zeros: a 1 at column
    [k]. *)
Definition one_hot_row (k : nat) (trow : list Q) : list Q :=
  <[k := 1%Q]> (map (fun _ => 0%Q) trow).

(** The target weight at the position of the largest logit of an example. *)
Definition match_score (lrow trow : list Q) : Q :=
  match row_max lrow with
  | Ok (_, k) => nth k trow 0%Q
  | Raise _ => 0%Q
  end.

(** The largest target weight of an example. *)
Definition max_weight (trow : list Q) : Q :=
  match row_max trow with
  | Ok (v, _) => v
  | Raise _ => 0%Q
  end.

(** Elementwise product of two tensors of one shape. *)
Definition mmul (a b : matrix) : result matrix :=
  if same_shape a b then Ok (zip_with (zip_with Qmult) a b)
  else Raise RuntimeError.

Section Losses.

(** The elementwise kernel of [F.binary_cross_entropy_with_logits]
    ([max(x,0) - x*y + log(1 + exp(-|x|))] in torch); it is not rational
    valued, so it stays a parameter. *)
Variable bce_kernel : Q -> Q -> Q.

(** [F.binary_cross_entropy_with_logits(input, target)] with the default
    [reduction='mean']; torch raises [ValueError] when the sizes differ. *)
Definition binary_cross_entropy_with_logits (input target : matrix)
  : result Q :=
  if same_shape input target
  then Ok (tensor_mean (zip_with bce_kernel (concat input) (concat target)))
  else Raise ValueError.

(** [instance_bce_with_logits] (lines 547-551).  [logits.dim() == 2] holds
    for every [matrix], so the assertion never fails. *)
Definition instance_bce_with_logits (logits labels : matrix) : result Q :=
  try loss <- binary_cross_entropy_with_logits logits labels;
  Ok (loss * Qnat (size1 labels))%Q.

End Losses.

(** [compute_score_with_logits] (lines 553-558). *)
Definition compute_score_with_logits (logits labels : matrix)
  : result matrix :=
  try mx <- torch_max1 logits;
  let logits' := map snd mx in
  let one_hots := zeros_like labels in
  try one_hots' <- scatter_1 one_hots logits';
  mmul one_hots' labels.

(** ** The milestone schedule *)

(** [bisect.bisect] of the Python standard library ([bisect_right]): a binary
    search for the insertion point of [x] after any equal entries.  The
    interval [hi - lo] shrinks at every turn, so [length a] turns suffice. *)
Fixpoint bisect_loop (fuel : nat) (a : list Z) (x : Z) (lo hi : nat) : nat :=
  match fuel with
  | O => lo
  | S fuel' =>
      if (lo <? hi)%nat then
        let mid := ((lo + hi) / 2)%nat in
        match a !! mid with
        | Some am =>
            if x <? am then bisect_loop fuel' a x lo mid
            else bisect_loop fuel' a x (S mid) hi
        | None => lo
        end
      else lo
  end.

Definition bisect (a : list Z) (x : Z) : nat :=
  bisect_loop (length a) a x 0%nat (length a).

Definition warmup_iterations : Z := 1000.
Definition warmup_factor : Q := 2 # 10.
Definition lr_ratio : Q := 1 # 10.
Definition lr_steps : list Z := [15000; 18000; 20000; 21000].

(** [lr_lambda_update] (lines 560-570).  The search on line 569 is made in
    the empty list literal, not in [lr_steps]. *)
Definition lr_lambda_update (i_iter : Z) : Q :=
  if i_iter <=? warmup_iterations then
    let alpha := (inject_Z i_iter / inject_Z warmup_iterations)%Q in
    (warmup_factor * (1 - alpha) + alpha)%Q
  else
    let idx := bisect [] i_iter in
    (lr_ratio ^ Z.of_nat idx)%Q.

(** The schedule the unused local [lr_steps] is there for: the same body with
    the search made in [lr_steps]. *)
Definition lr_lambda_milestones (i_iter : Z) : Q :=
  if i_iter <=? warmup_iterations then
    let alpha := (inject_Z i_iter / inject_Z warmup_iterations)%Q in
    (warmup_factor * (1 - alpha) + alpha)%Q
  else
    let idx := bisect lr_steps i_iter in
    (lr_ratio ^ Z.of_nat idx)%Q.

(** A list of milestones in ascending order. *)
Definition ascending (a : list Z) : Prop :=
  forall (i j : nat) (x y : Z),
    (i <= j)%nat -> a !! i = Some x -> a !! j = Some y -> x <= y.

(** The number of milestones less than or equal to [x]. *)
Definition milestones_passed (a : list Z) (x : Z) : nat :=
  length (filter (fun m => m <= x) a).

(** ** Command line arguments *)

Record Args : Type := mkArgs {
  features_h5path : string;
  bert_model : string;
  pretrained_weight : string;
  output_dir : string;
  config_file : string;
  do_train : bool;
  train_batch_size : Z;
  learning_rate : Q;
  num_train_epochs : Z;
  warmup_proportion : Q;
  no_cuda : bool;
  local_rank : Z;
  gradient_accumulation_steps : Z;
  fp16 : bool;
  loss_scale : Q;
  from_pretrained : bool;
  save_name : string;
  baseline : bool;
  split : string;
}.

(** The defaults of the argument parser (lines 57-181). *)
Definition default_args : Args := {|
  features_h5path := "/srv/datasets/conceptual_caption/coco/coco_trainval.h5";
  bert_model := "bert-base-uncased";
  pretrained_weight := "bert-base-uncased";
  output_dir := "save";
  config_file := "config/bert_config.json";
  do_train := false;
  train_batch_size := 128;
  learning_rate := 5 # 100000;
  num_train_epochs := 30;
  warmup_proportion := 1 # 100;
  no_cuda := false;
  local_rank := -1;
  gradient_accumulation_steps := 1;
  fp16 := false;
  loss_scale := 0;
  from_pretrained := false;
  save_name := "";
  baseline := false;
  split := "train";
|}.

Definition set_train_batch_size (v : Z) (a : Args) : Args :=
  mkArgs (features_h5path a) (bert_model a) (pretrained_weight a)
    (output_dir a) (config_file a) (do_train a) v (learning_rate a)
    (num_train_epochs a) (warmup_proportion a) (no_cuda a) (local_rank a)
    (gradient_accumulation_steps a) (fp16 a) (loss_scale a)
    (from_pretrained a) (save_name a) (baseline a) (split a).

(** What the process finds on the machine. *)
Record Env : Type := mkEnv {
  cuda_is_available : bool;
  cuda_device_count : Z;
  (** [sum(1 for p in model.parameters() if p.requires_grad)] *)
  trainable_parameters : nat;
  (** [strftime(...)] followed by the random suffix (lines 194-195) *)
  fresh_time_stamp : string;
}.

(** ** Python objects held in [main]'s local names *)

Inductive pyobj : Type :=
| ImageFeaturesH5Reader (path : string) (in_memory : bool)
| BertTokenizer (name : string)
| TBlogger (log_dir : string)
| WarmupLinearSchedule (warmup : Q) (t_total : Z).

(** Calling an object with positional arguments (line 463).  None of the
    classes of these objects defines [__call__]: a schedule of
    [pytorch_pretrained_bert.optimization] is read through its method
    [get_lr], so that calling one raises [TypeError]. *)
Definition py_call (f : pyobj) (xs : list Q) : result Q :=
  match f with
  | ImageFeaturesH5Reader _ _ => Raise TypeError
  | BertTokenizer _ => Raise TypeError
  | TBlogger _ => Raise TypeError
  | WarmupLinearSchedule _ _ => Raise TypeError
  end.

(** ** Paths *)

(** [s.startswith("/")] and [s.endswith("/")] *)
Definition starts_with_sep (s : string) : bool :=
  match s with
  | String c _ => Ascii.eqb c "/"%char
  | EmptyString => false
  end.

Fixpoint ends_with_sep (s : string) : bool :=
  match s with
  | EmptyString => false
  | String c EmptyString => Ascii.eqb c "/"%char
  | String _ s' => ends_with_sep s'
  end.

(** [os.path.join(a, b)] of [posixpath]: an absolute [b] replaces [a], and
    a separator is put between the two unless [a] is empty or ends with
    one. *)
Definition path_join (a b : string) : string :=
  if starts_with_sep b then b
  else if String.eqb a "" || ends_with_sep a then a +:+ b
  else a +:+ "/" +:+ b.

Section Data.

(** One example's input tensor (features, boxes, masks, token ids ...):
    only the targets are looked into. *)
Context {X : Type}.

(** ** Examples, batches and data loaders *)

(** One item of a [VQAClassificationDataset], in the order the dataset
    yields its fields. *)
Record Example : Type := mkExample {
  ex_features : X;
  ex_spatials : X;
  ex_image_mask : X;
  ex_question : X;
  ex_target : list Q;
  ex_input_mask : X;
  ex_segment_ids : X;
  ex_question_id : X;
}.

(** A batch: each field stacks the examples' fields along dimension 0. *)
Record Batch : Type := mkBatch {
  features : list X;
  spatials : list X;
  image_mask : list X;
  question : list X;
  target : matrix;
  input_mask : list X;
  segment_ids : list X;
  question_ids : list X;
}.

Definition collate (exs : list Example) : Batch := {|
  features := map ex_features exs;
  spatials := map ex_spatials exs;
  image_mask := map ex_image_mask exs;
  question := map ex_question exs;
  target := map ex_target exs;
  input_mask := map ex_input_mask exs;
  segment_ids := map ex_segment_ids exs;
  question_ids := map ex_question_id exs;
|}.

Record Dataset : Type := mkDataset {
  examples : list Example;
  num_ans_candidates : nat;
}.

(** Consecutive slices of [n] items, the last one possibly shorter. *)
Fixpoint chunks {A} (fuel n : nat) (l : list A) : list (list A) :=
  match fuel with
  | O => []
  | S fuel' =>
      match l with
      | [] => []
      | _ :: _ => take n l :: chunks fuel' n (drop n l)
      end
  end.

Record DataLoader : Type := mkDataLoader {
  dataset : Dataset;
  shuffle : bool;
  batch_size : nat;
}.

(** [torch.utils.data.DataLoader(dset, shuffle=.., batch_size=..)]; a batch
    size that is not positive is refused. *)
Definition new_DataLoader (dset : Dataset) (sh : bool) (bs : Z)
  : result DataLoader :=
  if bs <=? 0 then Raise ValueError
  else Ok (mkDataLoader dset sh (Z.to_nat bs)).

(** [len(dataloader)] *)
Definition len_DataLoader (dl : DataLoader) : Z :=
  let n := Z.of_nat (length (examples (dataset dl))) in
  let b := Z.of_nat (batch_size dl) in
  (n + b - 1) / b.

(** [len(dataloader.dataset)] *)
Definition len_dataset (dl : DataLoader) : Z :=
  Z.of_nat (length (examples (dataset dl))).

(** ** Calls that leave the file *)

Inductive event : Type :=
| EMakedirs (path : string)
| ELoadConfig (path : string)
| EWriteCommand (path : string)
| ESetDevice (rank : Z)
| EInitProcessGroup
| ENewTBlogger (log_dir : string)
| ELoadTokenizer (name : string)
| EOpenFeatures (path : string)
| ENewDataset (name : string)
| ELoadModel (weights : string) (num_labels : nat)
| EModelHalf
| EWrapDDP
| EWrapDataParallel
| EModelCuda
| ENewFusedAdam (groups : nat)
| ENewFP16Optimizer (dynamic : bool)
| ENewBertAdam (groups : nat)
| EModelTrain (mode : bool)
| EForward (grad : bool) (b : Batch)
| EBackward (through_optimizer : bool) (loss : Q)
| ELinePlot (iterId : Z) (val : Q)
| ESetLr (group : nat) (lr : Q)
| EClipGradNorm (max_norm : Q)
| EOptimizerStep
| EZeroGrad
| EPrintProgress (iterId : Z) (loss : Q)
| ELogEpoch (epochId : Z) (train_loss train_score eval_score bound : Q)
| ESave (path : string).

End Data.

Arguments Example : clear implicits.
Arguments Batch : clear implicits.
Arguments Dataset : clear implicits.
Arguments DataLoader : clear implicits.
Arguments event : clear implicits.

(** ** What the program is run against

    [W] is the world outside the program: the device (model weights,
    gradient buffers, optimizer moments), the process group, the file
    system.  Every outside call may change it, and what the program reads
    from outside depends on it. *)
Class Externals (X W : Type) : Type := {
  (** the random order of one pass over a shuffled loader *)
  sampler : Z -> list (Example X) -> list (Example X);
  (** the effect of an outside call on the world *)
  apply_event : event X -> W -> W;
  (** the model's logits for a batch *)
  model_forward : W -> Batch X -> matrix;
  (** the elementwise kernel of the cross-entropy *)
  bce_kernel : Q -> Q -> Q;
  (** the dataset constructor of [multimodal_bert.datasets] *)
  VQAClassificationDataset : string -> pyobj -> pyobj -> Dataset X;
  (** [os.path.exists(path)] *)
  path_exists : W -> string -> bool;
  (** [torch.distributed.get_world_size()]: the size of the process group,
      or the exception raised when none was initialised *)
  get_world_size : W -> result Z;
  (** Python's [x / k] for a number [x] and an [int] [k] other than 0: the
      quotient rounded to binary64, or the [OverflowError] of an operand
      that is no float *)
  float_div : Q -> Z -> result Q;
}.

Section Program.

Context {X W : Type} `{!Externals X W}.

(** The batches of pass number [pass] over the loader. *)
Definition iter_DataLoader (pass : Z) (dl : DataLoader X) : list (Batch X) :=
  let order :=
    if shuffle dl then sampler pass (examples (dataset dl))
    else examples (dataset dl) in
  map collate (chunks (length order) (batch_size dl) order).

(** ** The state of [main] *)

Record St : Type := mkSt {
  (** the world outside: the device, the process group, the file system *)
  device : W;
  (** the local names that hold objects *)
  names : gmap string pyobj;
  args : Args;
  n_gpu : Z;
  num_train_optimization_steps : Z;
  (** [param_group["lr"]] of each of [optimizer.param_groups] *)
  param_groups : list Q;
  global_step : Z;
  loss_tmp : Q;
  total_loss : Q;
  train_score : Q;
  nb_tr_examples : Z;
  nb_tr_steps : Z;
}.

Definition initial_state (a : Args) (w : W) : St := {|
  device := w; names := ∅; args := a; n_gpu := 0;
  num_train_optimization_steps := 0; param_groups := [];
  global_step := 0; loss_tmp := 0; total_loss := 0; train_score := 0;
  nb_tr_examples := 0; nb_tr_steps := 0;
|}.

Definition set_device (f : W -> W) (s : St) : St :=
  mkSt (f (device s)) (names s) (args s) (n_gpu s)
    (num_train_optimization_steps s) (param_groups s) (global_step s)
    (loss_tmp s) (total_loss s) (train_score s) (nb_tr_examples s)
    (nb_tr_steps s).
Definition set_names (f : gmap string pyobj -> gmap string pyobj) (s : St)
  : St :=
  mkSt (device s) (f (names s)) (args s) (n_gpu s)
    (num_train_optimization_steps s) (param_groups s) (global_step s)
    (loss_tmp s) (total_loss s) (train_score s) (nb_tr_examples s)
    (nb_tr_steps s).
Definition set_args (f : Args -> Args) (s : St) : St :=
  mkSt (device s) (names s) (f (args s)) (n_gpu s)
    (num_train_optimization_steps s) (param_groups s) (global_step s)
    (loss_tmp s) (total_loss s) (train_score s) (nb_tr_examples s)
    (nb_tr_steps s).
Definition set_n_gpu (v : Z) (s : St) : St :=
  mkSt (device s) (names s) (args s) v
    (num_train_optimization_steps s) (param_groups s) (global_step s)
    (loss_tmp s) (total_loss s) (train_score s) (nb_tr_examples s)
    (nb_tr_steps s).
Definition set_num_train_optimization_steps (v : Z) (s : St) : St :=
  mkSt (device s) (names s) (args s) (n_gpu s) v (param_groups s)
    (global_step s) (loss_tmp s) (total_loss s) (train_score s)
    (nb_tr_examples s) (nb_tr_steps s).
Definition set_param_groups (f : list Q -> list Q) (s : St) : St :=
  mkSt (device s) (names s) (args s) (n_gpu s)
    (num_train_optimization_steps s) (f (param_groups s)) (global_step s)
    (loss_tmp s) (total_loss s) (train_score s) (nb_tr_examples s)
    (nb_tr_steps s).
Definition set_global_step (f : Z -> Z) (s : St) : St :=
  mkSt (device s) (names s) (args s) (n_gpu s)
    (num_train_optimization_steps s) (param_groups s) (f (global_step s))
    (loss_tmp s) (total_loss s) (train_score s) (nb_tr_examples s)
    (nb_tr_steps s).
Definition set_loss_tmp (f : Q -> Q) (s : St) : St :=
  mkSt (device s) (names s) (args s) (n_gpu s)
    (num_train_optimization_steps s) (param_groups s) (global_step s)
    (f (loss_tmp s)) (total_loss s) (train_score s) (nb_tr_examples s)
    (nb_tr_steps s).
Definition set_total_loss (f : Q -> Q) (s : St) : St :=
  mkSt (device s) (names s) (args s) (n_gpu s)
    (num_train_optimization_steps s) (param_groups s) (global_step s)
    (loss_tmp s) (f (total_loss s)) (train_score s) (nb_tr_examples s)
    (nb_tr_steps s).
Definition set_train_score (f : Q -> Q) (s : St) : St :=
  mkSt (device s) (names s) (args s) (n_gpu s)
    (num_train_optimization_steps s) (param_groups s) (global_step s)
    (loss_tmp s) (total_loss s) (f (train_score s)) (nb_tr_examples s)
    (nb_tr_steps s).
Definition set_nb_tr_examples (f : Z -> Z) (s : St) : St :=
  mkSt (device s) (names s) (args s) (n_gpu s)
    (num_train_optimization_steps s) (param_groups s) (global_step s)
    (loss_tmp s) (total_loss s) (train_score s) (f (nb_tr_examples s))
    (nb_tr_steps s).
Definition set_nb_tr_steps (f : Z -> Z) (s : St) : St :=
  mkSt (device s) (names s) (args s) (n_gpu s)
    (num_train_optimization_steps s) (param_groups s) (global_step s)
    (loss_tmp s) (total_loss s) (train_score s) (nb_tr_examples s)
    (f (nb_tr_steps s)).

(** ** The monad of [main]: state, the calls made so far, exceptions *)

Record Out (A : Type) : Type := mkOut {
  out_events : list (event X);
  out_state : St;
  out_res : result A;
}.
Arguments mkOut {A}.
Arguments out_events {A}.
Arguments out_state {A}.
Arguments out_res {A}.

Definition M (A : Type) : Type := St -> Out A.

Definition ret {A} (a : A) : M A := fun s => mkOut [] s (Ok a).

Definition raise {A} (e : exn) : M A := fun s => mkOut [] s (Raise e).

Definition bind {A B} (m : M A) (f : A -> M B) : M B := fun s =>
  match m s with
  | mkOut ev s1 (Ok a) =>
      match f a s1 with
      | mkOut ev' s2 r => mkOut (ev ++ ev') s2 r
      end
  | mkOut ev s1 (Raise e) => mkOut ev s1 (Raise e)
  end.

(** An outside call: it is recorded, and the device moves on. *)
Definition emit (e : event X) : M unit := fun s =>
  mkOut [e] (set_device (apply_event e) s) (Ok tt).

Definition get : M St := fun s => mkOut [] s (Ok s).

Definition modify (f : St -> St) : M unit := fun s => mkOut [] (f s) (Ok tt).

Definition lift {A} (r : result A) : M A := fun s => mkOut [] s r.

Declare Scope run_scope.
Delimit Scope run_scope with run.
Notation "x <~ m ;; k" := (bind m (fun x => k))
  (at level 100, m at next level, right associativity) : run_scope.
Notation "m ;; k" := (bind m (fun _ => k))
  (at level 100, right associativity) : run_scope.
Local Open Scope run_scope.

Definition when (b : bool) (m : M unit) : M unit := if b then m else ret tt.

(** [for a in l: body(a)] *)
Fixpoint for_each {A} (body : A -> M unit) (l : list A) : M unit :=
  match l with
  | [] => ret tt
  | a :: l' => body a ;; for_each body l'
  end.

(** [for i, a in enumerate(l, start): body(i, a)] *)
Fixpoint for_enumerate {A} (body : Z -> A -> M unit) (start : Z) (l : list A)
  : M unit :=
  match l with
  | [] => ret tt
  | a :: l' => body start a ;; for_enumerate body (start + 1) l'
  end.

(** Reading a local name: [NameError] when it was never bound.  (The
    module's own names are its imports, [logger], [main], [TBlogger] and the
    four helper functions; a name missing here is missing there too.) *)
Definition load (name : string) : M pyobj :=
  s <~ get ;;
  match names s !! name with
  | Some v => ret v
  | None => raise NameError
  end.

(** Binding a local name. *)
Definition store (name : string) (v : pyobj) : M unit :=
  modify (set_names (insert name v)).

(** Python's [a / b] on numbers. *)
Definition true_div (a b : Q) : result Q :=
  if Qeq_bool b 0 then Raise ZeroDivisionError else Ok (a / b)%Q.

(** Python's [a // b] on [int]s. *)
Definition floor_div (a b : Z) : result Z :=
  if b =? 0 then Raise ZeroDivisionError else Ok (a / b).

(** Python's [x / k] where the quotient is kept as a binary64 float and
    [k] is an [int]. *)
Definition float_true_div (x : Q) (k : Z) : result Q :=
  if k =? 0 then Raise ZeroDivisionError else float_div x k.

(** [int(q)]: truncation towards zero. *)
Definition py_int (q : Q) : Z :=
  if Qle_bool 0 q then Qfloor q else Qceiling q.

(** [for a in l: acc = body(acc, a)] *)
Fixpoint fold_for {A S} (body : S -> A -> M S) (acc : S) (l : list A)
  : M S :=
  match l with
  | [] => ret acc
  | a :: l' => acc' <~ body acc a ;; fold_for body acc' l'
  end.

(** [model(question, features, spatials, segment_ids, input_mask,
    image_mask)], with gradient tracking on or off. *)
Definition call_model (grad : bool) (b : Batch X) : M matrix :=
  s <~ get ;;
  let pred := model_forward (device s) b in
  emit (EForward grad b) ;;
  ret pred.

(** The model's outputs over the batches of an evaluation pass that starts
    with the device in state [w]. *)
Fixpoint eval_preds (w : W) (batches : list (Batch X)) : list matrix :=
  match batches with
  | [] => []
  | b :: batches' =>
      model_forward w b
      :: eval_preds (apply_event (EForward false b) w) batches'
  end.

(** ** [evaluate] (lines 529-545) *)

Definition evaluate_batch (acc : Q * Q * Z) (batch : Batch X)
  : M (Q * Q * Z) :=
  let '(score, upper_bound, num_data) := acc in
  (* with torch.no_grad(): *)
  pred <~ call_model false batch ;;
  scores <~ lift (compute_score_with_logits pred (target batch)) ;;
  let batch_score := msum scores in
  let score := (score + batch_score)%Q in
  mx <~ lift (torch_max1 (target batch)) ;;
  let upper_bound := (upper_bound + Qsum (map fst mx))%Q in
  let num_data := num_data + Z.of_nat (size0 pred) in
  ret (score, upper_bound, num_data).

(** With an empty dataset line 543 divides the integer 0 by zero and
    raises; line 544 is then reached with a non-zero length only. *)
Definition evaluate (pass : Z) (dataloader : DataLoader X) : M (Q * Q) :=
  acc <~ fold_for evaluate_batch (0%Q, 0%Q, 0)
           (iter_DataLoader pass dataloader) ;;
  let '(score, upper_bound, _) := acc in
  score <~ lift (true_div score (inject_Z (len_dataset dataloader))) ;;
  upper_bound <~
    lift (true_div upper_bound (inject_Z (len_dataset dataloader))) ;;
  ret (score, upper_bound).

(** ** The training loop (lines 409-518) *)

Definition startIterID : Z := 0.

(** Line 459: does micro-batch number [step] end a logical step? *)
Definition fires (K step : Z) : bool := (step + 1) mod K =? 0.

(** Lines 442-445: the loss handed to the backward pass.  [loss] is a
    0-dimensional tensor, so [loss.mean()] is [loss]. *)
Definition backward_loss (n_gpu K : Z) (loss : Q) : Q :=
  let loss := if n_gpu >? 1 then loss else loss in
  if K >? 1 then (loss / inject_Z K)%Q else loss.

(** Lines 460-467: the object held in [warmup_linear] is called on the
    progress of the run, and the product is written as the learning rate of
    every group.  The callee is looked up first, then its arguments are
    evaluated, then the call is made. *)
Definition update_learning_rate : M unit :=
  s <~ get ;;
  sched <~ load "warmup_linear" ;;
  x <~ lift (true_div (inject_Z (global_step s))
               (inject_Z (num_train_optimization_steps s))) ;;
  factor <~ lift (py_call sched [x; warmup_proportion (args s)]) ;;
  let lr_this_step := (learning_rate (args s) * factor)%Q in
  for_each
    (fun i =>
       emit (ESetLr i lr_this_step) ;;
       modify (set_param_groups (<[i := lr_this_step]>)))
    (seq 0 (length (param_groups s))).

(** The exception in which line 463 ends in state [s]. *)
Definition schedule_error (s : St) : exn :=
  match names s !! "warmup_linear" with
  | None => NameError
  | Some _ =>
      if num_train_optimization_steps s =? 0 then ZeroDivisionError
      else TypeError
  end.

(** Lines 459-473: the logical step. *)
Definition optimizer_update : M unit :=
  s <~ get ;;
  when (fp16 (args s)) update_learning_rate ;;
  emit (EClipGradNorm (25 # 100)) ;;
  emit EOptimizerStep ;;
  emit EZeroGrad ;;
  modify (set_global_step (fun g => g + 1)).

(** Lines 429-457: forward pass, loss and score, backward pass. *)
Definition forward_backward (iterId : Z) (batch : Batch X) : M unit :=
  pred <~ call_model true batch ;;
  loss <~ lift (instance_bce_with_logits bce_kernel pred (target batch)) ;;
  scores <~ lift (compute_score_with_logits pred (target batch)) ;;
  let batch_score := msum scores in
  modify (set_total_loss
            (fun t => t + loss * Qnat (length (features batch)))%Q) ;;
  modify (set_train_score (fun t => t + batch_score)%Q) ;;
  s <~ get ;;
  let K := gradient_accumulation_steps (args s) in
  let loss := backward_loss (n_gpu s) K loss in
  emit (EBackward (fp16 (args s)) loss) ;;
  emit (ELinePlot iterId loss) ;;
  modify (set_loss_tmp (fun t => t + loss)%Q) ;;
  modify (set_nb_tr_examples
            (fun n => n + Z.of_nat (length (question batch)))) ;;
  modify (set_nb_tr_steps (fun n => n + 1)).

(** Lines 477-497: the progress line, every 20 micro-batches. *)
Definition log_progress (iterId step : Z) : M unit :=
  when ((step mod 20 =? 0) && negb (step =? 0))
    (modify (set_loss_tmp (fun t => t / 20)%Q) ;;
     s <~ get ;;
     emit (EPrintProgress iterId (loss_tmp s)) ;;
     modify (set_loss_tmp (fun _ => 0%Q))).

(** Lines 428-497: the body of the loop over micro-batches. *)
Definition micro_batch (len_train_dataloader epochId step : Z)
    (batch : Batch X) : M unit :=
  let iterId := startIterID + step + epochId * len_train_dataloader in
  forward_backward iterId batch ;;
  s <~ get ;;
  when (fires (gradient_accumulation_steps (args s)) step) optimizer_update ;;
  log_progress iterId step.

(** Lines 427-497: one pass over the batches of an epoch. *)
Definition train_batches (len_train_dataloader epochId : Z)
    (batches : list (Batch X)) : M unit :=
  for_enumerate (micro_batch len_train_dataloader epochId) 0 batches.

(** The file written at the end of epoch [epochId] (line 516). *)
Definition output_model_file (savePath : string) (epochId : Z) : string :=
  path_join savePath ("pytorch_model_" +:+ pretty epochId +:+ ".bin").

(** Lines 419-518: one epoch. *)
Definition train_epoch (train_dataloader eval_dataloader : DataLoader X)
    (savePath : string) (epochId : Z) : M unit :=
  modify (set_total_loss (fun _ => 0%Q)) ;;
  modify (set_nb_tr_examples (fun _ => 0)) ;;
  modify (set_nb_tr_steps (fun _ => 0)) ;;
  modify (set_train_score (fun _ => 0%Q)) ;;
  emit EZeroGrad ;;
  train_batches (len_DataLoader train_dataloader) epochId
    (iter_DataLoader epochId train_dataloader) ;;
  s <~ get ;;
  ts <~ lift (true_div (100 * train_score s)
                (inject_Z (len_dataset train_dataloader))) ;;
  modify (set_train_score (fun _ => ts)) ;;
  emit (EModelTrain false) ;;
  ev <~ evaluate epochId eval_dataloader ;;
  let '(eval_score, bound) := ev in
  emit (EModelTrain true) ;;
  s <~ get ;;
  emit (ELogEpoch epochId (total_loss s) (train_score s)
          (100 * eval_score) (100 * bound))%Q ;;
  s <~ get ;;
  when (negb (path_exists (device s) savePath)) (emit (EMakedirs savePath)) ;;
  when (do_train (args s))
    (emit (ESave (output_model_file savePath epochId))).

(** ** [main] (lines 52-518) *)

(** Lines 254-275: the logger, the tokenizer, the feature reader and the
    two datasets.  The arguments of a call are evaluated left to right,
    before the call. *)
Definition load_datasets (timeStamp : string) : M (Dataset X * Dataset X) :=
  s <~ get ;;
  let a := args s in
  emit (ENewTBlogger ("logs/" +:+ timeStamp)) ;;
  store "viz" (TBlogger ("logs/" +:+ timeStamp)) ;;
  emit (ELoadTokenizer (bert_model a)) ;;
  store "tokenizer" (BertTokenizer (bert_model a)) ;;
  emit (EOpenFeatures (features_h5path a)) ;;
  store "image_features_reader"
    (ImageFeaturesH5Reader (features_h5path a) true) ;;
  if String.eqb (split a) "train" then
    reader <~ load "image_features_reader_train" ;;
    tok <~ load "tokenizer" ;;
    emit (ENewDataset "train") ;;
    let train_dset := VQAClassificationDataset "train" reader tok in
    reader <~ load "image_features_reader" ;;
    tok <~ load "tokenizer" ;;
    emit (ENewDataset "val") ;;
    let eval_dset := VQAClassificationDataset "val" reader tok in
    ret (train_dset, eval_dset)
  else if String.eqb (split a) "trainval" then
    reader <~ load "image_features_reader_train" ;;
    tok <~ load "tokenizer" ;;
    emit (ENewDataset "trainval") ;;
    let train_dset := VQAClassificationDataset "trainval" reader tok in
    reader <~ load "image_features_reader" ;;
    tok <~ load "tokenizer" ;;
    emit (ENewDataset "minval") ;;
    let eval_dset := VQAClassificationDataset "minval" reader tok in
    ret (train_dset, eval_dset)
  else raise AssertionError.

(** Lines 280-287.  The two divisions of line 281 are made in floating
    point and the quotient is truncated; in a distributed run the product
    is assigned first and then divided by the size of the process group. *)
Definition plan_steps (train_dset : Dataset X) : M unit :=
  s <~ get ;;
  let a := args s in
  per_batch <~ lift (float_true_div (Qnat (length (examples train_dset)))
                       (train_batch_size a)) ;;
  per_step <~ lift (float_true_div per_batch
                      (gradient_accumulation_steps a)) ;;
  modify (set_num_train_optimization_steps
            (py_int per_step * num_train_epochs a)) ;;
  when (negb (local_rank a =? -1))
    (s <~ get ;;
     size <~ lift (get_world_size (device s)) ;;
     n <~ lift (floor_div (num_train_optimization_steps s) size) ;;
     modify (set_num_train_optimization_steps n)).

(** Lines 290-313. *)
Definition build_model (train_dset : Dataset X) : M unit :=
  s <~ get ;;
  let a := args s in
  let num_labels := num_ans_candidates train_dset in
  emit (ELoadModel
          (if from_pretrained a then pretrained_weight a else bert_model a)
          num_labels) ;;
  when (fp16 a) (emit EModelHalf) ;;
  (if negb (local_rank a =? -1) then emit EWrapDDP
   else when (n_gpu s >? 1) (emit EWrapDataParallel)) ;;
  emit EModelCuda.

(** Lines 316-382: the parameter groups and the optimizer.  The schedule
    is bound to [warmup_linear] on the static loss scale branch only.  An
    optimizer refuses an empty list of groups. *)
Definition build_optimizer (env : Env) : M unit :=
  s <~ get ;;
  let a := args s in
  groups <~
    (if from_pretrained a then
       emit (ELoadConfig "config/bert_weight_name.json") ;;
       ret (trainable_parameters env)
     else ret 2%nat) ;;
  (if fp16 a then
     (if (groups =? 0)%nat then raise ValueError
      else emit (ENewFusedAdam groups)) ;;
     if Qeq_bool (loss_scale a) 0 then emit (ENewFP16Optimizer true)
     else
       emit (ENewFP16Optimizer false) ;;
       store "warmup_linear"
         (WarmupLinearSchedule (warmup_proportion a)
            (num_train_optimization_steps s))
   else
     if (groups =? 0)%nat then raise ValueError
     else emit (ENewBertAdam groups)) ;;
  modify (set_param_groups (fun _ => replicate groups (learning_rate a))).

(** Lines 387-518. *)
Definition train (train_dset eval_dset : Dataset X) (savePath : string)
  : M unit :=
  s <~ get ;;
  let a := args s in
  train_dataloader <~
    lift (new_DataLoader train_dset true (train_batch_size a)) ;;
  eval_dataloader <~
    lift (new_DataLoader eval_dset false (train_batch_size a)) ;;
  modify (set_global_step (fun _ => 0)) ;;
  modify (set_loss_tmp (fun _ => 0%Q)) ;;
  emit (EModelTrain true) ;;
  for_each (train_epoch train_dataloader eval_dataloader savePath)
    (seqZ 0 (num_train_epochs a)).

(** Lines 224-229. *)
Definition check_gradient_accumulation_steps : M unit :=
  s <~ get ;;
  if gradient_accumulation_steps (args s) <? 1 then raise ValueError
  else ret tt.

(** Lines 239-242. *)
Definition check_do_train : M unit :=
  s <~ get ;;
  if negb (do_train (args s)) then raise ValueError else ret tt.

(** Lines 192-197: the name of the run and its directory.
    [args.save_name is not ''] is read as a comparison of strings. *)
Definition time_stamp (env : Env) (a : Args) : string :=
  if String.eqb (save_name a) "" then fresh_time_stamp env else save_name a.

Definition save_path (env : Env) (a : Args) : string :=
  path_join (output_dir a) (time_stamp env a).

(** Lines 184-222: the run directory, the configuration, the device. *)
Definition startup (env : Env) : M (string * string) :=
  s <~ get ;;
  let a := args s in
  let timeStamp := time_stamp env a in
  let savePath := save_path env a in
  when (negb (path_exists (device s) savePath)) (emit (EMakedirs savePath)) ;;
  emit (ELoadConfig (config_file a)) ;;
  emit (EWriteCommand (path_join savePath "command.txt")) ;;
  (if (local_rank a =? -1) || no_cuda a then
     modify (set_n_gpu (cuda_device_count env))
   else
     emit (ESetDevice (local_rank a)) ;;
     modify (set_n_gpu 1) ;;
     emit EInitProcessGroup) ;;
  ret (timeStamp, savePath).

(** The calls of lines 184-222, when the world is [w] at the start. *)
Definition startup_calls (env : Env) (a : Args) (w : W) : list (event X) :=
  let savePath := save_path env a in
  (if path_exists w savePath then [] else [EMakedirs savePath])
  ++ [ELoadConfig (config_file a);
      EWriteCommand (path_join savePath "command.txt")]
  ++ (if (local_rank a =? -1) || no_cuda a then []
      else [ESetDevice (local_rank a); EInitProcessGroup]).

Definition main (env : Env) : M unit :=
  paths <~ startup env ;;
  let '(timeStamp, savePath) := paths in
  check_gradient_accumulation_steps ;;
  modify (set_args (fun a =>
            set_train_batch_size
              (train_batch_size a / gradient_accumulation_steps a) a)) ;;
  check_do_train ;;
  s <~ get ;;
  when (negb (path_exists (device s) (output_dir (args s))))
    (emit (EMakedirs (output_dir (args s)))) ;;
  dsets <~ load_datasets timeStamp ;;
  let '(train_dset, eval_dset) := dsets in
  plan_steps train_dset ;;
  build_model train_dset ;;
  build_optimizer env ;;
  train train_dset eval_dset savePath.

(** [main] started on command line [a], with the device in state [w]. *)
Definition run_main (env : Env) (a : Args) (w : W) : Out unit :=
  main env (initial_state a w).

(** ** Reading a list of calls *)

Definition is_optimizer_step (e : event X) : bool :=
  match e with EOptimizerStep => true | _ => false end.

Definition is_set_lr (e : event X) : bool :=
  match e with ESetLr _ _ => true | _ => false end.

Definition is_backward (e : event X) : bool :=
  match e with EBackward _ _ => true | _ => false end.

(** The calls of the training loop proper: forward and backward passes,
    optimizer steps, learning rate writes. *)
Definition is_training_call (e : event X) : bool :=
  match e with
  | EForward _ _ | EBackward _ _ | ESetLr _ _ | EClipGradNorm _
  | EOptimizerStep | EZeroGrad | EModelTrain _ => true
  | _ => false
  end.

(** The construction of the datasets, the model and the optimizer. *)
Definition is_construction (e : event X) : bool :=
  match e with
  | ENewDataset _ | ELoadModel _ _ | EModelHalf | EWrapDDP
  | EWrapDataParallel | EModelCuda | ENewFusedAdam _ | ENewFP16Optimizer _
  | ENewBertAdam _ => true
  | _ => false
  end.

Definition count_events (p : event X -> bool) (l : list (event X)) : nat :=
  length (List.filter p l).

(** Two states agree on what steers the loop: the arguments, the device
    count, the planned number of steps and the bound names. *)
Definition same_control (s s' : St) : Prop :=
  args s' = args s /\
  n_gpu s' = n_gpu s /\
  num_train_optimization_steps s' = num_train_optimization_steps s /\
  names s' = names s.

(** A computation that moves [global_step] by the number of optimizer steps
    it makes, and leaves alone what steers the loop. *)
Definition steps_counted {A} (m : M A) : Prop :=
  forall s : St,
    same_control s (out_state (m s)) /\
    global_step (out_state (m s))
    = global_step s
      + Z.of_nat (count_events is_optimizer_step (out_events (m s))).

(** What IEEE 754 and Python give for [x / k] when [k] is an [int] of at
    most 53 bits and the quotient is below [2^53]: a float, the nearest one
    to the exact quotient, so that no integer of at most 53 bits is nearer,
    and, when the quotient is in the normal range, within one part in
    [2^53] of it. *)
Definition binary64_division (fdiv : Q -> Z -> result Q) : Prop :=
  forall (x : Q) (k : Z),
    (0 <= x)%Q -> 0 < k <= 2 ^ 53 -> (x / inject_Z k < inject_Z (2 ^ 53))%Q ->
    exists q : Q,
      fdiv x k = Ok q /\
      (forall r : Z,
          0 <= r <= 2 ^ 53 ->
          (Qabs (q - x / inject_Z k)
           <= Qabs (inject_Z r - x / inject_Z k))%Q) /\
      ((1 # 2 ^ 1022 <= x / inject_Z k)%Q ->
       (Qabs (q - x / inject_Z k) <= x / inject_Z k * (1 # 2 ^ 53))%Q).

(** ** More vocabulary for the statements *)

(** The three calls that make a logical step: clipping, the optimizer step,
    the clearing of the gradients. *)
Definition is_update_call (e : event X) : bool :=
  match e with
  | EClipGradNorm _ | EOptimizerStep | EZeroGrad => true
  | _ => false
  end.

Definition is_no_grad_forward (e : event X) : bool :=
  match e with EForward false _ => true | _ => false end.

Definition is_progress_line (e : event X) : bool :=
  match e with EPrintProgress _ _ => true | _ => false end.

(** [s'] differs from [s] in the device at most. *)
Definition same_but_device (s s' : St) : Prop :=
  s' = set_device (fun _ => device s') s.

(** The sums and counts of the epoch are the same in two states. *)
Definition same_tallies (s s' : St) : Prop :=
  total_loss s' = total_loss s /\
  train_score s' = train_score s /\
  nb_tr_examples s' = nb_tr_examples s /\
  nb_tr_steps s' = nb_tr_steps s.

(** A computation all of whose calls satisfy [P] and whose final state is
    related to its first one by [R], however it ends. *)
Definition confined {A} (P : event X -> bool) (R : St -> St -> Prop)
    (m : M A) : Prop :=
  forall s : St, forallb P (out_events (m s)) = true /\ R s (out_state (m s)).

Definition is_save (e : event X) : bool :=
  match e with ESave _ => true | _ => false end.

(** The arguments of the run are the same in two states. *)
Definition same_args (s s' : St) : Prop := args s' = args s.

(** Run from [s], the computation makes calls that satisfy [P] only, except
    that it ends, when it returns, with the calls [tail]. *)
Definition closes_with {A} (P : event X -> bool) (tail : list (event X))
    (m : M A) (s : St) : Prop :=
  match out_res (m s) with
  | Ok _ =>
      exists ev, out_events (m s) = ev ++ tail /\ forallb P ev = true
  | Raise _ => forallb P (out_events (m s)) = true
  end.

(** The calls that carry a loss: the backward pass and the progress
    line. *)
Definition is_loss_call (e : event X) : bool :=
  match e with EBackward _ _ | EPrintProgress _ _ => true | _ => false end.

Definition same_loss_tmp (s s' : St) : Prop := loss_tmp s' = loss_tmp s.

(** Reading a list of calls from a running sum [acc]: a backward pass adds
    its loss to the sum, a progress line reports the sum over 20 and clears
    it; [final] is the sum left at the end. *)
Fixpoint windows (acc : Q) (l : list (event X)) (final : Q) : Prop :=
  match l with
  | [] => final = acc
  | EBackward _ v :: l' => windows (acc + v)%Q l' final
  | EPrintProgress _ v :: l' => v = (acc / 20)%Q /\ windows 0%Q l' final
  | _ :: l' => windows acc l' final
  end.

(** A computation whose calls read as such windows, from the logging sum
    of its first state to that of its last. *)
Definition windowed {A} (m : M A) : Prop :=
  forall s : St,
    windows (loss_tmp s) (out_events (m s)) (loss_tmp (out_state (m s))).

End Program.

Arguments St : clear implicits.
Arguments Out : clear implicits.
Arguments M : clear implicits.
Arguments mkOut {X W A}.
Arguments out_events {X W A}.
Arguments out_state {X W A}.
Arguments out_res {X W A}.

(** ** A small run, to check the statements on concrete data

    Inputs carry no data ([unit]), the world has one state in which no
    path exists and no process group was initialised, the model answers
    every example with the logits [0.1, 0.9, 0.2], and quotients are
    exact. *)

Definition sample_example : Example unit :=
  mkExample tt tt tt tt [0; 1; 0]%Q tt tt tt.

Definition sample_batch : Batch unit := collate [sample_example].

Definition sample_dataset : Dataset unit :=
  mkDataset [sample_example; sample_example; sample_example] 3.

Definition sample_externals : Externals unit unit := {|
  sampler := fun _ l => l;
  apply_event := fun _ w => w;
  model_forward :=
    fun _ b => map (fun _ => [1 # 10; 9 # 10; 2 # 10]%Q) (target b);
  bce_kernel := fun x y => ((x - y) * (x - y))%Q;
  VQAClassificationDataset := fun _ _ _ => sample_dataset;
  path_exists := fun _ _ => false;
  get_world_size := fun _ => Raise RuntimeError;
  float_div := fun x k => Ok (x / inject_Z k)%Q;
|}.

Definition sample_env : Env := mkEnv false 0 2 "04-Nov-26-12:00:00-Wed".

(** [--do_train --gradient_accumulation_steps K --loss_scale scale], with
    [--fp16] when [half] is set. *)
Definition sample_args (K : Z) (half : bool) (scale : Q) : Args :=
  mkArgs (features_h5path default_args) (bert_model default_args)
    (pretrained_weight default_args) (output_dir default_args)
    (config_file default_args) true (train_batch_size default_args)
    (learning_rate default_args) (num_train_epochs default_args)
    (warmup_proportion default_args) (no_cuda default_args)
    (local_rank default_args) K half scale
    (from_pretrained default_args) (save_name default_args)
    (baseline default_args) (split default_args).

(** [--do_train --split sp] *)
Definition sample_args_split (sp : string) : Args :=
  mkArgs (features_h5path default_args) (bert_model default_args)
    (pretrained_weight default_args) (output_dir default_args)
    (config_file default_args) true (train_batch_size default_args)
    (learning_rate default_args) (num_train_epochs default_args)
    (warmup_proportion default_args) (no_cuda default_args)
    (local_rank default_args) 1 false 0
    (from_pretrained default_args) (save_name default_args)
    (baseline default_args) sp.

(** The state in which the training loop starts when ten steps are planned:
    the one that [build_optimizer] leaves. *)
Definition sample_state (K : Z) (half : bool) (scale : Q) : St unit :=
  out_state
    (@build_optimizer unit unit sample_externals sample_env
       (set_num_train_optimization_steps 10
          (initial_state (sample_args K half scale) tt))).

Definition sample_loader : DataLoader unit :=
  mkDataLoader sample_dataset false 2.

(** * Proofs *)

(** ** Sums of rationals *)

Lemma Qsum_app (l1 l2 : list Q) : (Qsum (l1 ++ l2) == Qsum l1 + Qsum l2)%Q.
Proof.
  induction l1 as [|x l1 IH]; simpl.
  - ring.
  - rewrite IH. ring.
Qed.

Lemma Qsum_zero_row (row : list Q) :
  (Qsum (zip_with Qmult (map (fun _ => 0%Q) row) row) == 0)%Q.
Proof.
  induction row as [|x row IH]; simpl.
  - reflexivity.
  - rewrite IH. ring.
Qed.

(** A one-hot row times a row of weights sums to the weight it selects. *)
Lemma Qsum_one_hot (row : list Q) (k : nat) :
  (k < length row)%nat ->
  (Qsum (zip_with Qmult (<[k := 1%Q]> (map (fun _ => 0%Q) row)) row)
   == nth k row 0)%Q.
Proof.
  revert k. induction row as [|x row IH]; intros k Hk; simpl in Hk.
  - lia.
  - destruct k as [|k]; simpl.
    + rewrite Qsum_zero_row. ring.
    + rewrite IH by lia. ring.
Qed.

(** ** Shapes *)

Lemma same_shape_refl (a : matrix) : same_shape a a = true.
Proof.
  induction a as [|r a IH]; simpl; [reflexivity|].
  rewrite Nat.eqb_refl. exact IH.
Qed.

Lemma same_shape_length (a b : matrix) :
  same_shape a b = true -> length a = length b.
Proof.
  revert b. induction a as [|ra a IH]; intros [|rb b] H; simpl in *;
    try discriminate; [reflexivity|].
  apply andb_true_iff in H as [_ H]. f_equal. auto.
Qed.

Lemma same_shape_concat_length (a b : matrix) :
  same_shape a b = true -> length (concat a) = length (concat b).
Proof.
  revert b. induction a as [|ra a IH]; intros [|rb b] H; simpl in *;
    try discriminate; [reflexivity|].
  apply andb_true_iff in H as [Hr H]. apply Nat.eqb_eq in Hr.
  rewrite !length_app. rewrite Hr. f_equal. auto.
Qed.

Lemma same_shape_lookup (a b : matrix) (i : nat) (ra rb : list Q) :
  same_shape a b = true -> a !! i = Some ra -> b !! i = Some rb ->
  length ra = length rb.
Proof.
  revert b i. induction a as [|xa a IH]; intros [|xb b] i H Ha Hb;
    simpl in *; try discriminate.
  apply andb_true_iff in H as [Hr H]. apply Nat.eqb_eq in Hr.
  destruct i as [|i]; simpl in *.
  - congruence.
  - eauto.
Qed.

(** ** The row maximum *)

Lemma Qlt_bool_false (a b : Q) : Qlt_bool a b = false -> (b <= a)%Q.
Proof.
  unfold Qlt_bool. intros H. apply negb_false_iff in H.
  now apply Qle_bool_iff.
Qed.

Lemma Qlt_bool_true (a b : Q) : Qlt_bool a b = true -> (a < b)%Q.
Proof.
  unfold Qlt_bool. intros H. apply negb_true_iff in H.
  apply Qnot_le_lt. intros Hle. apply Qle_bool_iff in Hle. congruence.
Qed.

(** [max_from] scans [l], whose first entry has index [i], keeping the best
    entry seen so far and its index. *)
Lemma max_from_spec (pre l : list Q) (bi : nat) (b : Q) :
  pre !! bi = Some b ->
  Forall (fun x => (x <= b)%Q) pre ->
  let '(v, k) := max_from bi b (length pre) l in
  (pre ++ l) !! k = Some v /\ Forall (fun x => (x <= v)%Q) (pre ++ l).
Proof.
  revert pre bi b. induction l as [|x l IH]; intros pre bi b Hb Hall; simpl.
  - rewrite app_nil_r. auto.
  - destruct (Qlt_bool b x) eqn:Hc.
    + apply Qlt_bool_true in Hc.
      specialize (IH (pre ++ [x]) (length pre) x).
      rewrite length_app, Nat.add_1_r in IH. simpl in IH.
      rewrite <- app_assoc in IH. simpl in IH. apply IH.
      * rewrite lookup_app_r by lia. now rewrite Nat.sub_diag.
      * apply Forall_app. split.
        -- eapply Forall_impl; [exact Hall|]. simpl. intros y Hy.
           apply Qlt_le_weak in Hc. now apply Qle_trans with b.
        -- constructor; [apply Qle_refl | constructor].
    + apply Qlt_bool_false in Hc.
      specialize (IH (pre ++ [x]) bi b).
      rewrite length_app, Nat.add_1_r in IH. simpl in IH.
      rewrite <- app_assoc in IH. simpl in IH. apply IH.
      * rewrite lookup_app_l; [exact Hb|]. now apply lookup_lt_Some in Hb.
      * apply Forall_app. split; [exact Hall|].
        constructor; [exact Hc | constructor].
Qed.

Lemma row_max_spec (row : list Q) (v : Q) (k : nat) :
  row_max row = Ok (v, k) ->
  row !! k = Some v /\ Forall (fun x => (x <= v)%Q) row.
Proof.
  destruct row as [|x l]; simpl; [discriminate|]. intros H.
  pose proof (max_from_spec [x] l 0 x eq_refl) as S. simpl in S.
  assert (Hx : Forall (fun y => (y <= x)%Q) [x])
    by (constructor; [apply Qle_refl | constructor]).
  specialize (S Hx). destruct (max_from 0 x 1 l) as [v' k'].
  inversion H; subst. exact S.
Qed.

Lemma row_max_nonempty (row : list Q) :
  row <> [] -> exists v k, row_max row = Ok (v, k).
Proof.
  destruct row as [|x l]; [congruence|]. intros _. simpl.
  destruct (max_from 0 x 1 l) as [v k]. eauto.
Qed.

(** ** [compute_score_with_logits] *)

Lemma torch_max1_ok (m : matrix) :
  Forall (fun r => r <> []) m ->
  exists mx, torch_max1 m = Ok mx /\
             Forall2 (fun r vk => row_max r = Ok vk) m mx.
Proof.
  unfold torch_max1. induction 1 as [|r m Hr _ IH]; simpl.
  - exists []. split; [reflexivity | constructor].
  - destruct (row_max_nonempty r Hr) as (v & k & Hvk).
    destruct IH as (mx & Hmx & Hall).
    exists ((v, k) :: mx). rewrite Hvk. simpl. rewrite Hmx. simpl.
    split; [reflexivity | now constructor].
Qed.

Lemma scatter_1_zeros (labels : matrix) (idx : list nat) :
  Forall2 (fun k trow => (k < length trow)%nat) idx labels ->
  scatter_1 (zeros_like labels) idx = Ok (zip_with one_hot_row idx labels).
Proof.
  induction 1 as [|k trow idx labels Hk _ IH]; simpl.
  - reflexivity.
  - rewrite length_map.
    destruct (Nat.ltb_spec k (length trow)) as [_|]; [|lia].
    fold (zeros_like labels). rewrite IH. reflexivity.
Qed.

Lemma same_shape_one_hot (labels : matrix) (idx : list nat) :
  length idx = length labels ->
  same_shape (zip_with one_hot_row idx labels) labels = true.
Proof.
  revert idx. induction labels as [|trow labels IH]; intros [|k idx] Hl;
    simpl in *; try discriminate; [reflexivity|].
  unfold one_hot_row at 1. rewrite length_insert, length_map, Nat.eqb_refl.
  simpl. apply IH. lia.
Qed.

Lemma compute_score_with_logits_rows (logits labels : matrix) :
  same_shape logits labels = true ->
  Forall (fun r => r <> []) logits ->
  exists mx,
    Forall2 (fun r vk => row_max r = Ok vk) logits mx /\
    compute_score_with_logits logits labels =
      Ok (zip_with (zip_with Qmult)
            (zip_with one_hot_row (map snd mx) labels) labels).
Proof.
  intros Hsh Hne.
  destruct (torch_max1_ok logits Hne) as (mx & Hmx & Hall).
  exists mx. split; [exact Hall|].
  unfold compute_score_with_logits. rewrite Hmx. simpl.
  assert (Hidx : Forall2 (fun k trow => (k < length trow)%nat)
                   (map snd mx) labels).
  { clear Hmx Hne. revert labels Hsh.
    induction Hall as [|r [v k] logits mx Hr _ IH]; intros [|trow labels] Hsh;
      simpl in *; try discriminate; constructor.
    - apply andb_true_iff in Hsh as [Hlen _]. apply Nat.eqb_eq in Hlen.
      apply row_max_spec in Hr as [Hk _]. apply lookup_lt_Some in Hk.
      simpl. lia.
    - apply andb_true_iff in Hsh as [_ Hsh]. auto. }
  rewrite (scatter_1_zeros _ _ Hidx). simpl.
  unfold mmul. rewrite same_shape_one_hot; [reflexivity|].
  now apply Forall2_length in Hidx.
Qed.

(** C7. With logits and labels of one shape and no empty row,
    [compute_score_with_logits] returns one row of scores per example, and
    the scores of an example sum to the target weight at the position of the
    largest logit of that example.  For target weights [0,1,0] the score is 1
    on logits [0.1, 0.9, 0.2] and 0 on logits [0.9, 0.1, 0.2]. *)
Theorem compute_score_with_logits_argmax :
  (forall logits labels : matrix,
      same_shape logits labels = true ->
      Forall (fun r => r <> []) logits ->
      exists scores,
        compute_score_with_logits logits labels = Ok scores /\
        length scores = length logits /\
        forall (i : nat) (lrow trow : list Q),
          logits !! i = Some lrow -> labels !! i = Some trow ->
          exists (srow : list Q) (v : Q) (k : nat),
            scores !! i = Some srow /\
            row_max lrow = Ok (v, k) /\
            lrow !! k = Some v /\
            Forall (fun x => (x <= v)%Q) lrow /\
            (Qsum srow == nth k trow 0)%Q) /\
  (exists scores,
      compute_score_with_logits [[1 # 10; 9 # 10; 2 # 10]] [[0; 1; 0]]%Q
      = Ok scores /\ (msum scores == 1)%Q) /\
  (exists scores,
      compute_score_with_logits [[9 # 10; 1 # 10; 2 # 10]] [[0; 1; 0]]%Q
      = Ok scores /\ (msum scores == 0)%Q).
Proof.
  split; [|split].
  - intros logits labels Hsh Hne.
    destruct (compute_score_with_logits_rows logits labels Hsh Hne)
      as (mx & Hall & Hrun).
    eexists. split; [exact Hrun|].
    pose proof (Forall2_length _ _ _ Hall) as Hlen.
    pose proof (same_shape_length _ _ Hsh) as Hlen'.
    split.
    { rewrite !length_zip_with, length_map. lia. }
    intros i lrow trow Hl Ht.
    destruct (Forall2_lookup_l _ _ _ _ _ Hall Hl) as ([v k] & Hmx & Hrow).
    exists (zip_with Qmult (one_hot_row k trow) trow), v, k.
    destruct (row_max_spec _ _ _ Hrow) as [Hk Hmax].
    split; [|split; [exact Hrow|split; [exact Hk|split; [exact Hmax|]]]].
    + apply lookup_zip_with_Some. exists (one_hot_row k trow), trow.
      split; [reflexivity|]. split; [|exact Ht].
      apply lookup_zip_with_Some. exists k, trow.
      split; [reflexivity|]. split; [|exact Ht].
      change (map snd mx) with (snd <$> mx).
      rewrite list_lookup_fmap, Hmx. reflexivity.
    + apply Qsum_one_hot. apply lookup_lt_Some in Hk.
      rewrite <- (same_shape_lookup _ _ _ _ _ Hsh Hl Ht). exact Hk.
  - eexists. split; [vm_compute; reflexivity | reflexivity].
  - eexists. split; [vm_compute; reflexivity | reflexivity].
Qed.

(** C6. For logits and labels of one shape, [instance_bce_with_logits]
    returns the sum of the elementwise cross-entropy terms divided by the
    number of elements (their mean), times the width of the label matrix;
    with shapes that differ it raises. *)
Theorem instance_bce_with_logits_scaled_mean
    (kernel : Q -> Q -> Q) (logits labels : matrix) :
  (same_shape logits labels = true ->
   instance_bce_with_logits kernel logits labels =
     Ok (Qsum (zip_with kernel (concat logits) (concat labels))
         / Qnat (length (concat labels)) * Qnat (size1 labels))%Q) /\
  (same_shape logits labels = false ->
   instance_bce_with_logits kernel logits labels = Raise ValueError).
Proof.
  unfold instance_bce_with_logits, binary_cross_entropy_with_logits.
  split; intros H; rewrite H; simpl; [|reflexivity].
  unfold tensor_mean. rewrite length_zip_with.
  rewrite (same_shape_concat_length _ _ H), Nat.min_id. reflexivity.
Qed.

(** ** The milestone schedule *)

Lemma milestones_passed_none (a : list Z) (x : Z) :
  (forall (i : nat) (y : Z), a !! i = Some y -> x < y) ->
  milestones_passed a x = 0%nat.
Proof.
  unfold milestones_passed. induction a as [|y a IH]; intros H.
  - reflexivity.
  - rewrite filter_cons. destruct (decide (y <= x)) as [Hy|_].
    + specialize (H 0%nat y eq_refl). lia.
    + apply IH. intros i z Hz. apply (H (S i) z Hz).
Qed.

Lemma milestones_passed_split (a : list Z) (x : Z) (r : nat) :
  (r <= length a)%nat ->
  (forall (i : nat) (y : Z), (i < r)%nat -> a !! i = Some y -> y <= x) ->
  (forall (i : nat) (y : Z), (r <= i)%nat -> a !! i = Some y -> x < y) ->
  milestones_passed a x = r.
Proof.
  revert r. induction a as [|y a IH]; intros r Hr Hlo Hhi; simpl in Hr.
  - assert (r = 0%nat) by lia. subst. reflexivity.
  - destruct r as [|r].
    + apply milestones_passed_none. intros i z. apply Hhi. lia.
    + unfold milestones_passed. rewrite filter_cons.
      destruct (decide (y <= x)) as [_|Hy].
      * simpl. f_equal. apply IH; [lia| |].
        -- intros i z Hi. apply (Hlo (S i)). lia.
        -- intros i z Hi. apply (Hhi (S i)). lia.
      * exfalso. apply Hy. apply (Hlo 0%nat); [lia | reflexivity].
Qed.

Lemma bisect_loop_S (fuel : nat) (a : list Z) (x : Z) (lo hi : nat) :
  bisect_loop (S fuel) a x lo hi =
  if (lo <? hi)%nat then
    match a !! ((lo + hi) / 2)%nat with
    | Some am =>
        if x <? am then bisect_loop fuel a x lo ((lo + hi) / 2)%nat
        else bisect_loop fuel a x (S ((lo + hi) / 2)%nat) hi
    | None => lo
    end
  else lo.
Proof. reflexivity. Qed.

Lemma bisect_loop_spec (fuel : nat) (a : list Z) (x : Z) (lo hi : nat) :
  ascending a ->
  (hi <= length a)%nat -> (lo <= hi)%nat -> (hi - lo <= fuel)%nat ->
  (forall (i : nat) (y : Z), (i < lo)%nat -> a !! i = Some y -> y <= x) ->
  (forall (i : nat) (y : Z), (hi <= i)%nat -> a !! i = Some y -> x < y) ->
  let r := bisect_loop fuel a x lo hi in
  (r <= length a)%nat /\
  (forall (i : nat) (y : Z), (i < r)%nat -> a !! i = Some y -> y <= x) /\
  (forall (i : nat) (y : Z), (r <= i)%nat -> a !! i = Some y -> x < y).
Proof.
  intros Hasc. revert lo hi.
  induction fuel as [|fuel IH]; intros lo hi Hhi Hle Hfuel Hlo Hup.
  - simpl. assert (lo = hi) by lia. subst. repeat split; auto; lia.
  - rewrite bisect_loop_S. cbv zeta.
    destruct (Nat.ltb_spec lo hi) as [Hlt|Hge].
    + pose proof (Nat.div_mod_eq (lo + hi) 2) as Hdiv.
      pose proof (Nat.mod_upper_bound (lo + hi) 2 ltac:(lia)) as Hmod.
      set (mid := ((lo + hi) / 2)%nat) in *.
      assert (Hmid : (lo <= mid < hi)%nat) by lia.
      destruct (a !! mid) as [am|] eqn:Ham.
      * destruct (Z.ltb_spec x am) as [Hx|Hx].
        -- apply IH; try lia; [exact Hlo|].
           intros i y Hi Hy. pose proof (Hasc mid i am y Hi Ham Hy). lia.
        -- apply IH; try lia; [|exact Hup].
           intros i y Hi Hy.
           assert (Hi' : (i <= mid)%nat) by lia.
           pose proof (Hasc i mid y am Hi' Hy Ham). lia.
      * apply lookup_ge_None in Ham. lia.
    + assert (lo = hi) by lia. subst. repeat split; auto; lia.
Qed.

(** On an ascending list, [bisect] counts the entries less than or equal to
    [x]: an iteration landing on a milestone has passed it. *)
Lemma bisect_ascending (a : list Z) (x : Z) :
  ascending a -> bisect a x = milestones_passed a x.
Proof.
  intros Hasc. unfold bisect.
  destruct (bisect_loop_spec (length a) a x 0 (length a) Hasc)
    as (Hr & Hlo & Hhi); try lia.
  - intros i y Hi Hy. apply lookup_lt_Some in Hy. lia.
  - symmetry. now apply milestones_passed_split.
Qed.

Lemma lr_steps_ascending : ascending lr_steps.
Proof.
  intros i j x y Hij Hi Hj. unfold lr_steps in *.
  destruct i as [|[|[|[|i]]]]; simpl in Hi; try discriminate;
    destruct j as [|[|[|[|j]]]]; simpl in Hj; try discriminate;
    inversion Hi; inversion Hj; subst; lia.
Qed.

(** Past the warm-up the schedule of the code is constant. *)
Lemma lr_lambda_update_post_warmup (i_iter : Z) :
  warmup_iterations < i_iter -> lr_lambda_update i_iter = 1%Q.
Proof.
  intros H. unfold lr_lambda_update.
  destruct (Z.leb_spec i_iter warmup_iterations) as [Hle|_]; [lia|].
  reflexivity.
Qed.

(** With the search made in [lr_steps], the multiplier is the ratio raised
    to the number of milestones passed. *)
Lemma lr_lambda_milestones_post_warmup (i_iter : Z) :
  warmup_iterations < i_iter ->
  lr_lambda_milestones i_iter
  = (lr_ratio ^ Z.of_nat (milestones_passed lr_steps i_iter))%Q.
Proof.
  intros H. unfold lr_lambda_milestones.
  destruct (Z.leb_spec i_iter warmup_iterations) as [Hle|_]; [lia|].
  simpl. now rewrite (bisect_ascending _ _ lr_steps_ascending).
Qed.

(** C2. At iteration 15000 one milestone has been passed, and the
    schedule of the code returns 1 there, not 0.1; at 21000, with all four
    passed, it returns 1 again, not 0.0001.  At 14999 it returns 1.  The
    same body with the search made in [lr_steps] returns 0.1 at 15000 and
    0.0001 at 21000. *)
Theorem lr_lambda_update_ignores_milestones :
  milestones_passed lr_steps 15000 = 1%nat /\
  milestones_passed lr_steps 21000 = 4%nat /\
  (lr_lambda_update 14999 == 1)%Q /\
  (lr_lambda_update 15000 == 1)%Q /\
  ~ (lr_lambda_update 15000 == 1 # 10)%Q /\
  (lr_lambda_update 21000 == 1)%Q /\
  ~ (lr_lambda_update 21000 == 1 # 10000)%Q /\
  (lr_lambda_milestones 15000 == 1 # 10)%Q /\
  (lr_lambda_milestones 21000 == 1 # 10000)%Q.
Proof.
  repeat split; try reflexivity; vm_compute; discriminate.
Qed.

(** ** Runs of [main]'s monad *)

Section Runs.

Context {X W : Type} `{!Externals X W}.

Implicit Types (s : St W) (e : event X) (l : list (event X)).

Lemma count_events_app (p : event X -> bool) l1 l2 :
  count_events p (l1 ++ l2) = (count_events p l1 + count_events p l2)%nat.
Proof. unfold count_events. now rewrite List.filter_app, length_app. Qed.

Lemma count_events_cons (p : event X -> bool) e l :
  count_events p (e :: l)
  = ((if p e then 1 else 0) + count_events p l)%nat.
Proof. unfold count_events. simpl. now destruct (p e). Qed.

Lemma same_control_refl s : same_control s s.
Proof. repeat split. Qed.

Lemma same_control_trans s1 s2 s3 :
  same_control s1 s2 -> same_control s2 s3 -> same_control s1 s3.
Proof.
  unfold same_control. intros (?&?&?&?) (?&?&?&?).
  repeat split; congruence.
Qed.

(** Running the primitives of the monad, without touching the tensors or the
    name table. *)
Ltac run :=
  unfold bind, ret, raise, emit, get, modify, lift, when;
  cbn [for_each for_enumerate fold_for out_events out_state out_res app
       device names args n_gpu num_train_optimization_steps param_groups
       global_step loss_tmp total_loss train_score nb_tr_examples
       nb_tr_steps
       set_device set_names set_args set_n_gpu
       set_num_train_optimization_steps set_param_groups set_global_step
       set_loss_tmp set_total_loss set_train_score set_nb_tr_examples
       set_nb_tr_steps].

Lemma bind_Ok {A B} (m : M X W A) (f : A -> M X W B) s ev s1 a ev' s2 r :
  m s = mkOut ev s1 (Ok a) -> f a s1 = mkOut ev' s2 r ->
  bind m f s = mkOut (ev ++ ev') s2 r.
Proof. intros Hm Hf. unfold bind. now rewrite Hm, Hf. Qed.

Lemma bind_Raise {A B} (m : M X W A) (f : A -> M X W B) s ev s1 x :
  m s = mkOut ev s1 (Raise x) -> bind m f s = mkOut ev s1 (Raise x).
Proof. intros Hm. unfold bind. now rewrite Hm. Qed.

(** The forward and backward pass of a micro-batch. *)
Lemma forward_backward_run (iterId : Z) (b : Batch X) s :
  let pred := model_forward (device s) b in
  exists s',
    same_control s s' /\
    global_step s' = global_step s /\
    param_groups s' = param_groups s /\
    forward_backward iterId b s =
    match instance_bce_with_logits bce_kernel pred (target b),
          compute_score_with_logits pred (target b) with
    | Ok loss, Ok scores =>
        let bl := backward_loss (n_gpu s)
                    (gradient_accumulation_steps (args s)) loss in
        mkOut
          [EForward true b; EBackward (fp16 (args s)) bl; ELinePlot iterId bl]
          s' (Ok tt)
    | Raise x, _ | Ok _, Raise x => mkOut [EForward true b] s' (Raise x)
    end.
Proof.
  unfold forward_backward, call_model. run.
  destruct (instance_bce_with_logits _ _ _) as [loss|x]; run;
    [destruct (compute_score_with_logits _ _) as [scores|x]; run|];
    eexists; (split; [|split; [|split; [|reflexivity]]]);
    repeat split.
Qed.

(** The progress line never fails and touches only the logging sum. *)
Lemma log_progress_run (iterId step : Z) s :
  exists tail s',
    log_progress iterId step s = mkOut tail s' (Ok tt) /\
    same_control s s' /\
    global_step s' = global_step s /\
    param_groups s' = param_groups s /\
    (tail = [] \/ exists v, tail = [EPrintProgress iterId v]).
Proof.
  unfold log_progress.
  destruct ((step mod 20 =? 0) && negb (step =? 0)); run.
  - eexists _, _. split; [reflexivity|]. repeat split.
    right. eexists. reflexivity.
  - eexists _, _. split; [reflexivity|]. repeat split. now left.
Qed.

Lemma Qeq_bool_inject_Z_0 (n : Z) : Qeq_bool (inject_Z n) 0 = (n =? 0).
Proof.
  unfold Qeq_bool, inject_Z. simpl. rewrite Z.mul_1_r.
  destruct n; reflexivity.
Qed.

(** Line 463 ends in an exception whatever the state, before any rate is
    written: the name is unbound, or the division fails, or the object is
    not callable. *)
Lemma update_learning_rate_run s :
  update_learning_rate s = mkOut [] s (Raise (schedule_error s)).
Proof.
  unfold update_learning_rate, schedule_error, load, true_div. run.
  destruct (names s !! "warmup_linear") as [sched|]; run; [|reflexivity].
  rewrite Qeq_bool_inject_Z_0.
  destruct (num_train_optimization_steps s =? 0); run; [reflexivity|].
  destruct sched; reflexivity.
Qed.

Lemma update_learning_rate_unbound s :
  names s !! "warmup_linear" = None ->
  update_learning_rate s = mkOut [] s (Raise NameError).
Proof.
  intros Hn. rewrite update_learning_rate_run. unfold schedule_error.
  now rewrite Hn.
Qed.

Lemma schedule_error_same_control s s' :
  same_control s s' -> schedule_error s' = schedule_error s.
Proof.
  intros (_ & _ & Hn & Hnm). unfold schedule_error. now rewrite Hn, Hnm.
Qed.

(** Lines 459-473, once the test of line 459 holds. *)
Lemma optimizer_update_run s :
  let closing := [EClipGradNorm (25 # 100); EOptimizerStep; EZeroGrad] in
  if fp16 (args s) then
    optimizer_update s = mkOut [] s (Raise (schedule_error s))
  else
    exists s',
      optimizer_update s = mkOut closing s' (Ok tt) /\
      same_control s s' /\
      global_step s' = global_step s + 1 /\
      param_groups s' = param_groups s.
Proof.
  unfold optimizer_update. run.
  destruct (fp16 (args s)); run.
  - now rewrite update_learning_rate_run.
  - eexists. split; [reflexivity|]. repeat split.
Qed.

Lemma bind_get {A} (f : St W -> M X W A) s : bind get f s = f s s.
Proof. unfold bind, get. now destruct (f s s). Qed.

Lemma bind_ret {A B} (a : A) (f : A -> M X W B) s : bind (ret a) f s = f a s.
Proof. unfold bind, ret. now destruct (f a s). Qed.

Lemma bind_modify {A} (g : St W -> St W) (f : unit -> M X W A) s :
  bind (modify g) f s = f tt (g s).
Proof. unfold bind, modify. now destruct (f tt (g s)). Qed.

(** One micro-batch, case by case: what it returns, the calls it makes, and
    what it leaves in the step counter and the learning rates. *)
Lemma micro_batch_run (len epochId step : Z) (b : Batch X) s :
  let K := gradient_accumulation_steps (args s) in
  let iterId := startIterID + step + epochId * len in
  let pred := model_forward (device s) b in
  let closing := [EClipGradNorm (25 # 100); EOptimizerStep; EZeroGrad] in
  let run := micro_batch len epochId step b s in
  match instance_bce_with_logits bce_kernel pred (target b),
        compute_score_with_logits pred (target b) with
  | Ok loss, Ok scores =>
      let bl := backward_loss (n_gpu s) K loss in
      let passes :=
        [EForward true b; EBackward (fp16 (args s)) bl; ELinePlot iterId bl] in
      exists tail s',
        (tail = [] \/ exists v, tail = [EPrintProgress iterId v]) /\
        same_control s s' /\
        if fires K step then
          if fp16 (args s) then
            run = mkOut passes s' (Raise (schedule_error s)) /\
            global_step s' = global_step s /\
            param_groups s' = param_groups s
          else
            run = mkOut (passes ++ closing ++ tail) s' (Ok tt) /\
            global_step s' = global_step s + 1 /\
            param_groups s' = param_groups s
        else
          run = mkOut (passes ++ tail) s' (Ok tt) /\
          global_step s' = global_step s /\
          param_groups s' = param_groups s
  | Raise x, _ | Ok _, Raise x =>
      exists s',
        same_control s s' /\
        run = mkOut [EForward true b] s' (Raise x) /\
        global_step s' = global_step s /\
        param_groups s' = param_groups s
  end.
Proof.
  cbv zeta. unfold micro_batch.
  destruct (forward_backward_run (startIterID + step + epochId * len) b s)
    as (s1 & Hc1 & Hg1 & Hp1 & Hfb).
  destruct (instance_bce_with_logits _ _ _) as [loss|x];
    [destruct (compute_score_with_logits _ _) as [scores|x]|].
  2,3: exists s1; split; [exact Hc1|]; split;
         [eapply bind_Raise; exact Hfb | split; assumption].
  cbv zeta in Hfb.
  assert (HK : gradient_accumulation_steps (args s1)
               = gradient_accumulation_steps (args s))
    by (destruct Hc1 as (-> & _); reflexivity).
  assert (Hfp : fp16 (args s1) = fp16 (args s))
    by (destruct Hc1 as (-> & _); reflexivity).
  pose proof (optimizer_update_run s1) as O. cbv zeta in O.
  rewrite Hfp, (schedule_error_same_control _ _ Hc1), Hp1, Hg1 in O.
  destruct (fires (gradient_accumulation_steps (args s)) step) eqn:Hfire.
  - destruct (fp16 (args s)).
    + exists [], s1. split; [now left|]. split; [exact Hc1|].
      split; [|split; assumption].
      etransitivity.
      { eapply bind_Ok; [exact Hfb|]. rewrite bind_get, HK, Hfire.
        eapply bind_Raise. exact O. }
      now rewrite app_nil_r.
    + destruct O as (s2 & Ho & Hc2 & Hg2 & Hp2).
      destruct (log_progress_run
                  (startIterID + step + epochId * len) step s2)
        as (tail & s3 & Hl & Hc3 & Hg3 & Hp3 & Ht).
      exists tail, s3. split; [exact Ht|].
      split; [eauto using same_control_trans|].
      split; [|split; congruence].
      eapply bind_Ok; [exact Hfb|]. rewrite bind_get, HK, Hfire.
      eapply bind_Ok; [exact Ho | exact Hl].
  - destruct (log_progress_run
                (startIterID + step + epochId * len) step s1)
      as (tail & s3 & Hl & Hc3 & Hg3 & Hp3 & Ht).
    exists tail, s3. split; [exact Ht|].
    split; [eauto using same_control_trans|].
    split; [|split; congruence].
    eapply bind_Ok; [exact Hfb|]. rewrite bind_get, HK, Hfire.
    unfold when. rewrite bind_ret. exact Hl.
Qed.

(** ** Counting optimizer steps *)

Lemma count_tail_steps (iterId : Z) (tail : list (event X)) :
  tail = [] \/ (exists v, tail = [EPrintProgress iterId v]) ->
  count_events is_optimizer_step tail = 0%nat /\
  count_events is_set_lr tail = 0%nat /\
  count_events is_backward tail = 0%nat.
Proof. intros [->|[v ->]]; repeat split. Qed.

(** A micro-batch makes one optimizer step when the test of line 459 holds
    and the step is reached, and none otherwise; the step counter moves with
    the optimizer steps. *)
Lemma micro_batch_steps (len epochId step : Z) (b : Batch X) s :
  let o := micro_batch len epochId step b s in
  same_control s (out_state o) /\
  global_step (out_state o)
  = global_step s
    + Z.of_nat (count_events is_optimizer_step (out_events o)) /\
  count_events is_optimizer_step (out_events o)
  = (if fires (gradient_accumulation_steps (args s)) step
     then match out_res o with Ok _ => 1 | Raise _ => 0 end
     else 0)%nat.
Proof.
  pose proof (micro_batch_run len epochId step b s) as R. cbv zeta in R |- *.
  destruct (instance_bce_with_logits _ _ _) as [loss|x];
    [destruct (compute_score_with_logits _ _) as [scores|x]|].
  2,3: destruct R as (s' & Hc & -> & Hg & _);
       cbn [out_state out_events out_res];
       split; [exact Hc|]; split; [cbn; lia|];
       now destruct (fires _ _).
  destruct R as (tail & s' & Ht & Hc & R).
  apply (count_tail_steps _ tail) in Ht as (Ht & _).
  destruct (fires _ _).
  - destruct (fp16 (args s)).
    + destruct R as (-> & Hg & _). cbn [out_state out_events out_res].
      split; [exact Hc|]. split; [cbn; lia | reflexivity].
    + destruct R as (-> & Hg & _). cbn [out_state out_events out_res].
      rewrite !count_events_app, Ht.
      split; [exact Hc|]. split; [cbn; lia | reflexivity].
  - destruct R as (-> & Hg & _). cbn [out_state out_events out_res].
    rewrite !count_events_app, Ht.
    split; [exact Hc|]. split; [cbn; lia | reflexivity].
Qed.

Lemma fires_div (K i : Z) :
  1 <= K -> (i + 1) / K = i / K + (if fires K i then 1 else 0).
Proof.
  intros HK. unfold fires.
  pose proof (Z.div_mod (i + 1) K ltac:(lia)) as Hdm.
  pose proof (Z.mod_pos_bound (i + 1) K ltac:(lia)) as Hb.
  destruct (Z.eqb_spec ((i + 1) mod K) 0) as [H0|H0].
  - assert (i / K = (i + 1) / K - 1); [|lia].
    symmetry. apply (Z.div_unique_pos i K _ (K - 1)); lia.
  - assert (i / K = (i + 1) / K); [|lia].
    symmetry. apply (Z.div_unique_pos i K _ ((i + 1) mod K - 1)); lia.
Qed.

(** The micro-batches of an epoch, numbered from [start]. *)
Lemma for_enumerate_micro_batch_steps (len epochId : Z)
    (batches : list (Batch X)) (start : Z) s :
  let K := gradient_accumulation_steps (args s) in
  let o := for_enumerate (micro_batch len epochId) start batches s in
  same_control s (out_state o) /\
  global_step (out_state o)
  = global_step s
    + Z.of_nat (count_events is_optimizer_step (out_events o)) /\
  (1 <= K -> out_res o = Ok tt ->
   Z.of_nat (count_events is_optimizer_step (out_events o))
   = (start + Z.of_nat (length batches)) / K - start / K).
Proof.
  revert start s. induction batches as [|b batches IH]; intros start s.
  - cbn. split; [apply same_control_refl|]. split; [lia|].
    intros _ _. rewrite Z.add_0_r. lia.
  - cbv zeta. cbn [for_enumerate].
    pose proof (micro_batch_steps len epochId start b s) as Hm.
    cbv zeta in Hm. unfold bind.
    destruct (micro_batch len epochId start b s) as [ev1 s1 r1].
    cbn [out_state out_events out_res] in Hm.
    destruct Hm as (Hc1 & Hg1 & Hn1).
    destruct r1 as [[]|x]; cbn [out_state out_events out_res].
    + specialize (IH (start + 1) s1). cbv zeta in IH.
      destruct (for_enumerate _ (start + 1) batches s1) as [ev2 s2 r2].
      cbn [out_state out_events out_res] in IH |- *.
      destruct IH as (Hc2 & Hg2 & Hn2).
      assert (HK : gradient_accumulation_steps (args s1)
                   = gradient_accumulation_steps (args s))
        by (destruct Hc1 as (-> & _); reflexivity).
      rewrite HK in Hn2.
      split; [eauto using same_control_trans|].
      rewrite count_events_app.
      split; [lia|]. intros HK1 Hr. specialize (Hn2 HK1 Hr).
      rewrite Nat2Z.inj_add, Hn2, Hn1.
      pose proof (fires_div _ start HK1) as Hd.
      cbn [length]. rewrite Nat2Z.inj_succ.
      replace (start + Z.succ (Z.of_nat (length batches)))
        with (start + 1 + Z.of_nat (length batches)) by lia.
      destruct (fires _ _); cbn; lia.
    + split; [exact Hc1|]. split; [exact Hg1|]. discriminate.
Qed.

(** The calls of an epoch that ran to its end, cut into one segment per
    micro-batch. *)
Lemma for_enumerate_micro_batch_segments (len epochId : Z)
    (batches : list (Batch X)) (start : Z) s :
  let K := gradient_accumulation_steps (args s) in
  let o := for_enumerate (micro_batch len epochId) start batches s in
  out_res o = Ok tt ->
  exists segs : list (list (event X)),
    out_events o = concat segs /\
    length segs = length batches /\
    forall (i : nat) (b : Batch X) (seg : list (event X)),
      batches !! i = Some b -> segs !! i = Some seg ->
      head seg = Some (EForward true b) /\
      count_events is_optimizer_step seg
      = (if fires K (start + Z.of_nat i) then 1 else 0)%nat.
Proof.
  revert start s. induction batches as [|b batches IH]; intros start s.
  - cbn. intros _. exists []. repeat split; intros; discriminate.
  - cbv zeta. cbn [for_enumerate].
    pose proof (micro_batch_steps len epochId start b s) as Hm.
    pose proof (micro_batch_run len epochId start b s) as Hr.
    cbv zeta in Hm, Hr. unfold bind.
    destruct (micro_batch len epochId start b s) as [ev1 s1 r1] eqn:Hrun.
    cbn [out_state out_events out_res] in Hm.
    destruct Hm as (Hc1 & Hg1 & Hn1).
    destruct r1 as [[]|x]; cbn [out_state out_events out_res];
      [|discriminate].
    assert (Hhead : head ev1 = Some (EForward true b)).
    { destruct (instance_bce_with_logits _ _ _) as [loss|x];
        [destruct (compute_score_with_logits _ _) as [scores|x]|].
      2,3: destruct Hr as (s' & _ & Hr & _); discriminate.
      destruct Hr as (tail & s' & _ & _ & Hr).
      destruct (fires _ _); [destruct (fp16 (args s))|];
        destruct Hr as (Hr & _); inversion Hr; reflexivity. }
    specialize (IH (start + 1) s1). cbv zeta in IH.
    destruct (for_enumerate _ (start + 1) batches s1) as [ev2 s2 r2].
    cbn [out_state out_events out_res] in IH |- *.
    intros Hok. destruct (IH Hok) as (segs & -> & Hlen & Hsegs).
    exists (ev1 :: segs). split; [reflexivity|].
    split; [cbn; now rewrite Hlen|].
    intros [|i] b' seg Hb Hs; cbn in Hb, Hs.
    + inversion Hb; inversion Hs; subst. split; [exact Hhead|].
      rewrite Hn1, Z.add_0_r. reflexivity.
    + destruct (Hsegs i b' seg Hb Hs) as (Hh & Hn). split; [exact Hh|].
      rewrite Hn.
      replace (gradient_accumulation_steps (args s1))
        with (gradient_accumulation_steps (args s))
        by (destruct Hc1 as (-> & _); reflexivity).
      now replace (start + 1 + Z.of_nat i) with (start + Z.of_nat (S i))
        by lia.
Qed.

(** C1. In an epoch that runs its [N] micro-batches with accumulation factor
    [K >= 1], the calls split into one segment per micro-batch; segment [i]
    (which opens with the forward pass of batch [i]) holds one optimizer step
    when [(i + 1) mod K = 0] and none otherwise, so the epoch makes
    [N / K] optimizer steps; with [K = 1] every segment holds one. *)
Theorem optimizer_fires_every_K (len epochId : Z)
    (batches : list (Batch X)) s :
  let K := gradient_accumulation_steps (args s) in
  let o := train_batches len epochId batches s in
  1 <= K ->
  out_res o = Ok tt ->
  exists segs : list (list (event X)),
    out_events o = concat segs /\
    length segs = length batches /\
    (forall (i : nat) (b : Batch X) (seg : list (event X)),
        batches !! i = Some b -> segs !! i = Some seg ->
        head seg = Some (EForward true b) /\
        count_events is_optimizer_step seg
        = if (Z.of_nat i + 1) mod K =? 0 then 1%nat else 0%nat) /\
    Z.of_nat (count_events is_optimizer_step (out_events o))
    = Z.of_nat (length batches) / K /\
    (K = 1 ->
     forall (i : nat) (seg : list (event X)),
       segs !! i = Some seg ->
       count_events is_optimizer_step seg = 1%nat).
Proof.
  cbv zeta. unfold train_batches. intros HK Hok.
  destruct (for_enumerate_micro_batch_segments len epochId batches 0 s Hok)
    as (segs & Hev & Hlen & Hsegs).
  destruct (for_enumerate_micro_batch_steps len epochId batches 0 s)
    as (_ & _ & Hcount).
  exists segs. split; [exact Hev|]. split; [exact Hlen|].
  split; [|split].
  - intros i b seg Hb Hs. destruct (Hsegs i b seg Hb Hs) as (Hh & Hn).
    split; [exact Hh|]. rewrite Hn. reflexivity.
  - rewrite (Hcount HK Hok), Z.add_0_l, Zdiv_0_l. lia.
  - intros K1 i seg Hs.
    assert (Hi : (i < length batches)%nat)
      by (rewrite <- Hlen; now apply lookup_lt_Some in Hs).
    apply lookup_lt_is_Some_2 in Hi as [b Hb].
    destruct (Hsegs i b seg Hb Hs) as (_ & Hn). rewrite Hn.
    unfold fires. rewrite K1, Z.mod_1_r. reflexivity.
Qed.

(** ** The loss of the backward pass, and the learning rate writes *)

Lemma filter_tail (p : event X -> bool) (iterId : Z) (tail : list (event X)) :
  (forall v, p (EPrintProgress iterId v) = false) ->
  tail = [] \/ (exists v, tail = [EPrintProgress iterId v]) ->
  List.filter p tail = [].
Proof. intros Hp [->|[v ->]]; [reflexivity|]. cbn. now rewrite Hp. Qed.

Lemma backward_loss_div (n K : Z) (loss : Q) :
  1 <= K ->
  (backward_loss n K loss == loss / inject_Z K)%Q /\
  (K = 1 -> backward_loss n K loss = loss).
Proof.
  intros HK. unfold backward_loss.
  assert (Hn : (if n >? 1 then loss else loss) = loss) by now destruct (n >? 1).
  rewrite Hn. destruct (Z.gtb_spec K 1) as [Hgt|Hle].
  - split; [reflexivity | lia].
  - assert (K = 1) by lia. subst. split; [|reflexivity].
    unfold Qdiv. change (/ inject_Z 1)%Q with 1%Q. ring.
Qed.

(** C5. On a micro-batch whose forward pass yields the loss [loss], the
    backward pass is called once, on a value equal to [loss / K]; with
    [K = 1] that value is [loss] itself.  When the loss or the score cannot
    be computed there is no backward pass. *)
Theorem backward_loss_is_loss_over_K (len epochId step : Z)
    (b : Batch X) s :
  let K := gradient_accumulation_steps (args s) in
  let pred := model_forward (device s) b in
  let o := micro_batch len epochId step b s in
  1 <= K ->
  match instance_bce_with_logits bce_kernel pred (target b),
        compute_score_with_logits pred (target b) with
  | Ok loss, Ok _ =>
      exists v : Q,
        List.filter is_backward (out_events o)
        = [EBackward (fp16 (args s)) v] /\
        v = backward_loss (n_gpu s) K loss /\
        (v == loss / inject_Z K)%Q /\
        (K = 1 -> v = loss)
  | _, _ => List.filter is_backward (out_events o) = []
  end.
Proof.
  cbv zeta. intros HK.
  pose proof (micro_batch_run len epochId step b s) as R. cbv zeta in R.
  destruct (instance_bce_with_logits _ _ _) as [loss|x];
    [destruct (compute_score_with_logits _ _) as [scores|x]|].
  2,3: destruct R as (s' & _ & -> & _); reflexivity.
  destruct R as (tail & s' & Ht & _ & R).
  pose proof (filter_tail is_backward _ tail (fun _ => eq_refl) Ht) as Hft.
  destruct (backward_loss_div (n_gpu s) _ loss HK) as (Hdiv & H1).
  eexists. split; [|split; [reflexivity | split; [exact Hdiv | exact H1]]].
  destruct (fires _ _); [destruct (fp16 (args s))|];
    destruct R as (-> & _); cbn [out_events];
    rewrite ?List.filter_app, ?Hft; reflexivity.
Qed.

(** C3, as the code has it.  A micro-batch on which the test of line 459
    fails writes no learning rate.  One on which it holds writes none either
    in full precision, where the write of lines 463-467 is skipped
    ([if args.fp16:]) and the rate is left to the optimizer; the step is
    made all the same. *)
Theorem learning_rate_write_is_guarded (len epochId step : Z)
    (b : Batch X) s :
  let K := gradient_accumulation_steps (args s) in
  let pred := model_forward (device s) b in
  let o := micro_batch len epochId step b s in
  (fires K step = false ->
   List.filter is_set_lr (out_events o) = [] /\
   param_groups (out_state o) = param_groups s) /\
  (fires K step = true -> fp16 (args s) = false ->
   List.filter is_set_lr (out_events o) = [] /\
   param_groups (out_state o) = param_groups s /\
   forall (loss : Q) (scores : matrix),
     instance_bce_with_logits bce_kernel pred (target b) = Ok loss ->
     compute_score_with_logits pred (target b) = Ok scores ->
     out_res o = Ok tt /\
     count_events is_optimizer_step (out_events o) = 1%nat).
Proof.
  cbv zeta.
  pose proof (micro_batch_run len epochId step b s) as R. cbv zeta in R.
  destruct (instance_bce_with_logits _ _ _) as [loss|x];
    [destruct (compute_score_with_logits _ _) as [scores|x]|].
  2,3: destruct R as (s' & _ & -> & _ & Hp);
       split; intros; (split; [reflexivity|]);
       [exact Hp | split; [exact Hp | intros; discriminate]].
  destruct R as (tail & s' & Ht & _ & R).
  pose proof (filter_tail is_set_lr _ tail (fun _ => eq_refl) Ht) as Hft.
  destruct (count_tail_steps _ tail Ht) as (Hts & _).
  destruct (fires _ _).
  - split; [discriminate|]. intros _ Hfp. rewrite Hfp in R.
    destruct R as (-> & _ & Hp). cbn [out_events out_state out_res].
    rewrite !List.filter_app, Hft. split; [reflexivity|].
    split; [exact Hp|]. intros _ _ _ _. split; [reflexivity|].
    rewrite !count_events_app, Hts. reflexivity.
  - split; [|discriminate]. intros _.
    destruct R as (-> & _ & Hp). cbn [out_events out_state out_res].
    rewrite !List.filter_app, Hft. split; [reflexivity | exact Hp].
Qed.

(** ** [evaluate] *)

Lemma Qsum_one_hot_any (row : list Q) (k : nat) :
  (Qsum (zip_with Qmult (one_hot_row k row) row) == nth k row 0)%Q.
Proof.
  destruct (Nat.lt_ge_cases k (length row)) as [Hlt|Hge].
  - now apply Qsum_one_hot.
  - unfold one_hot_row. rewrite list_insert_ge by now rewrite length_map.
    rewrite Qsum_zero_row, nth_overflow by exact Hge. reflexivity.
Qed.

Lemma msum_cons (r : list Q) (m : matrix) :
  (msum (r :: m) == Qsum r + msum m)%Q.
Proof. unfold msum. cbn [concat]. apply Qsum_app. Qed.

Lemma Qsum_cons (x : Q) (l : list Q) : Qsum (x :: l) = (x + Qsum l)%Q.
Proof. reflexivity. Qed.

(** The scores of a batch add up to the match scores of its examples. *)
Lemma compute_score_with_logits_msum (logits labels scores : matrix) :
  same_shape logits labels = true ->
  Forall (fun r => r <> []) logits ->
  compute_score_with_logits logits labels = Ok scores ->
  (msum scores == Qsum (zip_with match_score logits labels))%Q.
Proof.
  intros Hsh Hne Hrun.
  destruct (compute_score_with_logits_rows logits labels Hsh Hne)
    as (mx & Hall & Heq).
  rewrite Heq in Hrun. inversion Hrun; subst scores. clear Hrun Heq Hsh Hne.
  revert labels. induction Hall as [|r [v k] logits mx Hr _ IH];
    intros [|t labels]; try reflexivity.
  cbn [map zip_with snd]. rewrite msum_cons, Qsum_cons, IH.
  unfold match_score at 2. rewrite Hr. rewrite Qsum_one_hot_any. reflexivity.
Qed.

Lemma torch_max1_max_weight (m : matrix) :
  Forall (fun r => r <> []) m ->
  exists mx, torch_max1 m = Ok mx /\ map fst mx = map max_weight m.
Proof.
  intros Hne. destruct (torch_max1_ok m Hne) as (mx & Hmx & Hall).
  exists mx. split; [exact Hmx|]. clear Hmx Hne.
  induction Hall as [|r [v k] m mx Hr _ IH]; [reflexivity|].
  cbn [map fst]. rewrite IH. unfold max_weight at 2. now rewrite Hr.
Qed.

Lemma same_shape_nonempty (a b : matrix) :
  same_shape a b = true ->
  Forall (fun r => r <> []) a -> Forall (fun r => r <> []) b.
Proof.
  revert b. induction a as [|ra a IH]; intros [|rb b] Hsh Hne;
    simpl in Hsh; try discriminate; constructor.
  - apply andb_true_iff in Hsh as [Hlen _]. apply Nat.eqb_eq in Hlen.
    inversion Hne; subst. destruct ra, rb; simpl in *; congruence.
  - apply andb_true_iff in Hsh as [_ Hsh]. inversion Hne; subst. auto.
Qed.

(** What the model must return for a batch: logits of the shape of the
    targets, with at least one class. *)
Lemma evaluate_batch_run (sc ub : Q) (n : Z) (b : Batch X) s :
  let pred := model_forward (device s) b in
  same_shape pred (target b) = true ->
  Forall (fun r => r <> []) pred ->
  exists sc' ub' n',
    evaluate_batch (sc, ub, n) b s
    = mkOut [EForward false b]
        (set_device (apply_event (EForward false b)) s)
        (Ok (sc', ub', n')) /\
    (sc' == sc + Qsum (zip_with match_score pred (target b)))%Q /\
    (ub' == ub + Qsum (map max_weight (target b)))%Q.
Proof.
  cbv zeta. intros Hsh Hne.
  destruct (compute_score_with_logits_rows _ _ Hsh Hne) as (mx & _ & Hrun).
  pose proof (compute_score_with_logits_msum _ _ _ Hsh Hne Hrun) as Hsum.
  destruct (torch_max1_max_weight (target b)
              (same_shape_nonempty _ _ Hsh Hne)) as (mt & Hmt & Hw).
  unfold evaluate_batch, call_model. run.
  rewrite Hrun, Hmt. eexists _, _, _. split; [reflexivity|].
  split; [now rewrite Hsum | now rewrite Hw].
Qed.

Lemma fold_for_evaluate_batch_run (batches : list (Batch X)) :
  forall (sc ub : Q) (n : Z) s,
    Forall2 (fun pred b => same_shape pred (target b) = true /\
                          Forall (fun r => r <> []) pred)
      (eval_preds (device s) batches) batches ->
    exists sc' ub' n' s',
      fold_for evaluate_batch (sc, ub, n) batches s
      = mkOut (map (EForward false) batches) s' (Ok (sc', ub', n')) /\
      same_control s s' /\
      global_step s' = global_step s /\
      param_groups s' = param_groups s /\
      (sc' == sc + Qsum (concat (zip_with (zip_with match_score)
                                   (eval_preds (device s) batches)
                                   (map target batches))))%Q /\
      (ub' == ub + Qsum (map max_weight (concat (map target batches))))%Q.
Proof.
  induction batches as [|b batches IH]; intros sc ub n s Hall.
  - exists sc, ub, n, s. split; [reflexivity|].
    split; [apply same_control_refl|]. repeat split; cbn; ring.
  - cbn [eval_preds] in Hall. inversion Hall as [|? ? ? ? [Hsh Hne] Hrest];
      subst.
    destruct (evaluate_batch_run sc ub n b s Hsh Hne)
      as (sc1 & ub1 & n1 & Hb & Hsc1 & Hub1).
    destruct (IH sc1 ub1 n1 (set_device (apply_event (EForward false b)) s)
                Hrest)
      as (sc2 & ub2 & n2 & s2 & Hf & Hc & Hg & Hp & Hsc2 & Hub2).
    exists sc2, ub2, n2, s2. split.
    { cbn [fold_for]. eapply eq_trans;
        [eapply bind_Ok; [exact Hb | exact Hf] | reflexivity]. }
    split; [exact Hc|]. split; [exact Hg|]. split; [exact Hp|].
    cbn [eval_preds map zip_with concat].
    change (device (set_device (apply_event (EForward false b)) s))
      with (apply_event (EForward false b) (device s)) in Hsc2.
    rewrite map_app, !Qsum_app. rewrite Hsc2, Hub2, Hsc1, Hub1.
    split; ring.
Qed.

Lemma chunks_concat {A} (fuel n : nat) (l : list A) :
  (0 < n)%nat -> (length l <= fuel)%nat -> concat (chunks fuel n l) = l.
Proof.
  intros Hn. revert l. induction fuel as [|fuel IH]; intros l Hl.
  - destruct l; [reflexivity | simpl in Hl; lia].
  - destruct l as [|x l]; [reflexivity|]. cbn [chunks concat].
    rewrite IH; [apply take_drop|].
    rewrite length_drop. simpl in *. lia.
Qed.

Lemma targets_of_chunks (cs : list (list (Example X))) :
  concat (map target (map collate cs)) = map ex_target (concat cs).
Proof.
  induction cs as [|c cs IH]; [reflexivity|].
  cbn [map concat]. rewrite IH, map_app. reflexivity.
Qed.

Lemma Qsum_Permutation (l l' : list Q) :
  Permutation l l' -> (Qsum l == Qsum l')%Q.
Proof.
  induction 1 as [|x l l' _ IH|x y l|l l' l'' _ IH1 _ IH2]; cbn.
  - reflexivity.
  - now rewrite IH.
  - ring.
  - now rewrite IH1.
Qed.

Lemma match_scores_length (preds targets : list matrix) :
  Forall2 (fun p t => same_shape p t = true) preds targets ->
  length (concat (zip_with (zip_with match_score) preds targets))
  = length (concat targets).
Proof.
  induction 1 as [|p t preds targets Hsh _ IH]; [reflexivity|].
  cbn [zip_with concat]. rewrite !length_app, IH, length_zip_with.
  rewrite (same_shape_length _ _ Hsh). now rewrite Nat.min_id.
Qed.

(** C8. On a non-empty evaluation set, with a model that returns logits of
    the shape of the targets, [evaluate] returns a pair: the sum of the
    examples' match scores over the number of examples, and the sum of the
    examples' largest target weights over the number of examples.  Its only
    calls are forward passes with gradient tracking off, and it leaves the
    step counter and the learning rates alone. *)
Theorem evaluate_returns_means (pass : Z) (dl : DataLoader X) s :
  let batches := iter_DataLoader pass dl in
  let preds := eval_preds (device s) batches in
  let exs := examples (dataset dl) in
  (0 < batch_size dl)%nat ->
  exs <> [] ->
  Permutation (sampler pass exs) exs ->
  Forall2 (fun pred b => same_shape pred (target b) = true /\
                        Forall (fun r => r <> []) pred) preds batches ->
  exists (score upper_bound : Q) (s' : St W),
    evaluate pass dl s
    = mkOut (map (EForward false) batches) s' (Ok (score, upper_bound)) /\
    (upper_bound
     == Qsum (map (fun ex => max_weight (ex_target ex)) exs)
        / Qnat (length exs))%Q /\
    (score
     == Qsum (concat (zip_with (zip_with match_score) preds
                        (map target batches)))
        / Qnat (length exs))%Q /\
    length (concat (zip_with (zip_with match_score) preds
                      (map target batches))) = length exs /\
    same_control s s' /\
    global_step s' = global_step s /\
    param_groups s' = param_groups s.
Proof.
  cbv zeta. intros Hbs Hne Hperm Hall.
  destruct (fold_for_evaluate_batch_run _ 0%Q 0%Q 0 s Hall)
    as (sc & ub & n & s' & Hf & Hc & Hg & Hp & Hsc & Hub).
  set (order := if shuffle dl then sampler pass (examples (dataset dl))
                else examples (dataset dl)).
  assert (Horder : Permutation order (examples (dataset dl))).
  { unfold order. destruct (shuffle dl); [exact Hperm | reflexivity]. }
  assert (Htargets : concat (map target (iter_DataLoader pass dl))
                     = map ex_target order).
  { unfold iter_DataLoader. fold order.
    rewrite targets_of_chunks, chunks_concat; [reflexivity | exact Hbs | lia]. }
  assert (HN : (len_dataset dl =? 0) = false).
  { unfold len_dataset. destruct (examples (dataset dl)); [congruence|].
    apply Z.eqb_neq. simpl length. lia. }
  exists (sc / inject_Z (len_dataset dl))%Q,
         (ub / inject_Z (len_dataset dl))%Q, s'.
  split.
  { unfold evaluate. eapply eq_trans; [eapply bind_Ok; [exact Hf|]|].
    - unfold true_div. rewrite Qeq_bool_inject_Z_0, HN. run. reflexivity.
    - now rewrite app_nil_r. }
  change (inject_Z (len_dataset dl))
    with (Qnat (length (examples (dataset dl)))).
  split; [|split; [|split; [|split; [exact Hc|split; [exact Hg|exact Hp]]]]].
  - rewrite Hub, Htargets, Qplus_0_l, map_map.
    rewrite (Qsum_Permutation _ _
               (Permutation_map (fun ex => max_weight (ex_target ex)) Horder)).
    reflexivity.
  - rewrite Hsc, Qplus_0_l. reflexivity.
  - rewrite match_scores_length.
    + rewrite Htargets, length_map. now apply Permutation_length.
    + clear -Hall. revert Hall.
      generalize (eval_preds (device s) (iter_DataLoader pass dl)).
      generalize (iter_DataLoader pass dl).
      intros bs ps Hall. induction Hall as [|p b ps bs [Hsh _] _ IH];
        constructor; assumption.
Qed.

(** X20. On an empty evaluation set no forward pass is made and line 543
    raises. *)
Lemma evaluate_empty_raises (pass : Z) (dl : DataLoader X) s :
  examples (dataset dl) = [] -> shuffle dl = false ->
  evaluate pass dl s = mkOut [] s (Raise ZeroDivisionError).
Proof.
  intros He Hs. unfold evaluate, iter_DataLoader, len_dataset.
  rewrite Hs, He. reflexivity.
Qed.

(** ** [main] *)

Lemma startup_run (env : Env) s :
  exists s',
    startup env s
    = mkOut (startup_calls env (args s) (device s)) s'
        (Ok (time_stamp env (args s), save_path env (args s))) /\
    args s' = args s /\
    names s' = names s /\
    global_step s' = global_step s.
Proof.
  unfold startup, startup_calls. run.
  destruct (path_exists (device s) (save_path env (args s)));
    cbn [negb]; run;
    destruct ((local_rank (args s) =? -1) || no_cuda (args s)); run;
    eexists; (split; [reflexivity|]); repeat split.
Qed.

Lemma check_gradient_accumulation_steps_run s :
  check_gradient_accumulation_steps (X := X) s
  = mkOut [] s (if gradient_accumulation_steps (args s) <? 1
                then Raise ValueError else Ok tt).
Proof.
  unfold check_gradient_accumulation_steps. rewrite bind_get.
  now destruct (gradient_accumulation_steps (args s) <? 1).
Qed.

Lemma check_do_train_run s :
  check_do_train (X := X) s
  = mkOut [] s (if do_train (args s) then Ok tt else Raise ValueError).
Proof.
  unfold check_do_train. rewrite bind_get. now destruct (do_train (args s)).
Qed.

(** Lines 254-275 always raise: the training split reads a name that no
    line binds, and any other split fails the assertion. *)
Lemma load_datasets_run (timeStamp : string) s :
  names s !! "image_features_reader_train" = None ->
  exists s',
    load_datasets timeStamp s
    = mkOut [ENewTBlogger ("logs/" +:+ timeStamp);
             ELoadTokenizer (bert_model (args s));
             EOpenFeatures (features_h5path (args s))]
        s'
        (Raise (if String.eqb (split (args s)) "train"
                   || String.eqb (split (args s)) "trainval"
                then NameError else AssertionError)) /\
    args s' = args s /\
    global_step s' = global_step s /\
    names s' !! "image_features_reader_train" = None /\
    names s' !! "image_features_reader"
    = Some (ImageFeaturesH5Reader (features_h5path (args s)) true).
Proof.
  intros Hn.
  assert (Hl : forall v1 v2 v3,
             (<["image_features_reader" := v1]>
                (<["tokenizer" := v2]> (<["viz" := v3]> (names s))))
             !! "image_features_reader_train" = None).
  { intros. now rewrite !lookup_insert_ne by discriminate. }
  unfold load_datasets, store, load. run.
  destruct (String.eqb (split (args s)) "train");
    [|destruct (String.eqb (split (args s)) "trainval")];
    cbn [orb]; run; rewrite ?Hl; run;
    eexists; (split; [reflexivity|]); run;
    (split; [reflexivity|]); (split; [reflexivity|]);
    (split; [apply Hl | apply lookup_insert_eq]).
Qed.

(** Every run of [main] ends in an exception, and where it ends is decided
    by lines 224, 239 and 264-275, in that order. *)
Lemma main_run (env : Env) (a : Args) (w : W) :
  let K := gradient_accumulation_steps a in
  exists s' mk,
    (mk = [] \/ mk = [EMakedirs (output_dir a)]) /\
    run_main env a w =
    (if K <? 1 then mkOut (startup_calls env a w) s' (Raise ValueError)
     else if negb (do_train a)
     then mkOut (startup_calls env a w) s' (Raise ValueError)
     else mkOut
            (startup_calls env a w
             ++ mk
             ++ [ENewTBlogger ("logs/" +:+ time_stamp env a);
                 ELoadTokenizer (bert_model a);
                 EOpenFeatures (features_h5path a)])
            s'
            (Raise (if String.eqb (split a) "train"
                       || String.eqb (split a) "trainval"
                    then NameError else AssertionError))) /\
    global_step s' = 0 /\
    names s' !! "image_features_reader_train" = None /\
    (if K <? 1 then args s' = a /\ names s' = ∅
     else
       args s' = set_train_batch_size (train_batch_size a / K) a /\
       (do_train a = true ->
        names s' !! "image_features_reader"
        = Some (ImageFeaturesH5Reader (features_h5path a) true))).
Proof.
  cbv zeta. unfold run_main.
  destruct (startup_run env (initial_state a w))
    as (s1 & Hst & Ha1 & Hn1 & Hg1).
  cbn [initial_state args names global_step device] in Hst, Ha1, Hn1, Hg1.
  pose proof (check_gradient_accumulation_steps_run s1) as Hck.
  rewrite Ha1 in Hck.
  destruct (gradient_accumulation_steps a <? 1) eqn:HK.
  { exists s1, []. split; [now left|]. split.
    - unfold main. eapply eq_trans.
      + eapply bind_Ok; [exact Hst|]. cbv beta iota.
        eapply bind_Raise. exact Hck.
      + now rewrite app_nil_r.
    - split; [exact Hg1|]. split; [now rewrite Hn1|]. now split. }
  set (s2 := set_args
               (fun a0 => set_train_batch_size
                            (train_batch_size a0
                             / gradient_accumulation_steps a0) a0) s1).
  assert (Ha2 : args s2
                = set_train_batch_size
                    (train_batch_size a / gradient_accumulation_steps a) a)
    by (unfold s2; cbn [set_args args]; now rewrite Ha1).
  pose proof (check_do_train_run s2) as Hdt. rewrite Ha2 in Hdt.
  cbn [set_train_batch_size do_train] in Hdt.
  destruct (do_train a) eqn:Hd; cbn [negb].
  2: { exists s2, []. split; [now left|]. split.
       - unfold main. eapply eq_trans.
         + eapply bind_Ok; [exact Hst|]. cbv beta iota.
           eapply bind_Ok; [exact Hck|]. rewrite bind_modify. fold s2.
           eapply bind_Raise. exact Hdt.
         + now rewrite app_nil_r.
       - split; [exact Hg1|]. split; [cbn; now rewrite Hn1|].
         split; [exact Ha2 | discriminate]. }
  assert (Hod : output_dir (args s2) = output_dir a) by now rewrite Ha2.
  set (c := path_exists (device s2) (output_dir (args s2))).
  set (mk := if c then [] else [EMakedirs (X := X) (output_dir a)]).
  set (s3 := if c then s2
             else set_device (apply_event (EMakedirs (output_dir a))) s2).
  assert (Hmk : when (negb c) (emit (EMakedirs (output_dir (args s2)))) s2
                = mkOut mk s3 (Ok tt)).
  { rewrite Hod. unfold mk, s3. now destruct c. }
  assert (Hs3 : args s3 = args s2 /\ names s3 = names s2
                /\ global_step s3 = global_step s2)
    by (unfold s3; now destruct c).
  destruct Hs3 as (Ha3 & Hn3 & Hg3).
  destruct (load_datasets_run (time_stamp env a) s3)
    as (s4 & Hld & Ha4 & Hg4 & Hn4 & Hr4).
  { rewrite Hn3. cbn. now rewrite Hn1. }
  rewrite Ha3, Ha2 in Hld, Ha4, Hr4.
  cbn [set_train_batch_size bert_model features_h5path split] in Hld, Hr4.
  exists s4, mk. split; [unfold mk; destruct c; auto|]. split.
  - unfold main. eapply eq_trans.
    + eapply bind_Ok; [exact Hst|]. cbv beta iota.
      eapply bind_Ok; [exact Hck|]. rewrite bind_modify. fold s2.
      eapply bind_Ok; [exact Hdt|]. rewrite bind_get. fold c.
      eapply bind_Ok; [exact Hmk|].
      eapply bind_Raise. exact Hld.
    + cbn [app]. reflexivity.
  - split; [rewrite Hg4, Hg3; exact Hg1|]. split; [exact Hn4|].
    split; [exact Ha4|]. intros _. exact Hr4.
Qed.

(** C9. With an accumulation count below 1, [main] raises [ValueError]
    after the start-up calls only: no dataset, model or optimizer has been
    built and no call of the training loop has been made, the arguments are
    as given and no name has been bound.  With a count of at least 1 the
    check of line 224 returns normally, and [main] goes on to divide the
    batch size (line 231). *)
Theorem invalid_accumulation_rejected (env : Env) (a : Args) (w : W) :
  let K := gradient_accumulation_steps a in
  let o := run_main env a w in
  (K < 1 ->
   out_res o = Raise ValueError /\
   out_events o = startup_calls env a w /\
   count_events is_construction (out_events o) = 0%nat /\
   count_events is_training_call (out_events o) = 0%nat /\
   args (out_state o) = a /\
   names (out_state o) = ∅) /\
  (1 <= K ->
   (forall s0 : St W,
       args s0 = a ->
       check_gradient_accumulation_steps (X := X) s0 = mkOut [] s0 (Ok tt)) /\
   train_batch_size (args (out_state o)) = train_batch_size a / K).
Proof.
  cbv zeta.
  destruct (main_run env a w) as (s' & mk & _ & Hrun & _ & _ & Hst).
  cbv zeta in Hrun, Hst. split.
  - intros HK. apply Z.ltb_lt in HK. rewrite HK in Hrun, Hst.
    rewrite Hrun. cbn [out_res out_events out_state].
    destruct Hst as (Ha & Hn).
    repeat split; try assumption; unfold startup_calls;
      destruct (path_exists w (save_path env a));
      destruct ((local_rank a =? -1) || no_cuda a); reflexivity.
  - intros HK. apply Z.ltb_ge in HK. rewrite HK in Hrun, Hst. split.
    + intros s0 Ha. rewrite check_gradient_accumulation_steps_run, Ha.
      now rewrite HK.
    + destruct Hst as (Ha & _).
      assert (Hs : out_state (run_main env a w) = s').
      { rewrite Hrun. destruct (negb (do_train a)); reflexivity. }
      rewrite Hs, Ha. reflexivity.
Qed.

(** C10, as the code has it.  With an accumulation count of at least 1,
    [do_train] set and the split [train] or [trainval], [main] raises
    [NameError] while it loads the datasets: the feature reader has been
    opened and bound to [image_features_reader], the name
    [image_features_reader_train] is bound to nothing, and no dataset, model
    or optimizer has been built and no call of the training loop made. *)
Theorem dataset_loading_raises_NameError (env : Env) (a : Args) (w : W) :
  let o := run_main env a w in
  1 <= gradient_accumulation_steps a ->
  do_train a = true ->
  split a = "train" \/ split a = "trainval" ->
  out_res o = Raise NameError /\
  last (out_events o) = Some (EOpenFeatures (features_h5path a)) /\
  names (out_state o) !! "image_features_reader_train" = None /\
  names (out_state o) !! "image_features_reader"
  = Some (ImageFeaturesH5Reader (features_h5path a) true) /\
  count_events is_construction (out_events o) = 0%nat /\
  count_events is_training_call (out_events o) = 0%nat.
Proof.
  cbv zeta. intros HK Hd Hsp.
  destruct (main_run env a w) as (s' & mk & Hmk & Hrun & _ & Hn & Hst).
  cbv zeta in Hrun, Hst. apply Z.ltb_ge in HK.
  rewrite HK, Hd in Hrun. rewrite HK in Hst. cbn [negb] in Hrun.
  assert (Hx : String.eqb (split a) "train"
               || String.eqb (split a) "trainval" = true).
  { destruct Hsp as [-> | ->]; reflexivity. }
  rewrite Hx in Hrun. rewrite Hrun. cbn [out_res out_events out_state].
  destruct Hst as (_ & Hr).
  split; [reflexivity|]. split; [now rewrite !last_app|].
  split; [exact Hn|]. split; [exact (Hr Hd)|].
  rewrite !count_events_app. unfold startup_calls.
  destruct Hmk as [-> | ->];
    destruct (path_exists w (save_path env a));
    destruct ((local_rank a =? -1) || no_cuda a); split; reflexivity.
Qed.

(** ** The step counter over the whole loop *)

Lemma steps_counted_ret {A} (a : A) : steps_counted (X := X) (W := W) (ret a).
Proof. intros s. cbn. split; [apply same_control_refl | lia]. Qed.

Lemma steps_counted_lift {A} (r : result A) :
  steps_counted (X := X) (W := W) (lift r).
Proof. intros s. cbn. split; [apply same_control_refl | lia]. Qed.

Lemma steps_counted_get : steps_counted (X := X) (W := W) get.
Proof. intros s. cbn. split; [apply same_control_refl | lia]. Qed.

Lemma steps_counted_emit (e : event X) :
  is_optimizer_step e = false -> steps_counted (emit e).
Proof.
  intros He s. cbn [emit out_state out_events].
  rewrite count_events_cons, He. cbn. split; [repeat split | lia].
Qed.

Lemma steps_counted_modify (g : St W -> St W) :
  (forall s, same_control s (g s) /\ global_step (g s) = global_step s) ->
  steps_counted (X := X) (modify g).
Proof.
  intros Hg s. cbn [modify out_state out_events].
  destruct (Hg s) as (Hc & Hs). split; [exact Hc | cbn; lia].
Qed.

Lemma steps_counted_bind {A B} (m : M X W A) (f : A -> M X W B) :
  steps_counted m -> (forall a, steps_counted (f a)) ->
  steps_counted (bind m f).
Proof.
  intros Hm Hf s. unfold bind. specialize (Hm s).
  destruct (m s) as [ev1 s1 [a|x]]; cbn [out_state out_events] in Hm |- *;
    [|exact Hm].
  specialize (Hf a s1). destruct (f a s1) as [ev2 s2 r2].
  cbn [out_state out_events] in Hf |- *.
  destruct Hm as (Hc1 & Hg1), Hf as (Hc2 & Hg2).
  split; [eauto using same_control_trans|].
  rewrite count_events_app. lia.
Qed.

Lemma steps_counted_when (c : bool) (m : M X W unit) :
  steps_counted m -> steps_counted (when c m).
Proof. destruct c; [trivial | intros _; apply steps_counted_ret]. Qed.

Lemma steps_counted_for_each {A} (body : A -> M X W unit) (l : list A) :
  (forall a, steps_counted (body a)) -> steps_counted (for_each body l).
Proof.
  intros Hb. induction l as [|a l IH]; cbn [for_each].
  - apply steps_counted_ret.
  - apply steps_counted_bind; [apply Hb | intros _; exact IH].
Qed.

Lemma steps_counted_for_enumerate {A} (body : Z -> A -> M X W unit)
    (l : list A) (start : Z) :
  (forall i a, steps_counted (body i a)) ->
  steps_counted (for_enumerate body start l).
Proof.
  intros Hb. revert start. induction l as [|a l IH]; intros start;
    cbn [for_enumerate].
  - apply steps_counted_ret.
  - apply steps_counted_bind; [apply Hb | intros _; apply IH].
Qed.

Lemma steps_counted_fold_for {A S} (body : S -> A -> M X W S) (l : list A)
    (acc : S) :
  (forall acc a, steps_counted (body acc a)) ->
  steps_counted (fold_for body acc l).
Proof.
  intros Hb. revert acc. induction l as [|a l IH]; intros acc; cbn [fold_for].
  - apply steps_counted_ret.
  - apply steps_counted_bind; [apply Hb | intros acc'; apply IH].
Qed.

Lemma steps_counted_micro_batch (len epochId step : Z) (b : Batch X) :
  steps_counted (micro_batch len epochId step b).
Proof.
  intros s. destruct (micro_batch_steps len epochId step b s) as (Hc & Hg & _).
  now split.
Qed.

Create HintDb steps discriminated.

#[local] Hint Resolve steps_counted_ret steps_counted_get steps_counted_lift
  steps_counted_when steps_counted_bind steps_counted_for_each
  steps_counted_for_enumerate steps_counted_fold_for
  steps_counted_micro_batch : steps.
#[local] Hint Extern 1 (steps_counted (emit _)) =>
  apply steps_counted_emit; reflexivity : steps.
#[local] Hint Extern 1 (steps_counted (modify _)) =>
  apply steps_counted_modify; intros ?; split; [repeat split | reflexivity]
  : steps.
#[local] Hint Extern 1 (steps_counted (let '(_, _) := ?p in _)) =>
  destruct p : steps.

Lemma steps_counted_evaluate (pass : Z) (dl : DataLoader X) :
  steps_counted (evaluate pass dl).
Proof.
  unfold evaluate. apply steps_counted_bind.
  - apply steps_counted_fold_for. intros [[sc ub] n] b.
    unfold evaluate_batch, call_model. auto 20 with steps.
  - intros [[sc ub] n]. auto 20 with steps.
Qed.

#[local] Hint Resolve steps_counted_evaluate : steps.

Lemma steps_counted_train_epoch (tdl edl : DataLoader X) (savePath : string)
    (epochId : Z) :
  steps_counted (train_epoch tdl edl savePath epochId).
Proof. unfold train_epoch, train_batches. auto 40 with steps. Qed.

(** ** An epoch runs to its end *)



(** C4. A micro-batch moves [global_step] by the number of optimizer steps
    it makes: one when the test of line 459 holds and the step is reached,
    none on every other micro-batch.  So the counter never goes down, over
    the micro-batches of an epoch and over any number of epochs with their
    evaluations, and over an epoch that runs its [N] micro-batches with
    [K >= 1] it grows by [N / K]. *)
Theorem global_step_counts_logical_steps (len epochId : Z)
    (batches : list (Batch X)) s :
  (forall (step : Z) (b : Batch X) (s0 : St W),
      let o := micro_batch len epochId step b s0 in
      global_step (out_state o)
      = global_step s0
        + Z.of_nat (count_events is_optimizer_step (out_events o)) /\
      (count_events is_optimizer_step (out_events o) <= 1)%nat /\
      (fires (gradient_accumulation_steps (args s0)) step = false ->
       global_step (out_state o) = global_step s0)) /\
  (forall (tdl edl : DataLoader X) (savePath : string) (epochs : list Z)
          (s0 : St W),
      let o := for_each (train_epoch tdl edl savePath) epochs s0 in
      global_step (out_state o)
      = global_step s0
        + Z.of_nat (count_events is_optimizer_step (out_events o)) /\
      global_step s0 <= global_step (out_state o)) /\
  let o := train_batches len epochId batches s in
  global_step s <= global_step (out_state o) /\
  (1 <= gradient_accumulation_steps (args s) ->
   out_res o = Ok tt ->
   global_step (out_state o)
   = global_step s
     + Z.of_nat (length batches) / gradient_accumulation_steps (args s)).
Proof.
  split; [|split].
  - intros step b s0. cbv zeta.
    destruct (micro_batch_steps len epochId step b s0) as (_ & Hg & Hn).
    split; [exact Hg|]. rewrite Hg, Hn.
    destruct (fires _ _); [destruct (out_res _)|]; split; try lia;
      intros; try discriminate; cbn; lia.
  - intros tdl edl savePath epochs s0. cbv zeta.
    destruct (steps_counted_for_each (train_epoch tdl edl savePath) epochs
                (steps_counted_train_epoch tdl edl savePath) s0) as (_ & Hg).
    split; [exact Hg | lia].
  - cbv zeta. unfold train_batches.
    destruct (for_enumerate_micro_batch_steps len epochId batches 0 s)
      as (_ & Hg & Hcount).
    split; [lia|]. intros HK Hok.
    rewrite Hg, (Hcount HK Hok), Z.add_0_l, Zdiv_0_l. lia.
Qed.

End Runs.

(** * More of the program *)

(** ** The warm-up of the schedule *)

Lemma lr_lambda_update_warmup (i_iter : Z) :
  i_iter <= warmup_iterations ->
  (lr_lambda_update i_iter == (1000 + 4 * i_iter) # 5000)%Q.
Proof.
  intros H. unfold lr_lambda_update.
  destruct (Z.leb_spec i_iter warmup_iterations) as [_|]; [|lia].
  unfold warmup_factor, warmup_iterations.
  unfold Qeq, Qdiv, Qmult, Qplus, Qminus, Qopp, Qinv, inject_Z. simpl. lia.
Qed.

(** X1. From iteration 0 on, the multiplier of [lr_lambda_update] starts at
    0.2, never decreases, reaches 1 at iteration 1000 and never exceeds
    1. *)
Theorem lr_lambda_update_monotone (i j : Z) :
  0 <= i <= j ->
  (2 # 10 <= lr_lambda_update i)%Q /\
  (lr_lambda_update i <= lr_lambda_update j)%Q /\
  (lr_lambda_update j <= 1)%Q /\
  (lr_lambda_update 0 == 2 # 10)%Q /\
  (lr_lambda_update warmup_iterations == 1)%Q.
Proof.
  intros Hij.
  assert (Hval : forall k, 0 <= k ->
            (2 # 10 <= lr_lambda_update k)%Q /\ (lr_lambda_update k <= 1)%Q).
  { intros k Hk. destruct (Z_le_gt_dec k warmup_iterations) as [Hle|Hgt].
    - rewrite (lr_lambda_update_warmup k Hle).
      unfold warmup_iterations in Hle. unfold Qle. simpl. lia.
    - rewrite (lr_lambda_update_post_warmup k) by lia.
      split; unfold Qle; simpl; lia. }
  split; [apply Hval; lia|]. split; [|split; [apply Hval; lia|]].
  - destruct (Z_le_gt_dec j warmup_iterations) as [Hj|Hj].
    + rewrite (lr_lambda_update_warmup i), (lr_lambda_update_warmup j) by lia.
      unfold Qle. simpl. lia.
    + rewrite (lr_lambda_update_post_warmup j) by lia. apply Hval. lia.
  - split; reflexivity.
Qed.

(** ** The training loss *)

Lemma concat_length_rectangular (m : matrix) (c : nat) :
  Forall (fun r => length r = c) m ->
  length (concat m) = (length m * c)%nat.
Proof.
  induction 1 as [|r m Hr _ IH]; [reflexivity|].
  cbn [concat length]. rewrite length_app, IH, Hr. lia.
Qed.

(** X2. For [n > 0] examples and [c > 0] classes (logits and labels both
    [n] by [c]), [instance_bce_with_logits] is the sum of all elementwise
    terms divided by [n]: the mean over the examples of the per-example
    sum. *)
Theorem instance_bce_with_logits_per_example
    (kernel : Q -> Q -> Q) (logits labels : matrix) (c : nat) :
  same_shape logits labels = true ->
  Forall (fun r => length r = c) labels ->
  labels <> [] -> (0 < c)%nat ->
  exists loss : Q,
    instance_bce_with_logits kernel logits labels = Ok loss /\
    (loss == Qsum (zip_with kernel (concat logits) (concat labels))
             / Qnat (length labels))%Q.
Proof.
  intros Hsh Hrect Hne Hc.
  unfold instance_bce_with_logits, binary_cross_entropy_with_logits.
  rewrite Hsh. cbn [rbind]. eexists. split; [reflexivity|].
  unfold tensor_mean. rewrite length_zip_with.
  rewrite (same_shape_concat_length _ _ Hsh), Nat.min_id.
  rewrite (concat_length_rectangular _ _ Hrect).
  assert (Hw : size1 labels = c).
  { unfold size1. destruct labels as [|r labels]; [congruence|].
    now inversion Hrect. }
  rewrite Hw. unfold Qnat. rewrite Nat2Z.inj_mul, inject_Z_mult.
  assert (Hn0 : ~ (inject_Z (Z.of_nat (length labels)) == 0)%Q).
  { destruct labels; [congruence|]. unfold Qeq. simpl. lia. }
  assert (Hc0 : ~ (inject_Z (Z.of_nat c) == 0)%Q).
  { unfold Qeq. simpl. lia. }
  field. split; assumption.
Qed.

(** ** The match score *)

Lemma one_hot_row_lookup (k j : nat) (trow : list Q) (t : Q) :
  trow !! j = Some t ->
  one_hot_row k trow !! j = Some (if (j =? k)%nat then 1%Q else 0%Q).
Proof.
  intros Ht. unfold one_hot_row. rewrite list_lookup_insert.
  pose proof (lookup_lt_Some _ _ _ Ht) as Hlt.
  destruct (Nat.eqb_spec j k) as [->|Hne].
  - destruct (decide _) as [_|Hn]; [reflexivity|].
    exfalso. apply Hn. split; [reflexivity | now rewrite length_map].
  - destruct (decide _) as [[-> _]|_]; [congruence|].
    change (map ?f ?l) with (f <$> l). now rewrite list_lookup_fmap, Ht.
Qed.

(** X3. With logits and labels of one shape and no empty row, the scores
    of [compute_score_with_logits] have the shape of the labels, and in every
    row the entry at the position of the largest logit is the label there and
    every other entry is 0. *)
Theorem compute_score_with_logits_entries (logits labels : matrix) :
  same_shape logits labels = true ->
  Forall (fun r => r <> []) logits ->
  exists scores : matrix,
    compute_score_with_logits logits labels = Ok scores /\
    same_shape scores labels = true /\
    forall (i j : nat) (lrow trow : list Q) (v t : Q) (k : nat),
      logits !! i = Some lrow -> labels !! i = Some trow ->
      row_max lrow = Ok (v, k) -> trow !! j = Some t ->
      exists (srow : list Q) (x : Q),
        scores !! i = Some srow /\ srow !! j = Some x /\
        (x == if (j =? k)%nat then t else 0)%Q.
Proof.
  intros Hsh Hne.
  destruct (compute_score_with_logits_rows logits labels Hsh Hne)
    as (mx & Hall & Hrun).
  eexists. split; [exact Hrun|]. split.
  { pose proof (Forall2_length _ _ _ Hall) as Hl1.
    pose proof (same_shape_length _ _ Hsh) as Hl2.
    clear Hrun Hall Hsh Hne.
    assert (Hl : length (map snd mx) = length labels)
      by (rewrite length_map; lia).
    clear Hl1 Hl2. revert Hl. generalize (map snd mx). clear.
    induction labels as [|t labels IH]; intros [|k ks] Hl;
      simpl in Hl; try discriminate; [reflexivity|].
    cbn [zip_with same_shape]. rewrite IH by lia.
    unfold one_hot_row. rewrite length_zip_with, length_insert, length_map.
    now rewrite Nat.min_id, Nat.eqb_refl. }
  intros i j lrow trow v t k Hl Ht Hrow Hj.
  destruct (Forall2_lookup_l _ _ _ _ _ Hall Hl) as ([v' k'] & Hmx & Hrow').
  rewrite Hrow in Hrow'. inversion Hrow'; subst v' k'.
  exists (zip_with Qmult (one_hot_row k trow) trow),
         ((if (j =? k)%nat then 1 else 0) * t)%Q.
  split; [|split].
  - apply lookup_zip_with_Some. exists (one_hot_row k trow), trow.
    split; [reflexivity|]. split; [|exact Ht].
    apply lookup_zip_with_Some. exists k, trow.
    split; [reflexivity|]. split; [|exact Ht].
    change (map snd mx) with (snd <$> mx).
    rewrite list_lookup_fmap, Hmx. reflexivity.
  - apply lookup_zip_with_Some. eexists _, t.
    split; [reflexivity|]. split; [|exact Hj].
    now apply one_hot_row_lookup with (t := t).
  - destruct (j =? k)%nat; ring.
Qed.

Section More.

Context {X W : Type} `{!Externals X W}.

Implicit Types (s : St W) (e : event X) (l : list (event X)).

Ltac run :=
  unfold bind, ret, raise, emit, get, modify, lift, when;
  cbn [for_each for_enumerate fold_for out_events out_state out_res app
       device names args n_gpu num_train_optimization_steps param_groups
       global_step loss_tmp total_loss train_score nb_tr_examples
       nb_tr_steps
       set_device set_names set_args set_n_gpu
       set_num_train_optimization_steps set_param_groups set_global_step
       set_loss_tmp set_total_loss set_train_score set_nb_tr_examples
       set_nb_tr_steps].

(** ** Computations confined to some calls and some change of state *)

Section Confined.

Variable P : event X -> bool.
Variable R : St W -> St W -> Prop.
Hypothesis R_refl : forall s, R s s.
Hypothesis R_trans : forall s1 s2 s3, R s1 s2 -> R s2 s3 -> R s1 s3.

Lemma confined_ret {A} (a : A) : confined P R (ret a).
Proof. intros s. split; [reflexivity | apply R_refl]. Qed.

Lemma confined_raise {A} (x : exn) : confined (A := A) P R (raise x).
Proof. intros s. split; [reflexivity | apply R_refl]. Qed.

Lemma confined_lift {A} (r : result A) : confined P R (lift r).
Proof. intros s. split; [reflexivity | apply R_refl]. Qed.

Lemma confined_get : confined P R get.
Proof. intros s. split; [reflexivity | apply R_refl]. Qed.

Lemma confined_emit e :
  P e = true -> (forall s, R s (set_device (apply_event e) s)) ->
  confined P R (emit e).
Proof. intros He Hs s. cbn. rewrite He. split; [reflexivity | apply Hs]. Qed.

Lemma confined_modify (g : St W -> St W) :
  (forall s, R s (g s)) -> confined P R (modify g).
Proof. intros Hg s. split; [reflexivity | apply Hg]. Qed.

Lemma confined_bind {A B} (m : M X W A) (f : A -> M X W B) :
  confined P R m -> (forall a, confined P R (f a)) -> confined P R (bind m f).
Proof.
  intros Hm Hf s. unfold bind. specialize (Hm s).
  destruct (m s) as [ev1 s1 [a|x]]; cbn [out_state out_events] in Hm |- *;
    [|exact Hm].
  specialize (Hf a s1). destruct (f a s1) as [ev2 s2 r2].
  cbn [out_state out_events] in Hf |- *.
  destruct Hm as (Hp1 & Hr1), Hf as (Hp2 & Hr2).
  split; [|eauto]. rewrite forallb_app, Hp1, Hp2. reflexivity.
Qed.

Lemma confined_when (c : bool) (m : M X W unit) :
  confined P R m -> confined P R (when c m).
Proof. destruct c; [trivial | intros _; apply confined_ret]. Qed.

Lemma confined_for_each {A} (body : A -> M X W unit) (l : list A) :
  (forall a, confined P R (body a)) -> confined P R (for_each body l).
Proof.
  intros Hb. induction l as [|a l IH]; cbn [for_each].
  - apply confined_ret.
  - apply confined_bind; [apply Hb | intros _; exact IH].
Qed.

Lemma confined_for_enumerate {A} (body : Z -> A -> M X W unit)
    (l : list A) (start : Z) :
  (forall i a, confined P R (body i a)) ->
  confined P R (for_enumerate body start l).
Proof.
  intros Hb. revert start. induction l as [|a l IH]; intros start;
    cbn [for_enumerate].
  - apply confined_ret.
  - apply confined_bind; [apply Hb | intros _; apply IH].
Qed.

Lemma confined_fold_for {A S} (body : S -> A -> M X W S) (l : list A)
    (acc : S) :
  (forall acc a, confined P R (body acc a)) ->
  confined P R (fold_for body acc l).
Proof.
  intros Hb. revert acc. induction l as [|a l IH]; intros acc; cbn [fold_for].
  - apply confined_ret.
  - apply confined_bind; [apply Hb | intros acc'; apply IH].
Qed.

End Confined.

Lemma same_but_device_refl s : same_but_device s s.
Proof. now destruct s. Qed.

Lemma same_but_device_trans s1 s2 s3 :
  same_but_device s1 s2 -> same_but_device s2 s3 -> same_but_device s1 s3.
Proof.
  unfold same_but_device. intros H1 H2. rewrite H2, H1 at 1.
  destruct s1; reflexivity.
Qed.

(** X4. Whatever the data and the model, and however it ends, [evaluate]
    calls nothing but forward passes with gradient tracking off, and leaves
    every variable of [main] as it was: only the device may have moved. *)
Theorem evaluate_only_forwards (pass : Z) (dl : DataLoader X) s :
  let o := evaluate pass dl s in
  forallb is_no_grad_forward (out_events o) = true /\
  same_but_device s (out_state o) /\
  global_step (out_state o) = global_step s /\
  param_groups (out_state o) = param_groups s /\
  names (out_state o) = names s.
Proof.
  cbv zeta.
  assert (Hc : confined is_no_grad_forward same_but_device (evaluate pass dl)).
  { unfold evaluate.
    apply confined_bind;
      [exact same_but_device_trans | |].
    - apply confined_fold_for;
        [exact same_but_device_refl | exact same_but_device_trans |].
      intros [[sc ub] n] b. unfold evaluate_batch, call_model.
      repeat first
        [ apply confined_ret; exact same_but_device_refl
        | apply confined_get; exact same_but_device_refl
        | apply confined_lift; exact same_but_device_refl
        | apply confined_emit; [reflexivity | intros s0; now destruct s0]
        | apply confined_bind; [exact same_but_device_trans | | intros ?] ].
    - intros [[sc ub] n].
      repeat first
        [ apply confined_ret; exact same_but_device_refl
        | apply confined_lift; exact same_but_device_refl
        | apply confined_bind; [exact same_but_device_trans | | intros ?] ]. }
  destruct (Hc s) as (Hp & Hr). split; [exact Hp|]. split; [exact Hr|].
  rewrite Hr. repeat split.
Qed.

(** ** The score and its upper bound *)

Lemma match_score_le_max_weight (lrow trow : list Q) :
  length lrow = length trow -> lrow <> [] ->
  (match_score lrow trow <= max_weight trow)%Q.
Proof.
  intros Hlen Hne.
  destruct (row_max_nonempty lrow Hne) as (v & k & Hl).
  assert (Hne' : trow <> []) by (destruct lrow, trow; simpl in *; congruence).
  destruct (row_max_nonempty trow Hne') as (v' & k' & Ht).
  unfold match_score, max_weight. rewrite Hl, Ht.
  apply row_max_spec in Hl as (Hk & _). apply row_max_spec in Ht as (_ & Hall).
  apply lookup_lt_Some in Hk. rewrite Hlen in Hk.
  apply lookup_lt_is_Some_2 in Hk as (t & Hk).
  rewrite (nth_lookup_Some _ _ _ _ Hk).
  rewrite Forall_forall in Hall. apply Hall.
  eapply list_elem_of_lookup_2. exact Hk.
Qed.

Lemma row_scores_le_row_maxima (logits labels : matrix)
    (mxl mx : list (Q * nat)) :
  same_shape logits labels = true ->
  Forall2 (fun r vk => row_max r = Ok vk) logits mxl ->
  Forall2 (fun r vk => row_max r = Ok vk) labels mx ->
  Forall2 (fun srow m => (Qsum srow <= fst m)%Q)
    (zip_with (zip_with Qmult)
       (zip_with one_hot_row (map snd mxl) labels) labels)
    mx.
Proof.
  intros Hsh Hl. revert labels mx Hsh.
  induction Hl as [|lrow [v k] logits mxl Hr _ IH];
    intros [|trow labels] mx Hsh Ht; simpl in Hsh; try discriminate Hsh.
  - inversion Ht. constructor.
  - inversion Ht as [|? [v' k'] ? mx' Hr' Ht']; subst.
    apply andb_true_iff in Hsh as (Hlen & Hsh). apply Nat.eqb_eq in Hlen.
    cbn [map snd zip_with]. constructor; [|now apply IH].
    rewrite Qsum_one_hot_any. cbn [fst].
    assert (Hne : lrow <> []) by (destruct lrow; [discriminate Hr|discriminate]).
    pose proof (match_score_le_max_weight lrow trow Hlen Hne) as H.
    unfold match_score, max_weight in H. now rewrite Hr, Hr' in H.
Qed.

(** X5. For logits and labels of one shape with no empty row, the score of
    each example (the sum of its row of [compute_score_with_logits], which
    is the label at the position of its largest logit) is at most the
    largest label of that example, the term that line 540 adds to the upper
    bound for it.  Each of the two is one entry of the labels, so that
    rounding has no part in the comparison. *)
Theorem example_score_below_bound (logits labels : matrix) :
  same_shape logits labels = true ->
  Forall (fun r => r <> []) logits ->
  exists (scores : matrix) (mx : list (Q * nat)),
    compute_score_with_logits logits labels = Ok scores /\
    torch_max1 labels = Ok mx /\
    Forall2 (fun srow m => (Qsum srow <= fst m)%Q) scores mx.
Proof.
  intros Hsh Hne.
  destruct (compute_score_with_logits_rows _ _ Hsh Hne) as (mxl & Hl & Hs).
  destruct (torch_max1_ok labels (same_shape_nonempty _ _ Hsh Hne))
    as (mx & Hmx & Ht).
  eexists _, mx. split; [exact Hs|]. split; [exact Hmx|].
  now apply (row_scores_le_row_maxima logits).
Qed.

(** ** Where [main] ends *)

Lemma count_startup_calls (env : Env) (a : Args) (w : W) :
  count_events is_construction (startup_calls env a w) = 0%nat /\
  count_events is_training_call (startup_calls env a w) = 0%nat.
Proof.
  unfold startup_calls.
  destruct (path_exists w (save_path env a));
    destruct ((local_rank a =? -1) || no_cuda a); split; reflexivity.
Qed.

(** X6. No run of [main] returns normally: whatever the arguments and the
    machine, it ends in an exception before any dataset, model or optimizer
    is built and before any call of the training loop, with the step counter
    at 0 and [image_features_reader_train] bound to nothing. *)
Theorem main_never_trains (env : Env) (a : Args) (w : W) :
  let o := run_main env a w in
  (exists x : exn, out_res o = Raise x) /\
  count_events is_construction (out_events o) = 0%nat /\
  count_events is_training_call (out_events o) = 0%nat /\
  global_step (out_state o) = 0 /\
  names (out_state o) !! "image_features_reader_train" = None.
Proof.
  cbv zeta.
  destruct (main_run env a w) as (s' & mk & Hmk & Hrun & Hg & Hn & _).
  cbv zeta in Hrun. destruct (count_startup_calls env a w) as (Hc & Ht).
  destruct (gradient_accumulation_steps a <? 1);
    [|destruct (negb (do_train a))]; rewrite Hrun;
    cbn [out_res out_events out_state]; rewrite ?count_events_app, ?Hc, ?Ht;
    (split; [eexists; reflexivity|]);
    destruct Hmk as [-> | ->]; repeat split; assumption.
Qed.

(** X7. Without [--do_train] and with an accumulation count of at least
    1, [main] raises [ValueError] (line 240) after the start-up calls only;
    the batch size has by then been divided by the accumulation count, and no
    name has been bound. *)
Theorem main_without_do_train (env : Env) (a : Args) (w : W) :
  let o := run_main env a w in
  1 <= gradient_accumulation_steps a ->
  do_train a = false ->
  out_res o = Raise ValueError /\
  out_events o = startup_calls env a w /\
  train_batch_size (args (out_state o))
  = train_batch_size a / gradient_accumulation_steps a /\
  names (out_state o) !! "image_features_reader" = None.
Proof.
  cbv zeta. intros HK Hd.
  destruct (startup_run env (initial_state a w))
    as (s1 & Hst & Ha1 & Hn1 & _).
  cbn [initial_state args names device] in Hst, Ha1, Hn1.
  pose proof (check_gradient_accumulation_steps_run (X := X) s1) as Hck.
  rewrite Ha1 in Hck. apply Z.ltb_ge in HK. rewrite HK in Hck.
  set (s2 := set_args
               (fun a0 => set_train_batch_size
                            (train_batch_size a0
                             / gradient_accumulation_steps a0) a0) s1).
  pose proof (check_do_train_run (X := X) s2) as Hdt.
  assert (Ha2 : args s2
                = set_train_batch_size
                    (train_batch_size a / gradient_accumulation_steps a) a)
    by (unfold s2; cbn [set_args args]; now rewrite Ha1).
  rewrite Ha2 in Hdt. cbn [set_train_batch_size do_train] in Hdt.
  rewrite Hd in Hdt.
  assert (Hrun : run_main env a w
                 = mkOut (startup_calls env a w) s2 (Raise ValueError)).
  { unfold run_main, main. eapply eq_trans.
    - eapply bind_Ok; [exact Hst|]. cbv beta iota.
      eapply bind_Ok; [exact Hck|]. rewrite bind_modify. fold s2.
      eapply bind_Raise. exact Hdt.
    - now rewrite app_nil_r. }
  rewrite Hrun. cbn [out_res out_events out_state].
  split; [reflexivity|]. split; [reflexivity|]. split; [now rewrite Ha2|].
  unfold s2. cbn [set_args names]. rewrite Hn1. apply lookup_empty.
Qed.

(** X8. With [--do_train], an accumulation count of at least 1 and a split
    that is neither [train] nor [trainval], [main] fails the assertion of
    line 275: the logger, the tokenizer and the feature reader have been
    created, and no dataset has. *)
Theorem main_unknown_split (env : Env) (a : Args) (w : W) :
  let o := run_main env a w in
  1 <= gradient_accumulation_steps a ->
  do_train a = true ->
  split a <> "train" -> split a <> "trainval" ->
  out_res o = Raise AssertionError /\
  last (out_events o) = Some (EOpenFeatures (features_h5path a)) /\
  names (out_state o) !! "image_features_reader"
  = Some (ImageFeaturesH5Reader (features_h5path a) true) /\
  count_events is_construction (out_events o) = 0%nat.
Proof.
  cbv zeta. intros HK Hd Hs1 Hs2.
  destruct (main_run env a w) as (s' & mk & Hmk & Hrun & _ & _ & Hst).
  cbv zeta in Hrun, Hst. apply Z.ltb_ge in HK.
  rewrite HK, Hd in Hrun. rewrite HK in Hst. cbn [negb] in Hrun.
  apply String.eqb_neq in Hs1, Hs2. rewrite Hs1, Hs2 in Hrun.
  cbn [orb] in Hrun. rewrite Hrun. cbn [out_res out_events out_state].
  destruct Hst as (_ & Hr).
  split; [reflexivity|]. split; [now rewrite !last_app|].
  split; [exact (Hr Hd)|].
  rewrite !count_events_app. rewrite (proj1 (count_startup_calls env a w)).
  now destruct Hmk as [-> | ->].
Qed.

(** ** The logical step *)

(** X9. A micro-batch that returns normally and on which the test of line
    459 holds makes exactly the calls [clip_grad_norm_(.., 0.25)],
    [optimizer.step()], [optimizer.zero_grad()], in this order and once each,
    in full and in reduced precision alike; every other micro-batch makes
    none of the three. *)
Theorem logical_step_calls (len epochId step : Z) (b : Batch X) s :
  let o := micro_batch len epochId step b s in
  List.filter is_update_call (out_events o)
  = if fires (gradient_accumulation_steps (args s)) step
    then match out_res o with
         | Ok _ => [EClipGradNorm (25 # 100); EOptimizerStep; EZeroGrad]
         | Raise _ => []
         end
    else [].
Proof.
  cbv zeta.
  pose proof (micro_batch_run len epochId step b s) as R. cbv zeta in R.
  destruct (instance_bce_with_logits _ _ _) as [loss|x];
    [destruct (compute_score_with_logits _ _) as [scores|x]|].
  2,3: destruct R as (s' & _ & -> & _); cbn; now destruct (fires _ _).
  destruct R as (tail & s' & Ht & _ & R).
  pose proof (filter_tail is_update_call _ tail (fun _ => eq_refl) Ht) as Hft.
  destruct (fires _ _); [destruct (fp16 (args s))|];
    destruct R as (-> & _); cbn [out_events out_res];
    rewrite ?List.filter_app, ?Hft; reflexivity.
Qed.

(** ** Reduced precision without a readable schedule *)

Lemma update_learning_rate_no_steps s (warmup : Q) (t_total : Z) :
  names s !! "warmup_linear" = Some (WarmupLinearSchedule warmup t_total) ->
  num_train_optimization_steps s = 0 ->
  update_learning_rate s = mkOut [] s (Raise ZeroDivisionError).
Proof.
  intros Hn Hz. unfold update_learning_rate, load, true_div. run.
  rewrite Hn, Hz. reflexivity.
Qed.

(** A micro-batch in reduced precision whose update of the learning rate
    raises: the backward pass has been made, nothing else. *)
Lemma micro_batch_fire_raises (len epochId step : Z) (b : Batch X) s
    (loss : Q) (scores : matrix) (x : exn) :
  let K := gradient_accumulation_steps (args s) in
  let iterId := startIterID + step + epochId * len in
  let pred := model_forward (device s) b in
  let bl := backward_loss (n_gpu s) K loss in
  fires K step = true -> fp16 (args s) = true ->
  instance_bce_with_logits bce_kernel pred (target b) = Ok loss ->
  compute_score_with_logits pred (target b) = Ok scores ->
  (forall s1, same_control s s1 -> global_step s1 = global_step s ->
              update_learning_rate s1 = mkOut [] s1 (Raise x)) ->
  exists s',
    micro_batch len epochId step b s
    = mkOut [EForward true b; EBackward true bl; ELinePlot iterId bl]
        s' (Raise x) /\
    global_step s' = global_step s /\
    param_groups s' = param_groups s.
Proof.
  cbv zeta. intros Hfire Hfp Hl Hs Hup.
  destruct (forward_backward_run (startIterID + step + epochId * len) b s)
    as (s1 & Hc1 & Hg1 & Hp1 & Hfb).
  rewrite Hl, Hs in Hfb. cbv zeta in Hfb. rewrite Hfp in Hfb.
  assert (HK : gradient_accumulation_steps (args s1)
               = gradient_accumulation_steps (args s))
    by (destruct Hc1 as (-> & _); reflexivity).
  assert (Hfp1 : fp16 (args s1) = true)
    by (destruct Hc1 as (-> & _); exact Hfp).
  exists s1. split; [|split; assumption].
  unfold micro_batch. eapply eq_trans.
  - eapply bind_Ok; [exact Hfb|]. rewrite bind_get, HK, Hfire.
    eapply bind_Raise. unfold when, optimizer_update.
    rewrite bind_get, Hfp1. eapply bind_Raise. exact (Hup s1 Hc1 Hg1).
  - now rewrite app_nil_r.
Qed.

(** X10. In reduced precision, a micro-batch on which the test of line 459
    holds raises [NameError] when [warmup_linear] is not bound, and
    [ZeroDivisionError] when it is bound to a schedule and no optimizer step
    is planned; either way the backward pass has been made, no learning rate
    written, no optimizer step made, and the step counter has not moved. *)
Theorem fire_without_readable_schedule (len epochId step : Z)
    (b : Batch X) s (loss : Q) (scores : matrix) :
  let K := gradient_accumulation_steps (args s) in
  let iterId := startIterID + step + epochId * len in
  let pred := model_forward (device s) b in
  let bl := backward_loss (n_gpu s) K loss in
  let passes := [EForward true b; EBackward true bl; ELinePlot iterId bl] in
  fires K step = true -> fp16 (args s) = true ->
  instance_bce_with_logits bce_kernel pred (target b) = Ok loss ->
  compute_score_with_logits pred (target b) = Ok scores ->
  (names s !! "warmup_linear" = None ->
   exists s',
     micro_batch len epochId step b s = mkOut passes s' (Raise NameError) /\
     global_step s' = global_step s /\ param_groups s' = param_groups s) /\
  (forall (warmup : Q) (t_total : Z),
      names s !! "warmup_linear"
      = Some (WarmupLinearSchedule warmup t_total) ->
      num_train_optimization_steps s = 0 ->
      exists s',
        micro_batch len epochId step b s
        = mkOut passes s' (Raise ZeroDivisionError) /\
        global_step s' = global_step s /\ param_groups s' = param_groups s).
Proof.
  cbv zeta. intros Hfire Hfp Hl Hs. split.
  - intros Hn.
    apply (micro_batch_fire_raises len epochId step b s loss scores NameError
             Hfire Hfp Hl Hs).
    intros s1 (_ & _ & _ & Hnm) _. apply update_learning_rate_unbound.
    now rewrite Hnm.
  - intros warmup t_total Hn Hz.
    apply (micro_batch_fire_raises len epochId step b s loss scores
             ZeroDivisionError Hfire Hfp Hl Hs).
    intros s1 (_ & _ & Hnt & Hnm) _.
    apply (update_learning_rate_no_steps s1 warmup t_total).
    + now rewrite Hnm.
    + now rewrite Hnt.
Qed.

(** X22. In reduced precision no micro-batch on which the test of line 459
    holds gets to its optimizer step: once the loss has gone through the
    backward pass, line 463 raises [NameError] when [warmup_linear] is
    unbound, [ZeroDivisionError] when it is bound and no step is planned,
    and [TypeError] in every other state, because the object bound to
    [warmup_linear] is called and is not callable.  No learning rate is
    written and the step counter does not move. *)
Theorem reduced_precision_fire_raises (len epochId step : Z)
    (b : Batch X) s (loss : Q) (scores : matrix) :
  let K := gradient_accumulation_steps (args s) in
  let pred := model_forward (device s) b in
  let o := micro_batch len epochId step b s in
  fires K step = true -> fp16 (args s) = true ->
  instance_bce_with_logits bce_kernel pred (target b) = Ok loss ->
  compute_score_with_logits pred (target b) = Ok scores ->
  out_res o
  = Raise (match names s !! "warmup_linear" with
           | None => NameError
           | Some _ =>
               if num_train_optimization_steps s =? 0
               then ZeroDivisionError else TypeError
           end) /\
  List.filter is_set_lr (out_events o) = [] /\
  count_events is_optimizer_step (out_events o) = 0%nat /\
  global_step (out_state o) = global_step s /\
  param_groups (out_state o) = param_groups s.
Proof.
  cbv zeta. intros Hfire Hfp Hl Hs.
  pose proof (micro_batch_run len epochId step b s) as R. cbv zeta in R.
  rewrite Hl, Hs, Hfire, Hfp in R.
  destruct R as (tail & s' & _ & _ & -> & Hg & Hp).
  cbn [out_events out_state out_res]. repeat split; assumption.
Qed.

(** ** The optimizer *)

(** Lines 316-382, case by case. *)
Lemma build_optimizer_run (env : Env) s :
  let a := args s in
  let groups :=
    if from_pretrained a then trainable_parameters env else 2%nat in
  exists ev s',
    build_optimizer env s
    = mkOut ev s' (if (groups =? 0)%nat then Raise ValueError else Ok tt) /\
    count_events is_training_call ev = 0%nat /\
    args s' = a /\
    num_train_optimization_steps s' = num_train_optimization_steps s /\
    global_step s' = global_step s /\
    ((groups =? 0)%nat = false ->
     param_groups s' = replicate groups (learning_rate a) /\
     names s'
     = if fp16 a && negb (Qeq_bool (loss_scale a) 0)
       then <["warmup_linear" :=
                WarmupLinearSchedule (warmup_proportion a)
                  (num_train_optimization_steps s)]> (names s)
       else names s).
Proof.
  cbv zeta. unfold build_optimizer, store. run.
  destruct (from_pretrained (args s)); run;
    try destruct (trainable_parameters env =? 0)%nat;
    destruct (fp16 (args s)); run;
    try (destruct (Qeq_bool (loss_scale (args s)) 0); run);
    eexists _, _; (split; [reflexivity|]); cbn [andb negb];
    repeat split; intros; try discriminate; reflexivity.
Qed.

(** X11. In reduced precision with the dynamic loss scale
    ([--fp16 --loss_scale 0]) [build_optimizer] binds no schedule; in the
    state it leaves, every micro-batch on which the test of line 459 holds
    raises [NameError] after its backward pass, so no optimizer step is
    made. *)
Theorem dynamic_loss_scale_never_steps (env : Env) (s0 : St W)
    (len epochId step : Z) (b : Batch X) (loss : Q) (scores : matrix) :
  let s := out_state (build_optimizer env s0) in
  let pred := model_forward (device s) b in
  fp16 (args s0) = true ->
  Qeq_bool (loss_scale (args s0)) 0 = true ->
  names s0 !! "warmup_linear" = None ->
  out_res (build_optimizer env s0) = Ok tt ->
  fires (gradient_accumulation_steps (args s0)) step = true ->
  instance_bce_with_logits bce_kernel pred (target b) = Ok loss ->
  compute_score_with_logits pred (target b) = Ok scores ->
  let o := micro_batch len epochId step b s in
  out_res o = Raise NameError /\
  count_events is_optimizer_step (out_events o) = 0%nat /\
  global_step (out_state o) = global_step s0.
Proof.
  cbv zeta. intros Hfp Hsc Hn Hok Hfire Hl Hs.
  destruct (build_optimizer_run env s0)
    as (ev & s & Hrun & _ & Ha & _ & Hg & Hgr). cbv zeta in Hrun, Hgr.
  rewrite Hrun in Hok, Hl, Hs |- *. cbn [out_state out_res] in *.
  destruct (_ =? 0)%nat; [discriminate|].
  destruct (Hgr eq_refl) as (_ & Hnm). rewrite Hfp, Hsc in Hnm.
  cbn [andb negb] in Hnm.
  destruct (micro_batch_fire_raises len epochId step b s loss scores
              NameError) as (s' & Hm & Hg' & _).
  - now rewrite Ha.
  - now rewrite Ha.
  - exact Hl.
  - exact Hs.
  - intros s1 (_ & _ & _ & Hnm1) _. apply update_learning_rate_unbound.
    now rewrite Hnm1, Hnm.
  - rewrite Hm. cbn [out_res out_events out_state].
    split; [reflexivity|]. split; [reflexivity|]. now rewrite Hg'.
Qed.

(** ** The planned number of optimizer steps *)

(** Powers of constants are replaced by their values. *)
Ltac pow_values :=
  repeat match goal with
    | |- context [Pos.pow ?a ?b] =>
        let v := eval vm_compute in (Pos.pow a b) in
        change (Pos.pow a b) with v
    | H : context [Pos.pow ?a ?b] |- _ =>
        let v := eval vm_compute in (Pos.pow a b) in
        change (Pos.pow a b) with v in H
    | |- context [Z.pow ?a ?b] =>
        let v := eval vm_compute in (Z.pow a b) in
        change (Z.pow a b) with v
    | H : context [Z.pow ?a ?b] |- _ =>
        let v := eval vm_compute in (Z.pow a b) in
        change (Z.pow a b) with v in H
    end.

Lemma Qfloor_between (z : Q) (m : Z) :
  (inject_Z m <= z)%Q -> (z < inject_Z (m + 1))%Q -> Qfloor z = m.
Proof.
  intros Hl Hu.
  apply Qfloor_resp_le in Hl. rewrite Qfloor_Z in Hl.
  pose proof (Qfloor_le z) as H1.
  assert (H2 : (inject_Z (Qfloor z) < inject_Z (m + 1))%Q)
    by (eapply Qle_lt_trans; eassumption).
  rewrite <- Zlt_Qlt in H2. lia.
Qed.

Lemma py_int_between (z : Q) (m : Z) :
  0 <= m -> (inject_Z m <= z)%Q -> (z < inject_Z (m + 1))%Q -> py_int z = m.
Proof.
  intros Hm Hl Hu. unfold py_int.
  assert (H0 : (0 <= z)%Q).
  { eapply Qle_trans; [|exact Hl]. change 0%Q with (inject_Z 0).
    now rewrite <- Zle_Qle. }
  apply Qle_bool_iff in H0. rewrite H0. now apply Qfloor_between.
Qed.

(** A value at least as near to [t] as the integer [r] is on the same side
    of [r] as [t]. *)
Lemma nearest_above (q t : Q) (r : Z) :
  (Qabs (q - t) <= Qabs (inject_Z r - t))%Q ->
  (inject_Z r <= t)%Q -> (inject_Z r <= q)%Q.
Proof.
  intros Hn Hr. rewrite (Qabs_neg (inject_Z r - t)) in Hn by lra.
  apply Qabs_Qle_condition in Hn. lra.
Qed.

Lemma nearest_below (q t : Q) (r : Z) :
  (Qabs (q - t) <= Qabs (inject_Z r - t))%Q ->
  (t <= inject_Z r)%Q -> (q <= inject_Z r)%Q.
Proof.
  intros Hn Hr. rewrite (Qabs_pos (inject_Z r - t)) in Hn by lra.
  apply Qabs_Qle_condition in Hn. lra.
Qed.

(** Two roundings cannot lift a quotient of integers to the next integer
    when the dividend has at most 51 bits. *)
Lemma two_roundings_below (n B K y z M : Q) :
  (0 < B)%Q -> (0 < K)%Q -> (0 <= n)%Q -> (n < inject_Z (2 ^ 51))%Q ->
  (y <= n / B * (1 + (1 # 2 ^ 53)))%Q ->
  (z <= y / K * (1 + (1 # 2 ^ 53)))%Q ->
  (n + 1 <= M * (B * K))%Q ->
  (z < M)%Q.
Proof.
  intros HB HK Hn Hn51 Hy Hz HM. pow_values.
  set (c := (1 + (1 # 9007199254740992))%Q) in *.
  assert (Hc : (0 <= c)%Q) by (unfold c; lra).
  assert (HyB : (y * B <= n * c)%Q).
  { apply (Qmult_le_compat_r _ _ B) in Hy; [|lra].
    eapply Qle_trans; [exact Hy|]. apply Qle_lteq. right. field. lra. }
  assert (HzK : (z * K <= y * c)%Q).
  { apply (Qmult_le_compat_r _ _ K) in Hz; [|lra].
    eapply Qle_trans; [exact Hz|]. apply Qle_lteq. right. field. lra. }
  assert (H1 : (z * (B * K) <= n * c * c)%Q).
  { apply (Qmult_le_compat_r _ _ B) in HzK; [|lra].
    apply (Qmult_le_compat_r _ _ c) in HyB; [|exact Hc].
    eapply Qle_trans; [|exact HyB].
    eapply Qle_trans; [|eapply Qle_trans; [exact HzK|]];
      apply Qle_lteq; right; ring. }
  assert (H2 : (n * c * c < n + 1)%Q).
  { unfold c. unfold inject_Z in Hn51. lra. }
  destruct (Qlt_le_dec z M) as [Hlt|Hle]; [exact Hlt|exfalso].
  apply (Qmult_le_compat_r _ _ (B * K)) in Hle.
  - lra.
  - apply Qlt_le_weak. apply Qmult_lt_0_compat; assumption.
Qed.

Lemma inject_Z_div_le (n B : Z) :
  0 <= n -> 0 < B -> (inject_Z n / inject_Z B <= inject_Z n)%Q.
Proof.
  intros Hn HB. apply Qle_shift_div_r.
  - change 0%Q with (inject_Z 0). now rewrite <- Zlt_Qlt.
  - rewrite <- inject_Z_mult, <- Zle_Qle. nia.
Qed.

Lemma inject_Z_le_div (r n B : Z) :
  0 < B -> r * B <= n -> (inject_Z r <= inject_Z n / inject_Z B)%Q.
Proof.
  intros HB H. apply Qle_shift_div_l.
  - change 0%Q with (inject_Z 0). now rewrite <- Zlt_Qlt.
  - now rewrite <- inject_Z_mult, <- Zle_Qle.
Qed.

(** Line 281 on a machine whose division is that of IEEE 754: for a
    dataset of fewer than [2^51] examples the truncated double quotient is
    the integer quotient. *)
Lemma double_division_floor (fdiv : Q -> Z -> result Q) (n B K : Z) :
  binary64_division fdiv ->
  0 <= n < 2 ^ 51 -> 0 < B <= 2 ^ 53 -> 0 < K <= 2 ^ 53 ->
  exists y z : Q,
    fdiv (inject_Z n) B = Ok y /\ fdiv y K = Ok z /\
    py_int z = n / (B * K).
Proof.
  intros Hf Hn HB HK.
  set (m := n / (B * K)).
  assert (HBK : 0 < B * K) by nia.
  assert (Hm0 : 0 <= m) by (apply Z.div_pos; lia).
  assert (Hm1 : m * (B * K) <= n)
    by (rewrite Z.mul_comm; apply Z.mul_div_le; lia).
  assert (Hm2 : n < (m + 1) * (B * K)).
  { rewrite Z.mul_comm. apply Z.mul_succ_div_gt. lia. }
  assert (HBq : (0 < inject_Z B)%Q)
    by (change 0%Q with (inject_Z 0); rewrite <- Zlt_Qlt; lia).
  assert (HKq : (0 < inject_Z K)%Q)
    by (change 0%Q with (inject_Z 0); rewrite <- Zlt_Qlt; lia).
  assert (Hnq : (0 <= inject_Z n)%Q)
    by (change 0%Q with (inject_Z 0); rewrite <- Zle_Qle; lia).
  assert (Hx1 : (inject_Z n / inject_Z B <= inject_Z n)%Q)
    by (apply inject_Z_div_le; lia).
  destruct (Hf (inject_Z n) B Hnq ltac:(lia)) as (y & Hy & Hnear1 & Herr1).
  { eapply Qle_lt_trans; [exact Hx1|]. rewrite <- Zlt_Qlt. lia. }
  assert (HmK : (inject_Z (m * K) <= y)%Q).
  { apply (nearest_above _ _ _ (Hnear1 (m * K) ltac:(nia))).
    apply inject_Z_le_div; lia. }
  assert (Hyn : (y <= inject_Z n)%Q)
    by (apply (nearest_below _ _ _ (Hnear1 n ltac:(lia))); exact Hx1).
  assert (Hy0 : (0 <= y)%Q).
  { eapply Qle_trans; [|exact HmK]. change 0%Q with (inject_Z 0).
    rewrite <- Zle_Qle. nia. }
  assert (Hx2 : (y / inject_Z K <= inject_Z n)%Q).
  { apply Qle_shift_div_r; [exact HKq|].
    eapply Qle_trans; [exact Hyn|].
    rewrite <- inject_Z_mult, <- Zle_Qle. nia. }
  destruct (Hf y K Hy0 ltac:(lia)) as (z & Hz & Hnear2 & Herr2).
  { eapply Qle_lt_trans; [exact Hx2|]. rewrite <- Zlt_Qlt. lia. }
  exists y, z. split; [exact Hy|]. split; [exact Hz|].
  assert (Hmz : (inject_Z m <= z)%Q).
  { apply (nearest_above _ _ _ (Hnear2 m ltac:(nia))).
    apply Qle_shift_div_l; [exact HKq|]. now rewrite <- inject_Z_mult. }
  apply py_int_between; [exact Hm0 | exact Hmz |].
  destruct (Z.eq_dec n 0) as [-> | Hn0].
  - (* no example: both quotients are 0 *)
    assert (Hz0 : (z <= inject_Z 0)%Q).
    { apply (nearest_below _ _ _ (Hnear2 0 ltac:(lia))).
      apply Qle_shift_div_r; [exact HKq|]. rewrite Qmult_0_l. exact Hyn. }
    eapply Qle_lt_trans; [exact Hz0|]. rewrite <- Zlt_Qlt. lia.
  - assert (Hn1 : (1 <= inject_Z n)%Q)
      by (change 1%Q with (inject_Z 1); rewrite <- Zle_Qle; lia).
    assert (HB53 : (inject_Z B <= inject_Z (2 ^ 53))%Q)
      by (rewrite <- Zle_Qle; lia).
    assert (HK53 : (inject_Z K <= inject_Z (2 ^ 53))%Q)
      by (rewrite <- Zle_Qle; lia).
    assert (Hlow1 : ((1 # 2 ^ 53) <= inject_Z n / inject_Z B)%Q).
    { apply Qle_shift_div_l; [exact HBq|].
      pow_values. unfold inject_Z in HB53 at 2. lra. }
    specialize (Herr1 ltac:(eapply Qle_trans; [|exact Hlow1];
                            vm_compute; discriminate)).
    apply Qabs_Qle_condition in Herr1.
    assert (Hlow2 : ((1 # 2 ^ 107) <= y / inject_Z K)%Q).
    { apply Qle_shift_div_l; [exact HKq|].
      pow_values. unfold inject_Z in HK53 at 2. lra. }
    specialize (Herr2 ltac:(eapply Qle_trans; [|exact Hlow2];
                            vm_compute; discriminate)).
    apply Qabs_Qle_condition in Herr2.
    apply (two_roundings_below (inject_Z n) (inject_Z B) (inject_Z K) y z);
      try assumption.
    + rewrite <- Zlt_Qlt. lia.
    + lra.
    + lra.
    + rewrite <- !inject_Z_mult. change 1%Q with (inject_Z 1).
      rewrite <- inject_Z_plus, <- Zle_Qle. lia.
Qed.

Lemma exact_division_is_nearest :
  binary64_division (fun x k => Ok (x / inject_Z k)%Q).
Proof.
  intros x k Hx Hk Hlt. exists (x / inject_Z k)%Q.
  assert (H0 : (Qabs (x / inject_Z k - x / inject_Z k) == 0)%Q).
  { assert (He : (x / inject_Z k - x / inject_Z k == 0)%Q) by ring.
    now rewrite He. }
  split; [reflexivity|]. split.
  - intros r _. rewrite H0. apply Qabs_nonneg.
  - intros Hn. rewrite H0. apply Qmult_le_0_compat; [|discriminate].
    eapply Qle_trans; [|exact Hn]. discriminate.
Qed.

(** X12. On a machine whose division is that of IEEE 754, for a training
    set of fewer than [2^51] examples and a batch size and accumulation
    count between 1 and [2^53], line 281 plans
    [len(train_dset) // (batch size * accumulation count)] optimizer steps
    per epoch, times the number of epochs: the two roundings of the double
    division do not show.  In a distributed run the product is then divided
    by the size of the process group, and when torch has no process group
    the run ends in the exception of [get_world_size] with the undivided
    product planned.  With a batch size of 0, which is what line 231 leaves
    when the accumulation count exceeds the batch size, line 281 raises
    [ZeroDivisionError] and plans nothing. *)
Theorem plan_steps_plans (train_dset : Dataset X) s :
  let a := args s in
  let n := Z.of_nat (length (examples train_dset)) in
  let B := train_batch_size a in
  let K := gradient_accumulation_steps a in
  let o := plan_steps train_dset s in
  let per_run := n / (B * K) * num_train_epochs a in
  (binary64_division float_div ->
   n < 2 ^ 51 -> 0 < B <= 2 ^ 53 -> 0 < K <= 2 ^ 53 ->
   out_events o = [] /\
   (local_rank a = -1 ->
    out_res o = Ok tt /\
    num_train_optimization_steps (out_state o) = per_run) /\
   (local_rank a <> -1 ->
    match get_world_size (device s) with
    | Ok size =>
        if size =? 0
        then out_res o = Raise ZeroDivisionError /\
             num_train_optimization_steps (out_state o) = per_run
        else out_res o = Ok tt /\
             num_train_optimization_steps (out_state o) = per_run / size
    | Raise x =>
        out_res o = Raise x /\
        num_train_optimization_steps (out_state o) = per_run
    end)) /\
  (B = 0 ->
   out_res o = Raise ZeroDivisionError /\
   num_train_optimization_steps (out_state o)
   = num_train_optimization_steps s).
Proof.
  cbv zeta. unfold plan_steps, float_true_div. rewrite bind_get. split.
  - intros Hf Hn HB HK.
    destruct (double_division_floor float_div _ _ _ Hf
                (conj (Nat2Z.is_nonneg _) Hn) HB HK)
      as (y & z & Hy & Hz & Hfloor).
    destruct (Z.eqb_spec (train_batch_size (args s)) 0) as [|_]; [lia|].
    destruct (Z.eqb_spec (gradient_accumulation_steps (args s)) 0) as [|_];
      [lia|].
    unfold Qnat. rewrite Hy. run. rewrite Hz. run. rewrite Hfloor.
    destruct (Z.eqb_spec (local_rank (args s)) (-1)) as [Hr|Hr];
      cbn [negb]; run.
    + split; [reflexivity|]. split; [|intros; contradiction].
      intros _. split; reflexivity.
    + unfold floor_div.
      destruct (get_world_size (device s)) as [size|x]; run;
        [destruct (size =? 0); run|];
        (split; [reflexivity|]); (split; [intros; contradiction|]);
        intros _; split; reflexivity.
  - intros Hb. rewrite Hb. split; reflexivity.
Qed.

(** ** The checkpoint files *)

Lemma string_app_inv_head (p a b : string) : p +:+ a = p +:+ b -> a = b.
Proof.
  induction p as [|c p IH]; simpl; intros H; [exact H|].
  inversion H. auto.
Qed.

Lemma string_length_app (a b : string) :
  String.length (a +:+ b) = (String.length a + String.length b)%nat.
Proof. induction a as [|c a IH]; simpl; [reflexivity | now rewrite IH]. Qed.

Lemma string_app_inv_tail (a b t : string) : a +:+ t = b +:+ t -> a = b.
Proof.
  revert b. induction a as [|c a IH]; intros [|d b] H; simpl in H.
  - reflexivity.
  - apply (f_equal String.length) in H.
    rewrite !string_length_app in H. simpl in H. lia.
  - apply (f_equal String.length) in H.
    rewrite !string_length_app in H. simpl in H. lia.
  - inversion H. f_equal. now apply IH.
Qed.

(** X13. The checkpoints of two epochs of one run are written to different
    files: the file name of line 516 determines the epoch. *)
Theorem output_model_file_inj (savePath : string) (e1 e2 : Z) :
  e1 <> e2 -> output_model_file savePath e1 <> output_model_file savePath e2.
Proof.
  unfold output_model_file, path_join. intros Hne H. apply Hne.
  assert (Hrel : forall t, starts_with_sep ("pytorch_model_" +:+ t) = false)
    by reflexivity.
  rewrite !Hrel in H.
  destruct (String.eqb savePath "" || ends_with_sep savePath);
    repeat apply string_app_inv_head in H;
    apply string_app_inv_tail in H; now apply (inj pretty) in H.
Qed.

(** ** The sums and counts of an epoch *)

Ltac confined_with Hrefl Htrans Hstate :=
  repeat first
    [ apply confined_for_each; [exact Hrefl | exact Htrans | intros ?]
    | apply confined_for_enumerate; [exact Hrefl | exact Htrans | intros ? ?]
    | apply confined_fold_for; [exact Hrefl | exact Htrans | intros ? ?]
    | apply confined_ret; exact Hrefl
    | apply confined_raise; exact Hrefl
    | apply confined_get; exact Hrefl
    | apply confined_lift; exact Hrefl
    | apply confined_when; [exact Hrefl|]
    | apply confined_emit; [reflexivity | intros ?; Hstate]
    | apply confined_modify; intros ?; Hstate
    | apply confined_bind; [exact Htrans | | intros ?]
    | match goal with
      | |- confined _ _ (match ?x with _ => _ end) => destruct x
      end ].

Lemma same_tallies_refl s : same_tallies s s.
Proof. repeat split. Qed.

Lemma same_tallies_trans s1 s2 s3 :
  same_tallies s1 s2 -> same_tallies s2 s3 -> same_tallies s1 s3.
Proof.
  unfold same_tallies. intros (?&?&?&?) (?&?&?&?). repeat split; congruence.
Qed.

(** What follows the backward pass in a micro-batch (lines 459-497) leaves
    the sums and counts of the epoch alone. *)
Lemma after_backward_same_tallies (iterId step : Z) :
  confined (fun _ => true) same_tallies
    (bind get (fun s =>
       bind (when (fires (gradient_accumulation_steps (args s)) step)
               optimizer_update)
         (fun _ => log_progress (X := X) iterId step))).
Proof.
  unfold optimizer_update, update_learning_rate, load, log_progress.
  confined_with same_tallies_refl same_tallies_trans
    ltac:(repeat split).
Qed.

(** The sums and counts after the forward and backward pass of a
    micro-batch (lines 429-457). *)
Lemma forward_backward_tallies (iterId : Z) (b : Batch X) s :
  let pred := model_forward (device s) b in
  let o := forward_backward iterId b s in
  match instance_bce_with_logits bce_kernel pred (target b),
        compute_score_with_logits pred (target b) with
  | Ok loss, Ok scores =>
      out_res o = Ok tt /\
      total_loss (out_state o)
      = (total_loss s + loss * Qnat (length (features b)))%Q /\
      train_score (out_state o) = (train_score s + msum scores)%Q /\
      nb_tr_examples (out_state o)
      = nb_tr_examples s + Z.of_nat (length (question b)) /\
      nb_tr_steps (out_state o) = nb_tr_steps s + 1
  | _, _ => (exists x, out_res o = Raise x) /\ same_tallies s (out_state o)
  end.
Proof.
  unfold forward_backward, call_model. run.
  destruct (instance_bce_with_logits _ _ _) as [loss|x]; run;
    [destruct (compute_score_with_logits _ _) as [scores|x]; run|];
    repeat split; eexists; reflexivity.
Qed.

(** The state after a micro-batch is the one after its forward and
    backward pass when that raises, and the one after the logical step and
    the progress line otherwise. *)
Lemma micro_batch_state (len epochId step : Z) (b : Batch X) s :
  let iterId := startIterID + step + epochId * len in
  let fb := forward_backward iterId b s in
  out_state (micro_batch len epochId step b s)
  = match out_res fb with
    | Ok _ =>
        out_state
          (bind get (fun s0 : St W =>
             bind (when (fires (gradient_accumulation_steps (args s0)) step)
                     optimizer_update)
               (fun _ => log_progress (X := X) iterId step))
             (out_state fb))
    | Raise _ => out_state fb
    end /\
  (out_res (micro_batch len epochId step b s) = Ok tt -> out_res fb = Ok tt).
Proof.
  cbv zeta. unfold micro_batch.
  set (iterId := startIterID + step + epochId * len).
  set (rest := bind get _). unfold bind.
  destruct (forward_backward iterId b s) as [ev1 s1 [[]|x]];
    cbn [out_res out_state]; [|split; [reflexivity|discriminate]].
  now destruct (rest s1).
Qed.

(** X14. A micro-batch whose loss and score are computed adds to
    [total_loss] the loss times the batch size (the loss as computed, before
    it is divided by the accumulation count), to [train_score] the sum of
    the scores, to [nb_tr_examples] the batch size and 1 to [nb_tr_steps],
    whether or not a logical step follows and whether or not that step
    raises; a micro-batch whose loss or score fails changes none of them. *)
Theorem micro_batch_tallies (len epochId step : Z) (b : Batch X) s :
  let pred := model_forward (device s) b in
  let s' := out_state (micro_batch len epochId step b s) in
  match instance_bce_with_logits bce_kernel pred (target b),
        compute_score_with_logits pred (target b) with
  | Ok loss, Ok scores =>
      total_loss s'
      = (total_loss s + loss * Qnat (length (features b)))%Q /\
      train_score s' = (train_score s + msum scores)%Q /\
      nb_tr_examples s'
      = nb_tr_examples s + Z.of_nat (length (question b)) /\
      nb_tr_steps s' = nb_tr_steps s + 1
  | _, _ => same_tallies s s'
  end.
Proof.
  intros pred s'.
  set (iterId := startIterID + step + epochId * len).
  assert (Hs' := proj1 (micro_batch_state len epochId step b s)).
  cbv zeta in Hs'. fold iterId in Hs'. fold s' in Hs'.
  clearbody s'. subst s'.
  pose proof (after_backward_same_tallies iterId step
                (out_state (forward_backward iterId b s))) as (_ & Hrest).
  pose proof (forward_backward_tallies iterId b s) as Hfb.
  cbv zeta in Hfb. fold pred in Hfb.
  destruct (instance_bce_with_logits bce_kernel pred (target b)) as [loss|x];
    [destruct (compute_score_with_logits pred (target b)) as [scores|x]|].
  - destruct Hfb as (-> & <- & <- & <- & <-).
    destruct Hrest as (T1 & T2 & T3 & T4). repeat split; assumption.
  - destruct Hfb as ((x' & ->) & Hfb). exact Hfb.
  - destruct Hfb as ((x' & ->) & Hfb). exact Hfb.
Qed.

(** ** The checkpoint of an epoch *)

Lemma forallb_filter_nil {A} (p : A -> bool) (l : list A) :
  forallb (fun a => negb (p a)) l = true -> List.filter p l = [].
Proof.
  induction l as [|a l IH]; cbn; [reflexivity|].
  destruct (p a); cbn; [discriminate|exact IH].
Qed.

Lemma same_args_refl s : same_args s s.
Proof. reflexivity. Qed.

Lemma same_args_trans s1 s2 s3 :
  same_args s1 s2 -> same_args s2 s3 -> same_args s1 s3.
Proof. unfold same_args. congruence. Qed.

Lemma closes_with_bind {A B} (P : event X -> bool) (tail : list (event X))
    (m : M X W A) (f : A -> M X W B) s0 s :
  same_args s0 s ->
  confined P same_args m ->
  (forall a s', same_args s0 s' -> closes_with P tail (f a) s') ->
  closes_with P tail (bind m f) s.
Proof.
  intros Hs Hm Hf. unfold closes_with, bind. specialize (Hm s).
  destruct (m s) as [ev1 s1 [a|x]]; cbn [out_state out_events out_res] in *;
    [|apply Hm].
  destruct Hm as (Hp1 & Hr1).
  specialize (Hf a s1 (same_args_trans _ _ _ Hs Hr1)).
  unfold closes_with in Hf.
  destruct (f a s1) as [ev2 s2 [b|x]]; cbn [out_state out_events out_res] in *.
  - destruct Hf as (ev & -> & Hp2). exists (ev1 ++ ev).
    split; [apply app_assoc|]. now rewrite forallb_app, Hp1, Hp2.
  - now rewrite forallb_app, Hp1, Hf.
Qed.

Lemma closes_with_get {B} (P : event X -> bool) (tail : list (event X))
    (f : St W -> M X W B) s :
  closes_with P tail (f s) s -> closes_with P tail (bind get f) s.
Proof.
  unfold closes_with, bind, get. now destruct (f s s) as [ev2 s2 [b|x]].
Qed.

(** No call of a pass over the training batches, nor of an evaluation,
    writes a file, and neither changes the arguments. *)
Lemma train_batches_no_save (len epochId : Z) (batches : list (Batch X)) :
  confined (fun e => negb (is_save e)) same_args
    (train_batches len epochId batches).
Proof.
  unfold train_batches, micro_batch, forward_backward, call_model,
    optimizer_update, update_learning_rate, load, log_progress.
  confined_with same_args_refl same_args_trans ltac:(reflexivity).
Qed.

Lemma evaluate_no_save (pass : Z) (dl : DataLoader X) :
  confined (fun e => negb (is_save e)) same_args (evaluate pass dl).
Proof.
  unfold evaluate, evaluate_batch, call_model.
  confined_with same_args_refl same_args_trans ltac:(reflexivity).
Qed.

Lemma train_epoch_closes (tl el : DataLoader X) (savePath : string)
    (epochId : Z) s :
  closes_with (fun e => negb (is_save e))
    (if do_train (args s)
     then [ESave (output_model_file savePath epochId)] else [])
    (train_epoch tl el savePath epochId) s.
Proof.
  unfold train_epoch.
  pose proof (same_args_refl s) as Hs. revert Hs.
  generalize s at 2 4. intros s1 Hs.
  repeat first
    [ apply closes_with_get
    | eapply closes_with_bind;
      [ eassumption
      | first [ apply train_batches_no_save | apply evaluate_no_save
              | confined_with same_args_refl same_args_trans
                  ltac:(reflexivity) ]
      | intros ? ? ? ]
    | match goal with
      | |- closes_with _ _ (let '(_, _) := ?p in _) _ => destruct p
      end ].
  unfold closes_with, same_args in *.
  match goal with H : args ?s' = args s |- context [args ?s'] =>
    rewrite H
  end.
  destruct (do_train (args s)); cbn; exists []; split; reflexivity.
Qed.

(** X15. An epoch writes its checkpoint last and only when it runs to its
    end with [do_train] set: the file is [pytorch_model_<epochId>.bin]
    under the save path, and no other call of the epoch writes a file.  An
    epoch that raises (in the training pass, in the division of line 499 or
    in the evaluation) writes none.  The arguments are not changed. *)
Theorem train_epoch_checkpoint (tl el : DataLoader X) (savePath : string)
    (epochId : Z) s :
  let o := train_epoch tl el savePath epochId s in
  match out_res o with
  | Ok _ =>
      if do_train (args s)
      then exists ev,
             out_events o = ev ++ [ESave (output_model_file savePath epochId)]
             /\ List.filter is_save ev = []
      else List.filter is_save (out_events o) = []
  | Raise _ => List.filter is_save (out_events o) = []
  end.
Proof.
  cbv zeta. pose proof (train_epoch_closes tl el savePath epochId s) as H.
  unfold closes_with in H.
  destruct (out_res (train_epoch tl el savePath epochId s)).
  - destruct H as (ev & Hev & Hp). apply forallb_filter_nil in Hp.
    destruct (do_train (args s)).
    + now exists ev.
    + now rewrite app_nil_r in Hev; rewrite Hev.
  - now apply forallb_filter_nil.
Qed.

Lemma train_epoch_same_args (tl el : DataLoader X) (savePath : string)
    (epochId : Z) :
  confined (fun _ => true) same_args (train_epoch tl el savePath epochId).
Proof.
  unfold train_epoch, train_batches, micro_batch, forward_backward,
    call_model, optimizer_update, update_learning_rate, load, log_progress,
    evaluate, evaluate_batch, call_model.
  confined_with same_args_refl same_args_trans ltac:(reflexivity).
Qed.

(** The files written by a run of epochs, in the order of the calls. *)
Lemma for_each_train_epoch_saves (tl el : DataLoader X) (savePath : string)
    (epochs : list Z) s :
  let o := for_each (train_epoch tl el savePath) epochs s in
  let saved := List.filter is_save (out_events o) in
  let files := map (fun epochId => ESave (output_model_file savePath epochId)) epochs in
  saved `prefix_of` files /\
  (do_train (args s) = false -> saved = []) /\
  (out_res o = Ok tt -> do_train (args s) = true -> saved = files).
Proof.
  cbv zeta. revert s. induction epochs as [|epochId epochs IH]; intros s.
  - cbn. split; [reflexivity|]. split; reflexivity.
  - cbn [for_each map]. unfold bind.
    pose proof (train_epoch_closes tl el savePath epochId s) as Hc.
    pose proof (train_epoch_same_args tl el savePath epochId s) as (_ & Ha).
    unfold closes_with, same_args in Hc, Ha.
    destruct (train_epoch tl el savePath epochId s) as [ev1 s1 [[]|x]];
      cbn [out_events out_state out_res] in *.
    + destruct Hc as (ev & -> & Hp). apply forallb_filter_nil in Hp.
      specialize (IH s1). rewrite Ha in IH.
      destruct (for_each (train_epoch tl el savePath) epochs s1)
        as [ev2 s2 r2]; cbn [out_events out_state out_res] in *.
      destruct IH as (Hpre & Hno & Hall).
      rewrite !List.filter_app, Hp. cbn [app].
      destruct (do_train (args s)); cbn [List.filter is_save app].
      * split; [now apply prefix_cons|]. split; [discriminate|].
        intros Hr _. now rewrite Hall.
      * rewrite (Hno eq_refl). split; [apply prefix_nil|].
        split; [reflexivity|discriminate].
    + apply forallb_filter_nil in Hc. rewrite Hc.
      split; [apply prefix_nil|]. split; [reflexivity|discriminate].
Qed.

(** X16. The files written by [train] are the checkpoints of the epochs, in
    the order of the epochs and one for each: a run that raises has written
    those of the epochs it completed, a run that returns with [do_train] set
    has written [pytorch_model_0.bin] up to the one of the last epoch, and a
    run without [do_train] writes no file. *)
Theorem train_checkpoints (train_dset eval_dset : Dataset X)
    (savePath : string) s :
  let o := train train_dset eval_dset savePath s in
  let saved := List.filter is_save (out_events o) in
  let files :=
    map (fun epochId => ESave (output_model_file savePath epochId))
      (seqZ 0 (num_train_epochs (args s))) in
  saved `prefix_of` files /\
  (do_train (args s) = false -> saved = []) /\
  (out_res o = Ok tt -> do_train (args s) = true -> saved = files).
Proof.
  cbv zeta. unfold train, new_DataLoader. run.
  destruct (train_batch_size (args s) <=? 0); run.
  { split; [apply prefix_nil|]. split; [reflexivity|discriminate]. }
  match goal with
  | |- context [for_each ?body ?l ?s1] =>
      pose proof (for_each_train_epoch_saves
                    (mkDataLoader train_dset true
                       (Z.to_nat (train_batch_size (args s))))
                    (mkDataLoader eval_dset false
                       (Z.to_nat (train_batch_size (args s))))
                    savePath l s1) as H;
      cbv zeta in H; destruct (for_each body l s1) as [ev2 s2 r2]
  end.
  exact H.
Qed.

(** ** The counts of a pass over the training set *)

Lemma micro_batch_counts (len epochId step : Z) (b : Batch X) s :
  let o := micro_batch len epochId step b s in
  out_res o = Ok tt ->
  nb_tr_examples (out_state o)
  = nb_tr_examples s + Z.of_nat (length (question b)) /\
  nb_tr_steps (out_state o) = nb_tr_steps s + 1.
Proof.
  cbv zeta. intros Hok.
  destruct (micro_batch_state len epochId step b s) as (Hst & Hres).
  cbv zeta in Hst, Hres. specialize (Hres Hok). rewrite Hres in Hst.
  rewrite Hst.
  set (iterId := startIterID + step + epochId * len) in *.
  pose proof (after_backward_same_tallies iterId step
                (out_state (forward_backward iterId b s)))
    as (_ & _ & _ & -> & ->).
  pose proof (forward_backward_tallies iterId b s) as Hfb.
  cbv zeta in Hfb.
  destruct (instance_bce_with_logits _ _ _) as [loss|x];
    [destruct (compute_score_with_logits _ _) as [scores|x]|].
  - destruct Hfb as (_ & _ & _ & -> & ->). split; reflexivity.
  - destruct Hfb as ((x' & Hx) & _). congruence.
  - destruct Hfb as ((x' & Hx) & _). congruence.
Qed.

Lemma for_enumerate_micro_batch_counts (len epochId : Z)
    (batches : list (Batch X)) (start : Z) s :
  let o := for_enumerate (micro_batch len epochId) start batches s in
  out_res o = Ok tt ->
  nb_tr_examples (out_state o)
  = nb_tr_examples s + Z.of_nat (length (concat (map question batches))) /\
  nb_tr_steps (out_state o) = nb_tr_steps s + Z.of_nat (length batches).
Proof.
  cbv zeta. revert start s.
  induction batches as [|b batches IH]; intros start s.
  - cbn. intros _. split; lia.
  - cbn [for_enumerate map concat length]. unfold bind.
    pose proof (micro_batch_counts len epochId start b s) as Hb.
    cbv zeta in Hb.
    destruct (micro_batch len epochId start b s) as [ev1 s1 [[]|x]];
      cbn [out_res out_state] in *.
    + specialize (IH (start + 1) s1).
      destruct (for_enumerate (micro_batch len epochId) (start + 1) batches
                  s1) as [ev2 s2 r2]; cbn [out_res out_state] in *.
      intros Hok. destruct (IH Hok) as (-> & ->).
      destruct (Hb eq_refl) as (-> & ->).
      rewrite length_app. split; lia.
    + discriminate.
Qed.

Lemma questions_of_chunks (cs : list (list (Example X))) :
  concat (map question (map collate cs)) = map ex_question (concat cs).
Proof.
  induction cs as [|c cs IH]; [reflexivity|].
  cbn [map concat]. rewrite IH, map_app. reflexivity.
Qed.

(** X17. A pass over the training loader that runs to its end has counted
    in [nb_tr_examples] every example of the dataset once, which is the
    number [len(train_dataloader.dataset)] that line 499 divides the score
    by, and in [nb_tr_steps] one step for each batch. *)
Theorem train_batches_counts (epochId : Z) (dl : DataLoader X) s :
  let batches := iter_DataLoader epochId dl in
  let o := train_batches (len_DataLoader dl) epochId batches s in
  (0 < batch_size dl)%nat ->
  length (sampler epochId (examples (dataset dl)))
  = length (examples (dataset dl)) ->
  out_res o = Ok tt ->
  nb_tr_examples (out_state o) = nb_tr_examples s + len_dataset dl /\
  nb_tr_steps (out_state o) = nb_tr_steps s + Z.of_nat (length batches).
Proof.
  cbv zeta. intros Hbs Hlen Hok. unfold train_batches in *.
  destruct (for_enumerate_micro_batch_counts _ _ _ _ _ Hok) as (-> & ->).
  split; [|reflexivity]. f_equal. unfold iter_DataLoader, len_dataset.
  rewrite questions_of_chunks, chunks_concat by (exact Hbs || lia).
  rewrite length_map. destruct (shuffle dl); [now rewrite Hlen|reflexivity].
Qed.

(** ** The progress line *)

Lemma windows_app (a b c : Q) l1 l2 :
  windows a l1 b -> windows b l2 c -> windows a (l1 ++ l2) c.
Proof.
  revert a. induction l1 as [|e l1 IH]; intros a; cbn [app windows].
  - now intros ->.
  - destruct e; try apply IH. intros (-> & H1) H2. split; [reflexivity|].
    now apply IH.
Qed.

Lemma windows_inert (a : Q) l :
  forallb (fun e => negb (is_loss_call e)) l = true -> windows a l a.
Proof.
  induction l as [|e l IH]; cbn; [reflexivity|].
  destruct e; cbn; try discriminate; exact IH.
Qed.

Lemma confined_windowed {A} (m : M X W A) :
  confined (fun e => negb (is_loss_call e)) same_loss_tmp m -> windowed m.
Proof.
  intros Hm s. destruct (Hm s) as (Hp & ->). now apply windows_inert.
Qed.

Lemma windowed_bind {A B} (m : M X W A) (f : A -> M X W B) :
  windowed m -> (forall a, windowed (f a)) -> windowed (bind m f).
Proof.
  intros Hm Hf s. unfold bind. specialize (Hm s).
  destruct (m s) as [ev1 s1 [a|x]]; cbn [out_state out_events] in Hm |- *;
    [|exact Hm].
  specialize (Hf a s1). destruct (f a s1) as [ev2 s2 r2].
  cbn [out_state out_events] in Hf |- *. eapply windows_app; eassumption.
Qed.

Lemma windowed_for_each {A} (body : A -> M X W unit) (l : list A) :
  (forall a, windowed (body a)) -> windowed (for_each body l).
Proof.
  intros Hb. induction l as [|a l IH]; cbn [for_each].
  - intros s. reflexivity.
  - apply windowed_bind; [apply Hb | intros _; exact IH].
Qed.

Lemma windowed_for_enumerate {A} (body : Z -> A -> M X W unit) (start : Z)
    (l : list A) :
  (forall i a, windowed (body i a)) -> windowed (for_enumerate body start l).
Proof.
  intros Hb. revert start. induction l as [|a l IH]; intros start;
    cbn [for_enumerate].
  - intros s. reflexivity.
  - apply windowed_bind; [apply Hb | intros _; apply IH].
Qed.

Lemma same_loss_tmp_refl s : same_loss_tmp s s.
Proof. reflexivity. Qed.

Lemma same_loss_tmp_trans s1 s2 s3 :
  same_loss_tmp s1 s2 -> same_loss_tmp s2 s3 -> same_loss_tmp s1 s3.
Proof. unfold same_loss_tmp. congruence. Qed.

Ltac inert :=
  apply confined_windowed;
  confined_with same_loss_tmp_refl same_loss_tmp_trans ltac:(reflexivity).

Lemma forward_backward_windowed (iterId : Z) (b : Batch X) :
  windowed (forward_backward iterId b).
Proof.
  intros s. unfold forward_backward, call_model. run.
  destruct (instance_bce_with_logits _ _ _) as [loss|x]; run;
    [destruct (compute_score_with_logits _ _) as [scores|x]; run|];
    reflexivity.
Qed.

Lemma log_progress_windowed (iterId step : Z) :
  windowed (log_progress (X := X) iterId step).
Proof.
  intros s. unfold log_progress.
  destruct ((step mod 20 =? 0) && negb (step =? 0)); run; cbn;
    [split|]; reflexivity.
Qed.

Lemma micro_batch_windowed (len epochId step : Z) (b : Batch X) :
  windowed (micro_batch len epochId step b).
Proof.
  unfold micro_batch.
  apply windowed_bind; [apply forward_backward_windowed | intros _].
  apply windowed_bind; [inert | intros s0].
  apply windowed_bind; [|intros _; apply log_progress_windowed].
  unfold optimizer_update, update_learning_rate, load. inert.
Qed.

Lemma train_epoch_windowed (tl el : DataLoader X) (savePath : string)
    (epochId : Z) :
  windowed (train_epoch tl el savePath epochId).
Proof.
  unfold train_epoch.
  repeat first
    [ apply windowed_bind;
      [ first [ apply windowed_for_enumerate; intros ? ?;
                apply micro_batch_windowed
              | unfold evaluate, evaluate_batch, call_model; inert ]
      | intros ? ]
    | match goal with
      | |- windowed (let '(_, _) := ?p in _) => destruct p
      end ].
  inert.
Qed.

(** X18. Every progress line of a run of [train] reports one twentieth of
    the sum of the losses handed to the backward pass since the progress
    line before it, or since the start of the training when it is the
    first; the sum is not cleared between two epochs, nor by an
    evaluation. *)
Theorem train_progress_windows (train_dset eval_dset : Dataset X)
    (savePath : string) s :
  exists final,
    windows 0 (out_events (train train_dset eval_dset savePath s)) final.
Proof.
  unfold train, new_DataLoader. run.
  destruct (train_batch_size (args s) <=? 0); run; [now exists 0%Q|].
  match goal with
  | |- context [for_each ?body ?l ?s1] =>
      pose proof (windowed_for_each body l
                    (fun a => train_epoch_windowed _ _ _ a) s1) as H;
      destruct (for_each body l s1) as [ev2 s2 r2]
  end.
  cbn [out_events out_state loss_tmp set_device set_loss_tmp] in *.
  eexists. exact H.
Qed.

Lemma before_progress_line (iterId step : Z) (b : Batch X) :
  confined (fun e => negb (is_progress_line e)) (fun _ _ => True)
    (forward_backward iterId b) /\
  forall K,
    confined (fun e => negb (is_progress_line e)) (fun _ _ => True)
      (when (fires K step) (optimizer_update (X := X))).
Proof.
  split; [|intros K];
    unfold forward_backward, call_model, optimizer_update,
      update_learning_rate, load;
    confined_with (fun _ : St W => I)
      (fun (_ _ _ : St W) (_ _ : True) => I) ltac:(exact I).
Qed.

(** X19. A micro-batch prints a progress line when it runs to its end and
    its number in the epoch is a multiple of 20 other than 0, and in no
    other case; the line is its last call, it carries the iteration number
    of line 428, and the logging sum is cleared after it. *)
Theorem micro_batch_progress_line (len epochId step : Z) (b : Batch X) s :
  let o := micro_batch len epochId step b s in
  let iterId := startIterID + step + epochId * len in
  match out_res o with
  | Ok _ =>
      if (step mod 20 =? 0) && negb (step =? 0)
      then exists ev v,
             out_events o = ev ++ [EPrintProgress iterId v] /\
             List.filter is_progress_line ev = [] /\
             loss_tmp (out_state o) = 0%Q
      else List.filter is_progress_line (out_events o) = []
  | Raise _ => List.filter is_progress_line (out_events o) = []
  end.
Proof.
  cbv zeta. unfold micro_batch.
  set (iterId := startIterID + step + epochId * len).
  destruct (before_progress_line iterId step b) as (Hfb & Hup).
  specialize (Hfb s). unfold bind, get.
  destruct (forward_backward iterId b s) as [ev1 s1 [[]|x]];
    cbn [out_events out_state out_res] in *;
    [|now apply forallb_filter_nil].
  specialize (Hup (gradient_accumulation_steps (args s1)) s1).
  destruct (when _ _ s1) as [ev2 s2 [[]|x]];
    cbn [out_events out_state out_res app] in *.
  - unfold log_progress.
    destruct ((step mod 20 =? 0) && negb (step =? 0)); run; run.
    + eexists (ev1 ++ ev2), _. split; [now rewrite app_assoc|].
      split; [|reflexivity]. apply forallb_filter_nil.
      rewrite forallb_app. now rewrite (proj1 Hfb), (proj1 Hup).
    + apply forallb_filter_nil.
      rewrite !forallb_app. now rewrite (proj1 Hfb), (proj1 Hup).
  - apply forallb_filter_nil.
    rewrite forallb_app. now rewrite (proj1 Hfb), (proj1 Hup).
Qed.

End More.

(** * The statements on the small run *)

#[local] Existing Instance sample_externals.

Lemma compute_score_with_logits_argmax_witness :
  exists scores,
    compute_score_with_logits [[1 # 10; 9 # 10; 2 # 10]; [3; 2; 1]]%Q
      [[0; 1; 0]; [1 # 2; 0; 1]]%Q = Ok scores /\
    length scores = 2%nat.
Proof.
  destruct (proj1 compute_score_with_logits_argmax
              [[1 # 10; 9 # 10; 2 # 10]; [3; 2; 1]]%Q
              [[0; 1; 0]; [1 # 2; 0; 1]]%Q)
    as (scores & Hrun & Hlen & _).
  - reflexivity.
  - repeat constructor; discriminate.
  - exists scores. split; [exact Hrun | exact Hlen].
Defined.

Lemma instance_bce_with_logits_scaled_mean_witness :
  instance_bce_with_logits (fun x y => (x - y) * (x - y))%Q
    [[1; 0; 0]; [0; 1; 0]]%Q [[0; 1; 0]; [0; 1; 0]]%Q
  = Ok (Qsum [1; 1; 0; 0; 0; 0]%Q / Qnat 6 * Qnat 3)%Q.
Proof.
  apply (proj1 (instance_bce_with_logits_scaled_mean
                  (fun x y => (x - y) * (x - y))%Q
                  [[1; 0; 0]; [0; 1; 0]]%Q [[0; 1; 0]; [0; 1; 0]]%Q)).
  reflexivity.
Defined.

Lemma optimizer_fires_every_K_witness :
  Z.of_nat
    (count_events is_optimizer_step
       (out_events
          (train_batches 5 0 (replicate 5 sample_batch)
             (sample_state 2 false 0))))
  = 5 / 2.
Proof.
  destruct (optimizer_fires_every_K 5 0 (replicate 5 sample_batch)
              (sample_state 2 false 0))
    as (segs & _ & _ & _ & Hcount & _).
  - vm_compute. discriminate.
  - vm_compute. reflexivity.
  - exact Hcount.
Defined.

Lemma global_step_counts_logical_steps_witness :
  global_step
    (out_state
       (train_batches 5 0 (replicate 5 sample_batch)
          (sample_state 2 false 0)))
  = 0 + 5 / 2.
Proof.
  destruct (global_step_counts_logical_steps 5 0 (replicate 5 sample_batch)
              (sample_state 2 false 0))
    as (_ & _ & _ & Hgrow).
  apply Hgrow.
  - vm_compute. discriminate.
  - vm_compute. reflexivity.
Defined.

Lemma backward_loss_is_loss_over_K_witness :
  exists v : Q,
    List.filter is_backward
      (out_events (micro_batch 5 0 1 sample_batch (sample_state 4 false 0)))
    = [EBackward false v] /\
    (v == (6 # 100) / 4)%Q.
Proof.
  pose proof (backward_loss_is_loss_over_K 5 0 1 sample_batch
                (sample_state 4 false 0)) as H.
  cbv zeta in H. specialize (H ltac:(vm_compute; discriminate)).
  vm_compute instance_bce_with_logits in H.
  vm_compute compute_score_with_logits in H.
  destruct H as (v & Hev & _ & Hv & _).
  exists v. split; [exact Hev|]. rewrite Hv. vm_compute. reflexivity.
Defined.

Lemma learning_rate_write_is_guarded_witness :
  List.filter is_set_lr
    (out_events (micro_batch 5 0 0 sample_batch (sample_state 2 true 128)))
  = [] /\
  List.filter is_set_lr
    (out_events (micro_batch 5 0 1 sample_batch (sample_state 2 false 0)))
  = [] /\
  count_events is_optimizer_step
    (out_events (micro_batch 5 0 1 sample_batch (sample_state 2 false 0)))
  = 1%nat.
Proof.
  split.
  - apply (proj1 (learning_rate_write_is_guarded 5 0 0 sample_batch
                    (sample_state 2 true 128))).
    reflexivity.
  - destruct (proj2 (learning_rate_write_is_guarded 5 0 1 sample_batch
                       (sample_state 2 false 0)) eq_refl eq_refl)
      as (Hev & _ & Hstep).
    split; [exact Hev|].
    edestruct Hstep as (_ & Hcount); [vm_compute; reflexivity .. |].
    exact Hcount.
Defined.

(** C3, as stated, fails in full precision: on a micro-batch that closes a
    logical step (the optimizer steps once), the loop writes no learning
    rate, and the rates of the groups are not the schedule's rate. *)
Lemma full_precision_fire_writes_no_learning_rate :
  let s := sample_state 1 false 0 in
  let o := micro_batch 5 0 0 sample_batch s in
  fp16 (args s) = false /\
  fires (gradient_accumulation_steps (args s)) 0 = true /\
  out_res o = Ok tt /\
  count_events is_optimizer_step (out_events o) = 1%nat /\
  List.filter is_set_lr (out_events o) = [] /\
  param_groups s = [5 # 100000; 5 # 100000]%Q /\
  param_groups (out_state o) = param_groups s.
Proof. cbv zeta. repeat split; vm_compute; reflexivity. Qed.

(** In reduced precision with the static loss scale the schedule object is
    bound, and the first micro-batch that closes a logical step ends in the
    [TypeError] of calling it, before any learning rate is written or any
    optimizer step made. *)
Lemma static_loss_scale_fire_raises_TypeError :
  let s := sample_state 1 true 128 in
  let o := micro_batch 5 0 0 sample_batch s in
  names s !! "warmup_linear" = Some (WarmupLinearSchedule (1 # 100) 10) /\
  out_res o = Raise TypeError /\
  List.filter is_set_lr (out_events o) = [] /\
  count_events is_optimizer_step (out_events o) = 0%nat.
Proof. cbv zeta. repeat split; vm_compute; reflexivity. Qed.

(** With the dynamic loss scale ([--loss_scale 0]) no schedule is bound, and
    the first micro-batch that closes a logical step raises [NameError]
    before any learning rate is written or any optimizer step made. *)
Lemma dynamic_loss_scale_fire_raises_NameError :
  let s := sample_state 1 true 0 in
  let o := micro_batch 5 0 0 sample_batch s in
  names s !! "warmup_linear" = None /\
  out_res o = Raise NameError /\
  List.filter is_set_lr (out_events o) = [] /\
  count_events is_optimizer_step (out_events o) = 0%nat.
Proof. cbv zeta. repeat split; vm_compute; reflexivity. Qed.

Lemma evaluate_returns_means_witness :
  exists (score upper_bound : Q) (s' : St unit),
    evaluate 0 sample_loader (sample_state 1 false 0)
    = mkOut (map (EForward false) (iter_DataLoader 0 sample_loader)) s'
        (Ok (score, upper_bound)) /\
    (upper_bound == 1)%Q /\ (score == 1)%Q.
Proof.
  destruct (evaluate_returns_means 0 sample_loader (sample_state 1 false 0))
    as (score & ub & s' & Hrun & Hub & Hsc & _).
  - vm_compute. lia.
  - discriminate.
  - reflexivity.
  - vm_compute. repeat constructor; discriminate.
  - exists score, ub, s'. split; [exact Hrun|]. split.
    + rewrite Hub. vm_compute. reflexivity.
    + rewrite Hsc. vm_compute. reflexivity.
Defined.

Lemma invalid_accumulation_rejected_witness :
  out_res (run_main sample_env (sample_args 0 false 0) tt) = Raise ValueError /\
  out_res (run_main sample_env (sample_args (-3) true 128) tt)
  = Raise ValueError.
Proof.
  split.
  - apply (proj1 (invalid_accumulation_rejected sample_env
                    (sample_args 0 false 0) tt)).
    vm_compute. reflexivity.
  - apply (proj1 (invalid_accumulation_rejected sample_env
                    (sample_args (-3) true 128) tt)).
    vm_compute. reflexivity.
Defined.

Lemma dataset_loading_raises_NameError_witness :
  out_res (run_main sample_env (sample_args 1 false 0) tt) = Raise NameError.
Proof.
  apply (dataset_loading_raises_NameError sample_env
           (sample_args 1 false 0) tt).
  - vm_compute. discriminate.
  - reflexivity.
  - left. reflexivity.
Defined.

(** C10, as stated, fails when the accumulation count is below 1: with
    [do_train] set and the split [train], the run ends in the [ValueError]
    of line 225, before the datasets are loaded. *)
Lemma do_train_run_raises_ValueError :
  let a := sample_args 0 false 0 in
  let o := run_main sample_env a tt in
  do_train a = true /\
  split a = "train" /\
  out_res o = Raise ValueError /\
  out_res o <> Raise NameError /\
  names (out_state o) = ∅.
Proof.
  cbv zeta.
  assert (H : out_res (run_main sample_env (sample_args 0 false 0) tt)
              = Raise ValueError) by (vm_compute; reflexivity).
  split; [reflexivity|]. split; [reflexivity|]. split; [exact H|].
  split; [rewrite H; discriminate|]. vm_compute. reflexivity.
Qed.

(** ** The further statements on the small run *)

Lemma lr_lambda_update_monotone_witness :
  (lr_lambda_update 500 <= lr_lambda_update 800)%Q.
Proof.
  destruct (lr_lambda_update_monotone 500 800) as (_ & H & _); [lia|].
  exact H.
Defined.

Lemma instance_bce_with_logits_per_example_witness :
  exists loss : Q,
    instance_bce_with_logits (fun x y => (x - y) * (x - y))%Q
      [[1; 0; 0]; [0; 1; 0]]%Q [[0; 1; 0]; [0; 1; 0]]%Q = Ok loss /\
    (loss == 1)%Q.
Proof.
  destruct (instance_bce_with_logits_per_example
              (fun x y => (x - y) * (x - y))%Q
              [[1; 0; 0]; [0; 1; 0]]%Q [[0; 1; 0]; [0; 1; 0]]%Q 3)
    as (loss & Hrun & Hloss).
  - reflexivity.
  - repeat constructor.
  - discriminate.
  - lia.
  - exists loss. split; [exact Hrun|]. rewrite Hloss. vm_compute. reflexivity.
Defined.

Lemma compute_score_with_logits_entries_witness :
  exists scores : matrix,
    compute_score_with_logits [[1 # 10; 9 # 10; 2 # 10]; [3; 2; 1]]%Q
      [[0; 1; 0]; [1 # 2; 0; 1]]%Q = Ok scores /\
    same_shape scores [[0; 1; 0]; [1 # 2; 0; 1]]%Q = true.
Proof.
  destruct (compute_score_with_logits_entries
              [[1 # 10; 9 # 10; 2 # 10]; [3; 2; 1]]%Q
              [[0; 1; 0]; [1 # 2; 0; 1]]%Q)
    as (scores & Hrun & Hshape & _).
  - reflexivity.
  - repeat constructor; discriminate.
  - exists scores. split; [exact Hrun | exact Hshape].
Defined.

Lemma example_score_below_bound_witness :
  exists (scores : matrix) (mx : list (Q * nat)),
    compute_score_with_logits [[1 # 10; 9 # 10; 2 # 10]; [3; 2; 1]]%Q
      [[0; 1; 0]; [1 # 2; 0; 1]]%Q = Ok scores /\
    torch_max1 [[0; 1; 0]; [1 # 2; 0; 1]]%Q = Ok mx /\
    Forall2 (fun srow m => (Qsum srow <= fst m)%Q) scores mx.
Proof.
  apply (example_score_below_bound
           [[1 # 10; 9 # 10; 2 # 10]; [3; 2; 1]]%Q
           [[0; 1; 0]; [1 # 2; 0; 1]]%Q).
  - reflexivity.
  - repeat constructor; discriminate.
Defined.

Lemma main_without_do_train_witness :
  out_res (run_main sample_env default_args tt) = Raise ValueError.
Proof.
  destruct (main_without_do_train sample_env default_args tt) as (H & _).
  - vm_compute. discriminate.
  - reflexivity.
  - exact H.
Defined.

Lemma main_unknown_split_witness :
  out_res (run_main sample_env (sample_args_split "test") tt)
  = Raise AssertionError.
Proof.
  destruct (main_unknown_split sample_env (sample_args_split "test") tt)
    as (H & _).
  - vm_compute. discriminate.
  - reflexivity.
  - discriminate.
  - discriminate.
  - exact H.
Defined.

Lemma fire_without_readable_schedule_witness :
  out_res (micro_batch 5 0 0 sample_batch (sample_state 1 true 0))
  = Raise NameError.
Proof.
  edestruct (fire_without_readable_schedule 5 0 0 sample_batch
               (sample_state 1 true 0)) as (H & _);
    [vm_compute; reflexivity .. |].
  destruct (H ltac:(vm_compute; reflexivity)) as (s' & -> & _).
  reflexivity.
Defined.

Lemma dynamic_loss_scale_never_steps_witness :
  out_res (micro_batch 5 0 0 sample_batch (sample_state 1 true 0))
  = Raise NameError.
Proof.
  edestruct (dynamic_loss_scale_never_steps sample_env
               (set_num_train_optimization_steps 10
                  (initial_state (sample_args 1 true 0) tt))
               5 0 0 sample_batch) as (H & _);
    [vm_compute; reflexivity .. |].
  exact H.
Defined.

Lemma plan_steps_plans_witness :
  let s := set_args (set_train_batch_size 2)
             (initial_state (sample_args 1 false 0) tt) in
  num_train_optimization_steps (out_state (plan_steps sample_dataset s))
  = 3 / (2 * 1) * 30.
Proof.
  cbv zeta.
  destruct (proj1 (plan_steps_plans sample_dataset
                     (set_args (set_train_batch_size 2)
                        (initial_state (sample_args 1 false 0) tt))))
    as (_ & Hone & _).
  - exact exact_division_is_nearest.
  - vm_compute. reflexivity.
  - split; vm_compute; [reflexivity | discriminate].
  - split; vm_compute; [reflexivity | discriminate].
  - destruct (Hone eq_refl) as (_ & Hplan). exact Hplan.
Defined.

Lemma output_model_file_inj_witness :
  output_model_file "save" 0 <> output_model_file "save" 1.
Proof. apply (output_model_file_inj "save" 0 1). lia. Defined.

Lemma train_batches_counts_witness :
  nb_tr_examples
    (out_state
       (train_batches (len_DataLoader sample_loader) 0
          (iter_DataLoader 0 sample_loader) (sample_state 1 false 0)))
  = 0 + 3.
Proof.
  destruct (train_batches_counts 0 sample_loader (sample_state 1 false 0))
    as (H & _).
  - vm_compute. lia.
  - reflexivity.
  - vm_compute. reflexivity.
  - exact H.
Defined.

Lemma evaluate_empty_raises_witness :
  evaluate 0 (mkDataLoader (mkDataset [] 3) false 2) (sample_state 1 false 0)
  = mkOut [] (sample_state 1 false 0) (Raise ZeroDivisionError).
Proof.
  apply (evaluate_empty_raises 0 (mkDataLoader (mkDataset [] 3) false 2)
           (sample_state 1 false 0)); reflexivity.
Defined.


Lemma reduced_precision_fire_raises_witness :
  out_res (micro_batch 5 0 1 sample_batch (sample_state 2 true 128))
  = Raise TypeError.
Proof.
  edestruct (reduced_precision_fire_raises 5 0 1 sample_batch
               (sample_state 2 true 128)) as (H & _);
    [vm_compute; reflexivity .. |].
  exact H.
Defined.
